(** * Tanzanian commercial-rent invoice processor: extraction, validation
      and withholding-tax arithmetic of [app.py]

    The development embeds the monetary core of [app.py]:

    - [Module Dec]: the fragment of Python's [decimal] module the program
      uses (finite [Decimal] values as sign / coefficient / exponent
      triples, the default context with 28 significant digits,
      ROUND_HALF_EVEN, Emax = 999999, Emin = -999999 and the traps
      InvalidOperation, DivisionByZero and Overflow);
    - [Module Re]: the four regular expressions of the amount scan and of
      the VAT clause, as matchers over a text of code points below 256;
    - [Module TaxCalculator], [Module InvoiceParser]: the functions of the
      classes of the same names.

    Raising a Python exception is modelled by the [Raise] constructor of
    [result]. *)

From Stdlib Require Import ZArith NArith QArith Qround Qabs Bool List String Ascii Lia Sorted.
Import ListNotations.

Local Open Scope Z_scope.

(** ** Exceptions *)

Inductive exn : Type :=
| ConversionSyntax   (* decimal.InvalidOperation signalled by Decimal(str) *)
| DivisionUndefined  (* decimal.InvalidOperation signalled by 0 / 0 *)
| InvalidOperation   (* decimal.InvalidOperation signalled by quantize *)
| DivisionByZero     (* decimal.DivisionByZero *)
| Overflow           (* decimal.Overflow *)
| IndexError.        (* list index out of range *)

Inductive result (A : Type) : Type :=
| Return (a : A)
| Raise (e : exn).

Arguments Return {A} a.
Arguments Raise {A} e.

Definition bind {A B : Type} (m : result A) (k : A -> result B) : result B :=
  match m with
  | Return a => k a
  | Raise e => Raise e
  end.

Notation "x <- m ;; k" := (bind m (fun x => k))
  (at level 61, m at next level, right associativity).

(** ** Python's [decimal] module, default context *)

Module Dec.

(** [Decimal.as_tuple()]: sign (true is negative), coefficient, exponent.
    Only finite values are modelled: the program builds its decimals from
    digit strings and from arithmetic on them, which never yields NaN or an
    infinity without raising under the default traps. *)
Record Decimal : Type := mkDecimal {
  dsign : bool;
  dint : N;
  dexp : Z
}.

Definition prec : Z := 28.
Definition Emax : Z := 999999.
Definition Emin : Z := -999999.
Definition Etiny : Z := Emin - prec + 1.
Definition Etop : Z := Emax - prec + 1.

(** The signed coefficient. *)
Definition sval (d : Decimal) : Z :=
  if dsign d then - Z.of_N (dint d) else Z.of_N (dint d).

(** [bool(d)]: a Decimal is falsy exactly when its coefficient is zero. *)
Definition truthy (d : Decimal) : bool := negb (N.eqb (dint d) 0).

(** Number of decimal digits of a non-negative coefficient,
    [len(self._int)]; the coefficient 0 has one digit. *)
Fixpoint ndigits_fuel (fuel : nat) (n : Z) : Z :=
  match fuel with
  | O => 1
  | S f => if n <? 10 then 1 else 1 + ndigits_fuel f (n / 10)
  end.

Definition ndigits (n : Z) : Z := ndigits_fuel (Z.to_nat (Z.log2 n)) n.

Definition adjusted (d : Decimal) : Z :=
  dexp d + ndigits (Z.of_N (dint d)) - 1.

(** Dropping the last [k] digits ([k > 0]) of a coefficient. *)
Definition round_half_up (c k : Z) : Z :=
  let p := 10 ^ k in
  if 2 * (c mod p) >=? p then c / p + 1 else c / p.

Definition round_half_even (c k : Z) : Z :=
  let p := 10 ^ k in
  let q := c / p in
  let r := c mod p in
  if (2 * r >? p) || ((2 * r =? p) && Z.odd q) then q + 1 else q.

Inductive rounding : Type := ROUND_HALF_UP | ROUND_HALF_EVEN.

Definition round_digits (m : rounding) (c k : Z) : Z :=
  match m with
  | ROUND_HALF_UP => round_half_up c k
  | ROUND_HALF_EVEN => round_half_even c k
  end.

(** [Decimal._fix(context)]: round to the context precision with the
    context rounding (ROUND_HALF_EVEN), clamp the exponent of a zero, raise
    Overflow above Emax. *)
Definition fix_ (d : Decimal) : result Decimal :=
  let c := Z.of_N (dint d) in
  if c =? 0 then
    Return (mkDecimal (dsign d) 0 (Z.min (Z.max (dexp d) Etiny) Emax))
  else
    let exp_min := ndigits c + dexp d - prec in
    if exp_min >? Etop then Raise Overflow
    else
      let exp_min := if exp_min <? Etiny then Etiny else exp_min in
      if dexp d <? exp_min then
        let c1 := round_half_even c (exp_min - dexp d) in
        let '(c2, e2) :=
          if ndigits c1 >? prec then (c1 / 10, exp_min + 1) else (c1, exp_min) in
        if e2 >? Etop then Raise Overflow
        else Return (mkDecimal (dsign d) (Z.to_N c2) e2)
      else Return d.

Definition of_signed (z e : Z) (zero_sign : bool) : Decimal :=
  if z =? 0 then mkDecimal zero_sign 0 e
  else mkDecimal (z <? 0) (Z.abs_N z) e.

(** [a * b] *)
Definition mul (a b : Decimal) : result Decimal :=
  fix_ (mkDecimal (xorb (dsign a) (dsign b)) (dint a * dint b) (dexp a + dexp b)).

(** [a + b]: the exact sum at the smaller exponent, then [_fix]. A zero sum
    is negative only when both operands are negative zeros. *)
Definition add (a b : Decimal) : result Decimal :=
  let e := Z.min (dexp a) (dexp b) in
  let z := sval a * 10 ^ (dexp a - e) + sval b * 10 ^ (dexp b - e) in
  fix_ (of_signed z e
          (N.eqb (dint a) 0 && N.eqb (dint b) 0 && dsign a && dsign b)).

Definition copy_negate (a : Decimal) : Decimal :=
  mkDecimal (negb (dsign a)) (dint a) (dexp a).

(** [a - b] *)
Definition sub (a b : Decimal) : result Decimal := add a (copy_negate b).

(** [abs(a)] *)
Definition abs (a : Decimal) : result Decimal :=
  fix_ (mkDecimal false (dint a) (dexp a)).

(** The loop of [__truediv__] that brings an exact quotient as close to the
    ideal exponent as its trailing zeros allow. *)
Fixpoint strip_zeros (fuel : nat) (coeff e ideal : Z) : Z * Z :=
  match fuel with
  | O => (coeff, e)
  | S f =>
      if (e <? ideal) && (coeff mod 10 =? 0)
      then strip_zeros f (coeff / 10) (e + 1) ideal
      else (coeff, e)
  end.

(** [a / b] *)
Definition div (a b : Decimal) : result Decimal :=
  let sign := xorb (dsign a) (dsign b) in
  let ca := Z.of_N (dint a) in
  let cb := Z.of_N (dint b) in
  if cb =? 0 then
    if ca =? 0 then Raise DivisionUndefined else Raise DivisionByZero
  else if ca =? 0 then
    fix_ (mkDecimal sign 0 (dexp a - dexp b))
  else
    let shift := ndigits cb - ndigits ca + prec + 1 in
    let e := dexp a - dexp b - shift in
    let '(coeff, remainder) :=
      if 0 <=? shift then Z.div_eucl (ca * 10 ^ shift) cb
      else Z.div_eucl ca (cb * 10 ^ (- shift)) in
    let '(coeff, e) :=
      if remainder =? 0
      then strip_zeros (Z.to_nat (dexp a - dexp b - e)) coeff e (dexp a - dexp b)
      else (if coeff mod 5 =? 0 then coeff + 1 else coeff, e) in
    fix_ (mkDecimal sign (Z.to_N coeff) e).

(** [Decimal._rescale(exp, rounding)] *)
Definition rescale (d : Decimal) (e : Z) (m : rounding) : Decimal :=
  let c := Z.of_N (dint d) in
  if c =? 0 then mkDecimal (dsign d) 0 e
  else if e <=? dexp d then
    mkDecimal (dsign d) (Z.to_N (c * 10 ^ (dexp d - e))) e
  else mkDecimal (dsign d) (Z.to_N (round_digits m c (e - dexp d))) e.

(** [d.quantize(Decimal(1E e), rounding=m)] *)
Definition quantize (d : Decimal) (e : Z) (m : rounding) : result Decimal :=
  if negb ((Etiny <=? e) && (e <=? Emax)) then Raise InvalidOperation
  else if Z.of_N (dint d) =? 0 then fix_ (mkDecimal (dsign d) 0 e)
  else if adjusted d >? Emax then Raise InvalidOperation
  else if adjusted d - e + 1 >? prec then Raise InvalidOperation
  else
    let ans := rescale d e m in
    if adjusted ans >? Emax then Raise InvalidOperation
    else if ndigits (Z.of_N (dint ans)) >? prec then Raise InvalidOperation
    else fix_ ans.

(** Numerical comparison, [Decimal._cmp]: exact, never rounded. *)
Definition compare (a b : Decimal) : comparison :=
  let e := Z.min (dexp a) (dexp b) in
  Z.compare (sval a * 10 ^ (dexp a - e)) (sval b * 10 ^ (dexp b - e)).

Definition ltb (a b : Decimal) : bool :=
  match compare a b with Lt => true | _ => false end.
Definition leb (a b : Decimal) : bool :=
  match compare a b with Gt => false | _ => true end.
Definition gtb (a b : Decimal) : bool := ltb b a.
Definition eqb (a b : Decimal) : bool :=
  match compare a b with Eq => true | _ => false end.

(** [Decimal(n)] for a Python int. *)
Definition of_Z (z : Z) : Decimal := of_signed z 0 false.

(** [Decimal(s)] on the unsigned plain literals the scans produce: digits
    with an optional fractional part, at least one digit in all. The empty
    string and a lone point are conversion-syntax errors. Signs, exponents, NaN and infinities of the full
    numeric-string syntax never occur in a scanned token. *)
Definition is_digit (c : ascii) : bool :=
  let n := N_of_ascii c in (N.leb 48 n && N.leb n 57)%bool.

Definition digit_value (c : ascii) : N := N_of_ascii c - 48.

Fixpoint take_digits (s : string) : string * string :=
  match s with
  | String c s' =>
      if is_digit c then let '(ds, rest) := take_digits s' in (String c ds, rest)
      else (EmptyString, s)
  | EmptyString => (EmptyString, EmptyString)
  end.

Fixpoint digits_value (acc : N) (s : string) : N :=
  match s with
  | String c s' => digits_value (10 * acc + digit_value c) s'
  | EmptyString => acc
  end.

Definition of_string (s : string) : result Decimal :=
  let '(intpart, rest) := take_digits s in
  match rest with
  | EmptyString =>
      match intpart with
      | EmptyString => Raise ConversionSyntax
      | _ => Return (mkDecimal false (digits_value 0 intpart) 0)
      end
  | String "." rest' =>
      let '(fracpart, rest'') := take_digits rest' in
      match rest'' with
      | EmptyString =>
          match (intpart ++ fracpart)%string with
          | EmptyString => Raise ConversionSyntax
          | ds => Return (mkDecimal false (digits_value 0 ds)
                            (- Z.of_nat (String.length fracpart)))
          end
      | _ => Raise ConversionSyntax
      end
  | _ => Raise ConversionSyntax
  end.

(** The exact rational value [z * 10^e], used on the specification side
    only. *)
Definition qval (z e : Z) : Q :=
  if 0 <=? e then inject_Z (z * 10 ^ e)
  else Qmake z (Z.to_pos (10 ^ (- e))).

Definition dval (d : Decimal) : Q := qval (sval d) (dexp d).

End Dec.

Import Dec.

(** ** The regular expressions of [parse_invoice]

    The text is a [string] of code points below 256. Every pattern is
    compiled with [re.IGNORECASE]; on this alphabet the letters of the
    patterns match their two ASCII cases only, [\d] is [0-9] and [\s] is
    the white space of [str.isspace]. Each pattern is deterministic under
    Python's backtracking: the character classes that follow one another
    are disjoint, so the greedy choice is the only one that can succeed,
    and a matcher returns the captured group(s) with the text left after
    the match. *)

Module Re.

Definition is_space (c : ascii) : bool :=
  let n := N_of_ascii c in
  ((N.leb 9 n && N.leb n 13) || (N.leb 28 n && N.leb n 32)
   || N.eqb n 133 || N.eqb n 160)%bool.

(** [[0-9,]] *)
Definition is_amount_char (c : ascii) : bool :=
  (is_digit c || Ascii.eqb c ",")%bool.

(** [[:\s]] *)
Definition is_colon_or_space (c : ascii) : bool :=
  (Ascii.eqb c ":" || is_space c)%bool.

Definition lower (c : ascii) : ascii :=
  let n := N_of_ascii c in
  if (N.leb 65 n && N.leb n 90)%bool then ascii_of_N (n + 32) else c.

(** A literal given in lower case, matched ignoring case. *)
Fixpoint literal (pat s : string) : option string :=
  match pat with
  | EmptyString => Some s
  | String p pat' =>
      match s with
      | String c s' => if Ascii.eqb (lower c) p then literal pat' s' else None
      | EmptyString => None
      end
  end.

(** [c*] for a character class, greedy: the run and the rest. *)
Fixpoint take_while (p : ascii -> bool) (s : string) : string * string :=
  match s with
  | String c s' =>
      if p c then let '(run, rest) := take_while p s' in (String c run, rest)
      else (EmptyString, s)
  | EmptyString => (EmptyString, EmptyString)
  end.

Definition skip (p : ascii -> bool) (s : string) : string :=
  snd (take_while p s).

(** [(?:TZS|TSh)] (and its third alternative [Tsh], the same under
    IGNORECASE) *)
Definition marker (s : string) : option string :=
  match literal "tzs" s with
  | Some r => Some r
  | None => literal "tsh" s
  end.

(** [(?:TZS|TSh)?] *)
Definition opt_marker (s : string) : string :=
  match marker s with
  | Some r => r
  | None => s
  end.

(** [([0-9,]+(?:\.\d{2})?)] *)
Definition number (s : string) : option (string * string) :=
  match take_while is_amount_char s with
  | (EmptyString, _) => None
  | (run, rest) =>
      match rest with
      | String "." (String d1 (String d2 rest')) =>
          if (is_digit d1 && is_digit d2)%bool
          then Some ((run ++ String "." (String d1 (String d2 EmptyString)))%string, rest')
          else Some (run, rest)
      | _ => Some (run, rest)
      end
  end.

(** [(?:TZS|TSh|Tsh)\s*([0-9,]+(?:\.\d{2})?)] *)
Definition marker_amount (s : string) : option (string * string) :=
  match marker s with
  | Some r => number (skip is_space r)
  | None => None
  end.

(** [([0-9,]+(?:\.\d{2})?)\s*(?:TZS|TSh)] *)
Definition amount_marker (s : string) : option (string * string) :=
  match number s with
  | Some (g, r) =>
      match marker (skip is_space r) with
      | Some r' => Some (g, r')
      | None => None
      end
  | None => None
  end.

(** [VAT\s*(?:@\s* )?(\d+)%[:\s]*(?:TZS|TSh)?\s*([0-9,]+(?:\.\d{2})?)]
    (written here with a blank inside the first optional group) *)
Definition vat_rate_amount (s : string) : option ((string * string) * string) :=
  match literal "vat" s with
  | None => None
  | Some r =>
      let r := skip is_space r in
      let r := match r with
               | String "@" r' => skip is_space r'
               | _ => r
               end in
      match take_while is_digit r with
      | (EmptyString, _) => None
      | (g1, String "%" r') =>
          let r' := skip is_space (opt_marker (skip is_colon_or_space r')) in
          match number r' with
          | Some (g2, rest) => Some ((g1, g2), rest)
          | None => None
          end
      | _ => None
      end
  end.

(** [(?:TZS|TSh)?\s*([0-9,]+(?:\.\d{2})?)\s*VAT] *)
Definition amount_vat (s : string) : option (string * string) :=
  match number (skip is_space (opt_marker s)) with
  | Some (g, r) =>
      match literal "vat" (skip is_space r) with
      | Some r' => Some (g, r')
      | None => None
      end
  | None => None
  end.

Section Scan.
Context {G : Type} (m : string -> option (G * string)).

(** [re.finditer]: the captured groups of the non-overlapping matches,
    leftmost first; [skip] counts the characters of the current match
    still to be passed over. *)
Fixpoint finditer_from (skip : nat) (s : string) : list G :=
  match s with
  | EmptyString => []
  | String _ s' =>
      match skip with
      | S k => finditer_from k s'
      | O =>
          match m s with
          | Some (g, rest) =>
              g :: finditer_from (String.length s - String.length rest - 1) s'
          | None => finditer_from 0 s'
          end
      end
  end.

Definition finditer (s : string) : list G := finditer_from 0 s.

(** The same iteration, each group with the offset at which its match
    starts ([match.start()], counted from [pos]). *)
Fixpoint finditer_pos_from (pos skip : nat) (s : string) : list (nat * G) :=
  match s with
  | EmptyString => []
  | String _ s' =>
      match skip with
      | S k => finditer_pos_from (S pos) k s'
      | O =>
          match m s with
          | Some (g, rest) =>
              (pos, g)
                :: finditer_pos_from (S pos)
                     (String.length s - String.length rest - 1) s'
          | None => finditer_pos_from (S pos) 0 s'
          end
      end
  end.

Definition finditer_pos (s : string) : list (nat * G) :=
  finditer_pos_from 0 0 s.

(** [re.search]: the groups of the leftmost match. *)
Fixpoint search (s : string) : option G :=
  match m s with
  | Some (g, _) => Some g
  | None =>
      match s with
      | String _ s' => search s'
      | EmptyString => None
      end
  end.
End Scan.

(** [s.replace(',', '')] *)
Fixpoint remove_commas (s : string) : string :=
  match s with
  | String c s' =>
      if Ascii.eqb c "," then remove_commas s' else String c (remove_commas s')
  | EmptyString => EmptyString
  end.

End Re.

(** ** class TaxCalculator *)

Module TaxCalculator.

Definition WHT_RATE : Decimal := mkDecimal false 10 (-2).
Definition VAT_RATE_STANDARD : Decimal := mkDecimal false 18 (-2).

Definition calculate_wht (gross_rent : Decimal) : result Decimal :=
  p <- mul gross_rent WHT_RATE ;;
  quantize p (-2) ROUND_HALF_UP.

Definition calculate_payment_to_landlord
    (gross_rent vat_amount wht : Decimal) : result Decimal :=
  net <- sub gross_rent wht ;;
  s <- add net vat_amount ;;
  quantize s (-2) ROUND_HALF_UP.

Definition calculate_total_outflow
    (payment_to_landlord wht : Decimal) : result Decimal :=
  s <- add payment_to_landlord wht ;;
  quantize s (-2) ROUND_HALF_UP.

Definition verify_vat_rate
    (vat_amount base_amount : Decimal) : result (Decimal * bool) :=
  if Dec.eqb base_amount (of_Z 0) then Return (mkDecimal false 0 0, false)
  else
    q <- div vat_amount base_amount ;;
    effective_rate <- quantize q (-4) ROUND_HALF_UP ;;
    d <- sub effective_rate VAT_RATE_STANDARD ;;
    a <- Dec.abs d ;;
    Return (effective_rate, Dec.ltb a (mkDecimal false 1 (-2))).

End TaxCalculator.

(** The three [TaxCalculator] calls of [calculate_and_display_taxes], in
    its order; the result is the triple the function returns. *)
Definition calculate_and_display_taxes
    (base_rent_tzs vat_amount_tzs : Decimal)
  : result (Decimal * Decimal * Decimal) :=
  wht_amount <- TaxCalculator.calculate_wht base_rent_tzs ;;
  payment_to_landlord <-
    TaxCalculator.calculate_payment_to_landlord
      base_rent_tzs vat_amount_tzs wht_amount ;;
  total_outflow <-
    TaxCalculator.calculate_total_outflow payment_to_landlord wht_amount ;;
  Return (payment_to_landlord, wht_amount, total_outflow).

(** ** class InvoiceData, class InvoiceParser *)

Module InvoiceParser.

(** The monetary fields of [InvoiceData] and the raw text. The textual
    fields (invoice number, date, period, description, landlord and bank
    details, USD note) are filled by searches that neither raise nor touch
    a monetary field; they are left out. *)
Record InvoiceData : Type := mkInvoiceData {
  base_rent_tzs : option Decimal;
  vat_rate : option Decimal;
  vat_amount_tzs : option Decimal;
  total_amount_tzs : option Decimal;
  raw_text : string
}.

Definition new_InvoiceData : InvoiceData :=
  mkInvoiceData None None None None EmptyString.

Definition set_raw_text (i : InvoiceData) (t : string) : InvoiceData :=
  mkInvoiceData (base_rent_tzs i) (vat_rate i) (vat_amount_tzs i)
    (total_amount_tzs i) t.
Definition set_base_rent_tzs (i : InvoiceData) (d : Decimal) : InvoiceData :=
  mkInvoiceData (Some d) (vat_rate i) (vat_amount_tzs i)
    (total_amount_tzs i) (raw_text i).
Definition set_vat_rate (i : InvoiceData) (d : Decimal) : InvoiceData :=
  mkInvoiceData (base_rent_tzs i) (Some d) (vat_amount_tzs i)
    (total_amount_tzs i) (raw_text i).
Definition set_vat_amount_tzs (i : InvoiceData) (d : Decimal) : InvoiceData :=
  mkInvoiceData (base_rent_tzs i) (vat_rate i) (Some d)
    (total_amount_tzs i) (raw_text i).
Definition set_total_amount_tzs (i : InvoiceData) (d : Decimal) : InvoiceData :=
  mkInvoiceData (base_rent_tzs i) (vat_rate i) (vat_amount_tzs i)
    (Some d) (raw_text i).

(** [bool(x)] of an optional Decimal: None and zero are falsy. *)
Definition is_true (x : option Decimal) : bool :=
  match x with
  | Some d => truthy d
  | None => false
  end.

(** [l[-k]] for [k >= 1] *)
Definition item_from_end {A : Type} (l : list A) (k : nat) : result A :=
  if (Nat.leb k (List.length l) && Nat.leb 1 k)%bool then
    match nth_error l (List.length l - k) with
    | Some a => Return a
    | None => Raise IndexError
    end
  else Raise IndexError.

(** The amount patterns, in the order of the list [amount_patterns]. *)
Definition amount_patterns : list (string -> option (string * string)) :=
  [Re.marker_amount; Re.amount_marker].

(** The body of the inner loop: a token whose conversion raises is passed
    over by the bare [except: continue]. *)
Definition append_amount (amounts : list Decimal) (group1 : string)
  : list Decimal :=
  match of_string (Re.remove_commas group1) with
  | Return d => amounts ++ [d]
  | Raise _ => amounts
  end.

(** Lines 219-233: the amount scan. *)
Definition extract_amounts (raw_text : string) : list Decimal :=
  fold_left
    (fun amounts pattern =>
       fold_left append_amount (Re.finditer pattern raw_text) amounts)
    amount_patterns [].

(** Lines 235-248: the VAT clause; its conversions are not guarded. *)
Definition extract_vat (raw_text : string) (invoice : InvoiceData)
  : result InvoiceData :=
  match Re.search Re.vat_rate_amount raw_text with
  | Some (g1, g2) =>
      n <- of_string g1 ;;
      rate <- div n (of_Z 100) ;;
      let invoice := set_vat_rate invoice rate in
      v <- of_string (Re.remove_commas g2) ;;
      Return (set_vat_amount_tzs invoice v)
  | None =>
      match Re.search Re.amount_vat raw_text with
      | Some g1 =>
          v <- of_string (Re.remove_commas g1) ;;
          Return (set_vat_amount_tzs invoice v)
      | None => Return invoice
      end
  end.

(** Lines 250-260: positional inference and derivation of the base rent. *)
Definition identify_amounts (amounts : list Decimal) (invoice : InvoiceData)
  : result InvoiceData :=
  if Nat.leb 2 (List.length amounts) then
    total <- item_from_end amounts 1 ;;
    let invoice := set_total_amount_tzs invoice total in
    invoice <-
      (match vat_amount_tzs invoice with
       | None =>
           if Nat.leb 3 (List.length amounts) then
             vat <- item_from_end amounts 2 ;;
             Return (set_vat_amount_tzs invoice vat)
           else Return invoice
       | Some _ => Return invoice
       end) ;;
    match total_amount_tzs invoice, vat_amount_tzs invoice with
    | Some t, Some v =>
        if (truthy t && truthy v)%bool then
          base <- sub t v ;;
          Return (set_base_rent_tzs invoice base)
        else Return invoice
    | _, _ => Return invoice
    end
  else Return invoice.

Definition parse_invoice (raw_text : string) : result InvoiceData :=
  let invoice := set_raw_text new_InvoiceData raw_text in
  let amounts := extract_amounts raw_text in
  invoice <- extract_vat raw_text invoice ;;
  identify_amounts amounts invoice.

(** The entries of the error list: the three fixed messages, and the
    mismatch message, an f-string over the three amounts. *)
Inductive error : Type :=
| Message (text : string)
| AmountMismatch (base vat total : Decimal).

Definition base_rent_error : error :=
  Message "Base rent amount is missing or invalid".
Definition vat_amount_error : error :=
  Message "VAT amount is missing or invalid".
Definition total_amount_error : error :=
  Message "Total amount is missing or invalid".

(** [not x or x <= 0], [not x or x < 0] *)
Definition missing_or (x : option Decimal) (bad : Decimal -> bool) : bool :=
  match x with
  | None => true
  | Some d => (negb (truthy d) || bad d)%bool
  end.

Definition append_if (c : bool) (errors : list error) (e : error)
  : list error :=
  if c then errors ++ [e] else errors.

Definition validate_invoice (invoice : InvoiceData)
  : result (bool * list error) :=
  let errors := [] in
  let errors :=
    append_if (missing_or (base_rent_tzs invoice) (fun d => Dec.leb d (of_Z 0)))
      errors base_rent_error in
  let errors :=
    append_if (missing_or (vat_amount_tzs invoice) (fun d => Dec.ltb d (of_Z 0)))
      errors vat_amount_error in
  let errors :=
    append_if (missing_or (total_amount_tzs invoice) (fun d => Dec.leb d (of_Z 0)))
      errors total_amount_error in
  errors <-
    (match base_rent_tzs invoice, vat_amount_tzs invoice,
           total_amount_tzs invoice with
     | Some b, Some v, Some t =>
         if (truthy b && truthy v && truthy t)%bool then
           expected_total <- add b v ;;
           diff <- sub expected_total t ;;
           a <- Dec.abs diff ;;
           Return (append_if (Dec.gtb a (mkDecimal false 10 (-2))) errors
                     (AmountMismatch b v t))
         else Return errors
     | _, _, _ => Return errors
     end) ;;
  Return (Nat.eqb (List.length errors) 0, errors).

End InvoiceParser.

Import InvoiceParser.

(** ** Specification-side definitions *)

(** The decimals of the tokens of a list that convert, in the order of the
    list. *)
Definition converted (groups : list string) : list Decimal :=
  flat_map
    (fun g =>
       match of_string (Re.remove_commas g) with
       | Return d => [d]
       | Raise _ => []
       end)
    groups.

(** The matches behind the amount list, in the order the scan visits them,
    each with the offset of its first character in the text. *)
Definition amount_matches (raw_text : string) : list (nat * string) :=
  flat_map (fun pattern => Re.finditer_pos pattern raw_text) amount_patterns.

(** Reading of "collected in the order they appear in the text": the start
    offsets of the collected matches never decrease. *)
Definition in_text_order (raw_text : string) : Prop :=
  Sorted Nat.le (map fst (amount_matches raw_text)).

(** Rounding a rational to [places] decimal places, ties away from zero
    (the meaning of Python's ROUND_HALF_UP): the magnitude is scaled, one
    half is added, and the floor is taken. *)
Definition round_half_up_Q (x : Q) (places : Z) : Q :=
  let scale := 10 ^ places in
  let m := Qfloor (Qabs x * inject_Z scale + (1 # 2)) in
  Qmake (if Qle_bool 0 x then m else - m) (Z.to_pos scale).

(** Every character of a string is in a class. *)
Fixpoint all_chars (p : ascii -> bool) (s : string) : bool :=
  match s with
  | String c s' => (p c && all_chars p s')%bool
  | EmptyString => true
  end.

(** An amount as the text can write it: non-negative, with no or with
    exactly two fractional digits. *)
Definition written_amount (d : Decimal) : Prop :=
  dsign d = false /\ (dexp d = 0 \/ dexp d = -2).

(** Reading of the monetary-field invariant of the data model:
    non-negative, exactly two fractional digits. *)
Definition two_decimal_amount (x : option Decimal) : Prop :=
  forall d, x = Some d -> 0 <= sval d /\ dexp d = -2.

(** The derivation step: what the last three lines of the block do to a
    record whose total and VAT are settled. *)
Definition derive_base_rent (invoice : InvoiceData) : result InvoiceData :=
  match total_amount_tzs invoice, vat_amount_tzs invoice with
  | Some t, Some v =>
      if (truthy t && truthy v)%bool then
        base <- sub t v ;;
        Return (set_base_rent_tzs invoice base)
      else Return invoice
  | _, _ => Return invoice
  end.

(** A decimal the context represents as it is. *)
Definition fits (d : Decimal) : Prop :=
  Z.of_N (dint d) < 10 ^ prec /\ Etiny <= dexp d <= Etop.

(** The coefficient [quantize] gives at exponent [k]. *)
Definition quantized (c e k : Z) : Z :=
  if k <=? e then c * 10 ^ (e - k) else round_half_up c (k - e).

(** The coefficient and the exponent [_fix] gives a positive coefficient
    within the exponent range, before a carry into a 29th digit is
    folded. *)
Definition fix_coeff (c : Z) : Z :=
  if ndigits c <=? prec then c else round_half_even c (ndigits c - prec).

Definition fix_exp (c e : Z) : Z :=
  if ndigits c <=? prec then e else e + (ndigits c - prec).

(** The signed coefficient of a decimal written at the exponent [lo] (for
    [lo] at most the exponent of the decimal). *)
Definition scaled (lo : Z) (d : Decimal) : Z := sval d * 10 ^ (dexp d - lo).

(** A decimal that is a multiple of [10^lo] with fewer than [N] digits
    above it: the range in which sums and differences are exact. *)
Definition within (lo N : Z) (d : Decimal) : Prop :=
  lo <= dexp d <= lo + N /\ Z.abs (scaled lo d) < 10 ^ N.

(** [,] *)
Definition is_comma (c : ascii) : bool := Ascii.eqb c ",".

(** The token of the VAT clause that [parse_invoice] converts to the VAT
    amount: group 2 of the first VAT pattern if it matches, otherwise
    group 1 of the second. *)
Definition vat_token (raw_text : string) : option string :=
  match Re.search Re.vat_rate_amount raw_text with
  | Some (_, g2) => Some g2
  | None => Re.search Re.amount_vat raw_text
  end.

(** Lines 564-569 of [calculate_and_display_taxes]: the verification of
    the total outflow against the invoice total; [true] is the branch
    that reports "Verification Failed". *)
Definition verification_failed (total_outflow total_amount_tzs : Decimal)
  : result bool :=
  d <- sub total_outflow total_amount_tzs ;;
  a <- Dec.abs d ;;
  Return (Dec.gtb a (mkDecimal false 10 (-2))).

(** [manual_input_form], from the three amounts as lines 402, 412 and 422
    assign them ([Decimal(str(x)) if x > 0 else None] for the number typed
    into each field) and the state of the button: the auto-calculation of
    a missing total or VAT amount, then the validation. The textual
    inputs and the messages shown are left out. *)
Definition manual_input_form
    (base_rent vat_amount total_amount : option Decimal) (button : bool)
  : result (option InvoiceData) :=
  let invoice :=
    mkInvoiceData base_rent None vat_amount total_amount EmptyString in
  invoice <-
    (match base_rent_tzs invoice, vat_amount_tzs invoice with
     | Some b, Some v =>
         if (truthy b && truthy v
             && negb (is_true (total_amount_tzs invoice)))%bool
         then s <- add b v ;; Return (set_total_amount_tzs invoice s)
         else Return invoice
     | _, _ => Return invoice
     end) ;;
  invoice <-
    (match base_rent_tzs invoice, total_amount_tzs invoice with
     | Some b, Some t =>
         if (truthy b && truthy t
             && negb (is_true (vat_amount_tzs invoice)))%bool
         then d <- sub t b ;; Return (set_vat_amount_tzs invoice d)
         else Return invoice
     | _, _ => Return invoice
     end) ;;
  if button then
    r <- validate_invoice invoice ;;
    Return (if fst r then Some invoice else None)
  else Return None.

(** ** [format_currency]

    [f"{currency} {amount:,.2f}"]: the format specification [,.2f] of
    [Decimal.__format__] rescales the amount to two places with the
    context rounding (ROUND_HALF_EVEN), writes the coefficient with the
    point before its last two digits (an integer part of at least one
    digit), and groups the integer part by three with commas. *)

(** A digit as a character. *)
Definition digit_char (n : Z) : ascii := ascii_of_N (48 + Z.to_N n).

(** [str(n)] for a non-negative integer [n], before [acc]. *)
Fixpoint int_digits_fuel (fuel : nat) (n : Z) (acc : string) : string :=
  match fuel with
  | O => String (digit_char n) acc
  | S f =>
      if n <? 10 then String (digit_char n) acc
      else int_digits_fuel f (n / 10) (String (digit_char (n mod 10)) acc)
  end.

Definition int_digits (n : Z) : string :=
  int_digits_fuel (Z.to_nat (Z.log2 n)) n EmptyString.

(** The thousands separator: a comma in front of every group of three
    digits, counted from the right. *)
Fixpoint insert_thousands_sep (s : string) : string :=
  match s with
  | EmptyString => EmptyString
  | String c s' =>
      String c
        (if (Nat.ltb 0 (String.length s')
             && Nat.eqb (Nat.modulo (String.length s') 3) 0)%bool
         then String "," (insert_thousands_sep s')
         else insert_thousands_sep s')
  end.

(** [format(d, ',.2f')] *)
Definition format_2f (d : Decimal) : string :=
  let r := rescale d (-2) ROUND_HALF_EVEN in
  let c := Z.of_N (dint r) in
  ((if dsign r then "-" else "")
   ++ insert_thousands_sep (int_digits (c / 100))
   ++ String "." (String (digit_char (c mod 100 / 10))
                    (String (digit_char (c mod 10)) EmptyString)))%string.

Definition format_currency (amount : Decimal) (currency : string) : string :=
  (currency ++ " " ++ format_2f amount)%string.

(** The characters of a text after its leading characters that cannot
    start an amount. *)
Fixpoint from_first_amount_char (s : string) : string :=
  match s with
  | EmptyString => EmptyString
  | String c s' => if Re.is_amount_char c then s else from_first_amount_char s'
  end.

(** No letter [t] or [T]. *)
Definition not_t (c : ascii) : bool := negb (Ascii.eqb (Re.lower c) "t").

(** ** An invoice with each label before its amount

    The text a three-line invoice has when every amount is written by
    [format_currency] after its label: rent, VAT, total. *)

Definition newline : ascii := "010"%char.

Definition label_first_invoice (rent vat total : Decimal) : string :=
  ("Rent " ++ format_currency rent "TZS"
   ++ String newline
        ("VAT " ++ format_currency vat "TZS"
         ++ String newline ("Total " ++ format_currency total "TZS")))%string.

(** A figure as [format_2f] writes it: digits and commas, a point, two
    digits. *)
Definition figure (x : string) : Prop :=
  exists run d1 d2,
    x = (run ++ String "." (String d1 (String d2 EmptyString)))%string
    /\ all_chars Re.is_amount_char run = true /\ run <> EmptyString
    /\ is_digit d1 = true /\ is_digit d2 = true.

(** The characters of a figure. *)
Definition fig_char (c : ascii) : bool :=
  (Re.is_amount_char c || Ascii.eqb c ".")%bool.

(** No letter [v] or [V]. *)
Definition not_v (c : ascii) : bool := negb (Ascii.eqb (Re.lower c) "v").

(** No currency marker starts at [s], white space skipped. *)
Definition safe_after (s : string) : bool :=
  match Re.marker (Re.skip Re.is_space s) with
  | None => true
  | Some _ => false
  end.

(** After no digit or comma of the text comes a currency marker. *)
Fixpoint marker_free (s : string) : bool :=
  match s with
  | EmptyString => true
  | String c s' =>
      ((if Re.is_amount_char c then safe_after s' else true)
       && marker_free s')%bool
  end.

(** A matcher fails at every position inside the prefix [pre] of the text
    [pre ++ s]. *)
Fixpoint nowhere_in_prefix {G : Type} (m : string -> option (G * string))
    (pre s : string) : Prop :=
  match pre with
  | EmptyString => True
  | String c pre' =>
      m (String c (pre' ++ s)) = None /\ nowhere_in_prefix m pre' s
  end.

(** ** An invoice whose VAT line states the rate

    The three-line invoice with the rate written after the word VAT:
    "Rent TZS ...", "VAT n% TZS ...", "Total TZS ...". *)
Definition rated_invoice (rent : Decimal) (pct : Z) (vat total : Decimal)
  : string :=
  ("Rent " ++ format_currency rent "TZS"
   ++ String newline
        ("VAT " ++ int_digits pct ++ "% " ++ format_currency vat "TZS"
         ++ String newline ("Total " ++ format_currency total "TZS")))%string.

(** ** The textual fields: invoice number and landlord TIN

    Two of the textual searches of [parse_invoice], each as the value its
    block leaves in the field: the patterns are tried in the order of
    their list, the first one found anywhere in the text wins. *)

(** [[A-Z0-9\-/]] under IGNORECASE *)
Definition is_ref_char (c : ascii) : bool :=
  let n := N_of_ascii c in
  ((N.leb 65 n && N.leb n 90) || (N.leb 97 n && N.leb n 122) || is_digit c
   || Ascii.eqb c "-" || Ascii.eqb c "/")%bool.

(** [([A-Z0-9\-/]+)] *)
Definition ref_group (s : string) : option (string * string) :=
  match Re.take_while is_ref_char s with
  | (EmptyString, _) => None
  | (g, rest) => Some (g, rest)
  end.

(** [Invoice\s*(?:No|Number|#)[:\s]*([A-Z0-9\-/]+)]: the alternatives are
    tried in order, each with the rest of the pattern. *)
Definition invoice_label (s : string) : option (string * string) :=
  match Re.literal "invoice" s with
  | None => None
  | Some r =>
      let r := Re.skip Re.is_space r in
      let tail (alt : string) :=
        match Re.literal alt r with
        | Some r' => ref_group (Re.skip Re.is_colon_or_space r')
        | None => None
        end in
      match tail "no"%string with
      | Some m => Some m
      | None =>
          match tail "number"%string with
          | Some m => Some m
          | None => tail "#"%string
          end
      end
  end.

(** [INV[:\s]*([A-Z0-9\-/]+)] *)
Definition inv_label (s : string) : option (string * string) :=
  match Re.literal "inv" s with
  | Some r => ref_group (Re.skip Re.is_colon_or_space r)
  | None => None
  end.

(** [s.strip()] *)
Fixpoint lstrip (s : string) : string :=
  match s with
  | String c s' => if Re.is_space c then lstrip s' else s
  | EmptyString => EmptyString
  end.

Fixpoint rstrip (s : string) : string :=
  match s with
  | String c s' =>
      match rstrip s' with
      | EmptyString => if Re.is_space c then EmptyString else String c EmptyString
      | r => String c r
      end
  | EmptyString => EmptyString
  end.

Definition strip (s : string) : string := lstrip (rstrip s).

(** Lines 175-184: the value of [invoice.invoice_number]. *)
Definition extract_invoice_number (raw_text : string) : option string :=
  match Re.search invoice_label raw_text with
  | Some g => Some (strip g)
  | None =>
      match Re.search inv_label raw_text with
      | Some g => Some (strip g)
      | None => None
      end
  end.

(** At most [n] leading characters of a class. *)
Fixpoint take_upto (n : nat) (p : ascii -> bool) (s : string)
  : string * string :=
  match n, s with
  | S k, String c s' =>
      if p c then let '(run, rest) := take_upto k p s' in (String c run, rest)
      else (EmptyString, s)
  | _, _ => (EmptyString, s)
  end.

(** [(\d{9,10})] *)
Definition tin_digits (s : string) : option (string * string) :=
  let '(g, rest) := take_upto 10 is_digit s in
  if Nat.leb 9 (String.length g) then Some (g, rest) else None.

(** [TIN[:\s]*(\d{9,10})] *)
Definition tin_label (s : string) : option (string * string) :=
  match Re.literal "tin" s with
  | Some r => tin_digits (Re.skip Re.is_colon_or_space r)
  | None => None
  end.

(** [Tax\s+ID[:\s]*(\d{9,10})] *)
Definition tax_id_label (s : string) : option (string * string) :=
  match Re.literal "tax" s with
  | Some r =>
      match Re.take_while Re.is_space r with
      | (EmptyString, _) => None
      | (_, r') =>
          match Re.literal "id" r' with
          | Some r'' => tin_digits (Re.skip Re.is_colon_or_space r'')
          | None => None
          end
      end
  | None => None
  end.

(** Lines 273-282: the value of [invoice.landlord_tin]. *)
Definition extract_landlord_tin (raw_text : string) : option string :=
  match Re.search tin_label raw_text with
  | Some g => Some (strip g)
  | None =>
      match Re.search tax_id_label raw_text with
      | Some g => Some (strip g)
      | None => None
      end
  end.

(** No letter [i] or [I]. *)
Definition not_i (c : ascii) : bool := negb (Ascii.eqb (Re.lower c) "i").

(** * Properties *)

(** ** Which exceptions the decimal operations raise *)

Lemma fix_raises (d : Decimal) (e : exn) : fix_ d = Raise e -> e = Overflow.
Proof.
  unfold fix_. intros H.
  repeat match type of H with
         | (if ?c then _ else _) = _ => destruct c
         | (let '(_, _) := ?p in _) = _ => destruct p
         end; congruence.
Qed.

Lemma add_raises (a b : Decimal) (e : exn) : add a b = Raise e -> e = Overflow.
Proof. apply fix_raises. Qed.

Lemma sub_raises (a b : Decimal) (e : exn) : sub a b = Raise e -> e = Overflow.
Proof. apply add_raises. Qed.

Lemma abs_raises (a : Decimal) (e : exn) : Dec.abs a = Raise e -> e = Overflow.
Proof. apply fix_raises. Qed.

Lemma quantize_raises (d : Decimal) (k : Z) (m : rounding) (e : exn) :
  quantize d k m = Raise e -> e = Overflow \/ e = InvalidOperation.
Proof.
  unfold quantize. intros H.
  repeat match type of H with
         | (if ?c then _ else _) = _ => destruct c
         end;
    try (right; congruence); left; eapply fix_raises; eassumption.
Qed.

Lemma eqb_zero (d : Decimal) :
  Dec.eqb d (of_Z 0) = N.eqb (dint d) 0.
Proof.
  unfold Dec.eqb, Dec.compare, of_Z, of_signed, sval. cbn [Z.eqb dexp dsign dint].
  set (k := dexp d - Z.min (dexp d) 0).
  assert (Hk : 0 < 10 ^ k) by (apply Z.pow_pos_nonneg; unfold k; lia).
  rewrite Z.mul_0_l.
  destruct (dint d) as [|p].
  - destruct (dsign d); reflexivity.
  - cbn [N.eqb].
    destruct (dsign d).
    + assert (- Z.of_N (N.pos p) * 10 ^ k < 0)
        by (apply Z.mul_neg_pos; [cbn; lia | exact Hk]).
      destruct (Z.compare_spec (- Z.of_N (N.pos p) * 10 ^ k) 0); try lia; reflexivity.
    + assert (0 < Z.of_N (N.pos p) * 10 ^ k)
        by (apply Z.mul_pos_pos; [cbn; lia | exact Hk]).
      destruct (Z.compare_spec (Z.of_N (N.pos p) * 10 ^ k) 0); try lia; reflexivity.
Qed.

Lemma div_nonzero_raises (a b : Decimal) (e : exn) :
  dint b <> 0%N -> div a b = Raise e -> e = Overflow.
Proof.
  intros Hb. unfold div.
  destruct (Z.eqb_spec (Z.of_N (dint b)) 0) as [E|_]; [lia|].
  intros H.
  repeat match type of H with
         | (if ?c then _ else _) = _ => destruct c
         | (let '(_, _) := ?p in _) = _ => destruct p
         end; eapply fix_raises; eassumption.
Qed.

(** ** The validator's VAT check *)

(** The VAT check fires for any zero amount, whatever its sign and
    exponent: [not Decimal("0.00")] is true. *)
Lemma vat_check_fires_on_zero (s : bool) (e : Z) (bad : Decimal -> bool) :
  missing_or (Some (mkDecimal s 0 e)) bad = true.
Proof. reflexivity. Qed.

(** C1. The spec allows a zero VAT amount in check 2. On the record the
    manual-entry flow builds for base 1000000.0 and total 1000000.0 (VAT
    derived as their difference, 0.0), [validate_invoice] reports the VAT
    message and nothing else: zero is rejected by the truth-value test. *)
Theorem validate_invoice_rejects_zero_vat :
  validate_invoice
    (mkInvoiceData (Some (mkDecimal false 10000000 (-1))) None
       (Some (mkDecimal false 0 (-1))) (Some (mkDecimal false 10000000 (-1)))
       EmptyString)
  = Return (false, [vat_amount_error]).
Proof. vm_compute. reflexivity. Qed.

(** ** The zero-base guard of [verify_vat_rate] *)

(** C10, counterexample. [verify_vat_rate] is not total: the quotient
    1E+24 cannot be quantised to four places within 28 digits. *)
Lemma verify_vat_rate_not_total :
  TaxCalculator.verify_vat_rate (mkDecimal false 1 24) (mkDecimal false 1 0)
  = Raise InvalidOperation.
Proof. vm_compute. reflexivity. Qed.

(** C10, as amended. For every VAT amount and every zero base amount
    (any sign, any exponent) [verify_vat_rate] returns (0, False); and on
    no pair of decimals does it raise a division-by-zero error, of either
    kind (x / 0 or 0 / 0). *)
Theorem verify_vat_rate_division_guarded :
  (forall (vat : Decimal) (s : bool) (e : Z),
      TaxCalculator.verify_vat_rate vat (mkDecimal s 0 e)
      = Return (mkDecimal false 0 0, false))
  /\ (forall vat base : Decimal,
         TaxCalculator.verify_vat_rate vat base <> Raise DivisionByZero
         /\ TaxCalculator.verify_vat_rate vat base <> Raise DivisionUndefined).
Proof.
  split.
  - intros vat s e. unfold TaxCalculator.verify_vat_rate.
    rewrite eqb_zero. reflexivity.
  - intros vat base.
    assert (H : forall x, TaxCalculator.verify_vat_rate vat base = Raise x ->
                          x = Overflow \/ x = InvalidOperation).
    { intros x. unfold TaxCalculator.verify_vat_rate.
      rewrite eqb_zero.
      destruct (N.eqb_spec (dint base) 0) as [|Hb]; [discriminate|].
      destruct (div vat base) as [q|x1] eqn:Hq; cbn [bind].
      2:{ intros [= <-]. left. eapply div_nonzero_raises; eassumption. }
      destruct (quantize q (-4) ROUND_HALF_UP) as [r|x2] eqn:Hr; cbn [bind].
      2:{ intros [= <-]. eapply quantize_raises; eassumption. }
      destruct (sub r TaxCalculator.VAT_RATE_STANDARD) as [d|x3] eqn:Hd; cbn [bind].
      2:{ intros [= <-]. left. eapply sub_raises; eassumption. }
      destruct (Dec.abs d) as [a|x4] eqn:Ha; cbn [bind].
      2:{ intros [= <-]. left. eapply abs_raises; eassumption. }
      discriminate. }
    split; intros E; destruct (H _ E); discriminate.
Qed.

(** ** The amount scan *)

Lemma fold_append_amount (groups : list string) (acc : list Decimal) :
  fold_left append_amount groups acc = acc ++ converted groups.
Proof.
  revert acc. induction groups as [|g groups IH]; intros acc; cbn.
  - now rewrite app_nil_r.
  - rewrite IH. unfold append_amount.
    destruct (of_string (Re.remove_commas g)); cbn.
    + now rewrite <- app_assoc.
    + reflexivity.
Qed.

Lemma extract_amounts_eq (raw_text : string) :
  extract_amounts raw_text
  = converted (Re.finditer Re.marker_amount raw_text)
      ++ converted (Re.finditer Re.amount_marker raw_text).
Proof.
  unfold extract_amounts, amount_patterns. cbn [fold_left].
  now rewrite !fold_append_amount.
Qed.

Lemma in_converted (groups : list string) (d : Decimal) :
  In d (converted groups) <->
  exists g, In g groups /\ of_string (Re.remove_commas g) = Return d.
Proof.
  unfold converted. rewrite in_flat_map. split.
  - intros (g & Hg & Hd). exists g. split; [assumption|].
    destruct (of_string (Re.remove_commas g)); cbn in Hd.
    + destruct Hd as [->|[]]. reflexivity.
    + contradiction.
  - intros (g & Hg & Hd). exists g. split; [assumption|].
    rewrite Hd. now left.
Qed.

Section ScanFacts.
Context {G : Type} (m : string -> option (G * string)).

Lemma finditer_pos_groups (pos skip : nat) (s : string) :
  map snd (Re.finditer_pos_from m pos skip s) = Re.finditer_from m skip s.
Proof.
  revert pos skip. induction s as [|c s IH]; intros pos skip; cbn.
  - reflexivity.
  - destruct skip as [|k]; [|apply IH].
    destruct (m (String c s)) as [[g rest]|]; cbn; now rewrite IH.
Qed.

Lemma finditer_pos_lower (pos skip : nat) (s : string) (x : nat * G) :
  In x (Re.finditer_pos_from m pos skip s) -> (pos <= fst x)%nat.
Proof.
  revert pos skip. induction s as [|c s IH]; intros pos skip; cbn.
  - contradiction.
  - destruct skip as [|k].
    + destruct (m (String c s)) as [[g rest]|].
      * intros [<-|H]; [cbn; lia|]. apply IH in H. lia.
      * intros H. apply IH in H. lia.
    + intros H. apply IH in H. lia.
Qed.

(** Within one pattern the matches are met strictly left to right. *)
Lemma finditer_pos_increasing (pos skip : nat) (s : string) :
  StronglySorted Nat.lt (map fst (Re.finditer_pos_from m pos skip s)).
Proof.
  revert pos skip. induction s as [|c s IH]; intros pos skip; cbn.
  - constructor.
  - destruct skip as [|k]; [|apply IH].
    destruct (m (String c s)) as [[g rest]|]; [|apply IH].
    cbn. constructor; [apply IH|].
    apply Forall_forall. intros p Hp.
    apply in_map_iff in Hp. destruct Hp as (x & <- & Hx).
    apply finditer_pos_lower in Hx. unfold Nat.lt. lia.
Qed.

(** Every group of the iteration is the group of a match of [m]. *)
Lemma finditer_matched (skip : nat) (s : string) (g : G) :
  In g (Re.finditer_from m skip s) ->
  exists s' rest, m s' = Some (g, rest).
Proof.
  revert skip. induction s as [|c s IH]; intros skip; cbn.
  - contradiction.
  - destruct skip as [|k]; [|apply IH].
    destruct (m (String c s)) as [[g0 rest]|] eqn:E; [|apply IH].
    intros [<-|H]; [eauto|]. eapply IH; eassumption.
Qed.

Lemma search_matched (s : string) (g : G) :
  Re.search m s = Some g -> exists s' rest, m s' = Some (g, rest).
Proof.
  induction s as [|c s IH]; cbn.
  - destruct (m EmptyString) as [[g0 rest]|] eqn:E; [|discriminate].
    intros [= <-]. eauto.
  - destruct (m (String c s)) as [[g0 rest]|] eqn:E; [|exact IH].
    intros [= <-]. eauto.
Qed.
End ScanFacts.

(** C9. For every text the amount scan is a total function of the text
    (no conversion error escapes it) and what it collects is exactly the
    convertible tokens: each token matched by either amount pattern whose
    comma-stripped string converts contributes its decimal, whatever other
    tokens fail to convert, and nothing else is collected. *)
Theorem amount_scan_skips_malformed_tokens (raw_text : string) :
  (forall (pattern : string -> option (string * string)) (g : string)
          (d : Decimal),
      In pattern amount_patterns ->
      In g (Re.finditer pattern raw_text) ->
      of_string (Re.remove_commas g) = Return d ->
      In d (extract_amounts raw_text))
  /\ (forall d : Decimal,
         In d (extract_amounts raw_text) ->
         exists pattern g,
           In pattern amount_patterns
           /\ In g (Re.finditer pattern raw_text)
           /\ of_string (Re.remove_commas g) = Return d).
Proof.
  rewrite extract_amounts_eq. split.
  - intros pattern g d Hp Hg Hd. apply in_or_app.
    destruct Hp as [<-|[<-|[]]]; [left|right];
      apply in_converted; exists g; auto.
  - intros d Hd. apply in_app_or in Hd.
    destruct Hd as [Hd|Hd]; apply in_converted in Hd;
      destruct Hd as (g & Hg & Hd).
    + exists Re.marker_amount, g. cbn. auto.
    + exists Re.amount_marker, g. cbn. auto.
Qed.

(** Witness for C9: in "TZS , TZS 5" the token "," does not convert and
    the token "5" is collected all the same. *)
Lemma amount_scan_skips_malformed_tokens_witness :
  of_string (Re.remove_commas ",") = Raise ConversionSyntax
  /\ In ","%string (Re.finditer Re.marker_amount "TZS , TZS 5")
  /\ In (mkDecimal false 5 0) (extract_amounts "TZS , TZS 5").
Proof.
  split; [reflexivity|]. split; [vm_compute; auto|].
  apply (proj1 (amount_scan_skips_malformed_tokens "TZS , TZS 5")
           Re.marker_amount "5"%string (mkDecimal false 5 0)).
  - cbn. auto.
  - vm_compute. auto.
  - reflexivity.
Defined.

(** C4, counterexample. In "100 TZS and TZS 200" the amount 200 is
    collected before the amount 100, which stands first in the text. *)
Lemma amounts_not_in_text_order :
  extract_amounts "100 TZS and TZS 200"
  = [mkDecimal false 200 0; mkDecimal false 100 0]
  /\ ~ in_text_order "100 TZS and TZS 200".
Proof.
  split; [vm_compute; reflexivity|].
  unfold in_text_order.
  replace (map fst (amount_matches "100 TZS and TZS 200")) with [12%nat; 0%nat]
    by (vm_compute; reflexivity).
  intros H. inversion H as [|a l Hs Hh]; subst.
  inversion Hh as [|b l' Hle]; subst. lia.
Qed.

(** C4, as amended. The amount list holds first the convertible matches of
    the marker-before-amount pattern, then those of the
    amount-before-marker pattern; within each pattern the matches are taken
    strictly left to right, and every convertible match is kept (no
    deduplication: the list is as long as the convertible matches are
    many). *)
Theorem amounts_in_pattern_then_text_order (raw_text : string) :
  extract_amounts raw_text
  = converted (map snd (Re.finditer_pos Re.marker_amount raw_text))
      ++ converted (map snd (Re.finditer_pos Re.amount_marker raw_text))
  /\ StronglySorted Nat.lt
       (map fst (Re.finditer_pos Re.marker_amount raw_text))
  /\ StronglySorted Nat.lt
       (map fst (Re.finditer_pos Re.amount_marker raw_text))
  /\ List.length (extract_amounts raw_text)
     = List.length (converted (map snd (amount_matches raw_text))).
Proof.
  unfold Re.finditer_pos. rewrite !finditer_pos_groups.
  split; [apply extract_amounts_eq|].
  split; [apply finditer_pos_increasing|].
  split; [apply finditer_pos_increasing|].
  rewrite extract_amounts_eq.
  unfold amount_matches, amount_patterns, Re.finditer_pos. cbn [flat_map].
  rewrite app_nil_r, map_app, !finditer_pos_groups.
  unfold converted. now rewrite flat_map_app.
Qed.

(** ** Shape of the scanned tokens *)

Lemma take_while_spec (p : ascii -> bool) (s : string) :
  all_chars p (fst (Re.take_while p s)) = true
  /\ s = (fst (Re.take_while p s) ++ snd (Re.take_while p s))%string.
Proof.
  induction s as [|c s [IH1 IH2]]; cbn; [auto|].
  destruct (p c) eqn:E; cbn; [|auto].
  destruct (Re.take_while p s) as [run rest]. cbn in *.
  rewrite E, IH1. split; [reflexivity|]. now rewrite <- IH2.
Qed.

Lemma remove_commas_app (a b : string) :
  Re.remove_commas (a ++ b) = (Re.remove_commas a ++ Re.remove_commas b)%string.
Proof.
  induction a as [|c a IH]; cbn; [reflexivity|].
  destruct (Ascii.eqb c ","); cbn; now rewrite IH.
Qed.

Lemma remove_commas_run (run : string) :
  all_chars Re.is_amount_char run = true ->
  all_chars is_digit (Re.remove_commas run) = true.
Proof.
  induction run as [|c run IH]; cbn; [reflexivity|].
  intros H. apply andb_true_iff in H. destruct H as [Hc Hr].
  unfold Re.is_amount_char in Hc.
  destruct (Ascii.eqb c ","); [auto|].
  rewrite orb_false_r in Hc. cbn. rewrite Hc. auto.
Qed.

Lemma remove_commas_digits (ds : string) :
  all_chars is_digit ds = true -> Re.remove_commas ds = ds.
Proof.
  induction ds as [|c ds IH]; cbn; [reflexivity|].
  intros H. apply andb_true_iff in H. destruct H as [Hc Hr].
  destruct (Ascii.eqb_spec c ",") as [->|_]; [discriminate Hc|].
  now rewrite IH.
Qed.

Lemma take_digits_all (ds : string) :
  all_chars is_digit ds = true -> take_digits ds = (ds, EmptyString).
Proof.
  induction ds as [|c ds IH]; cbn; [reflexivity|].
  intros H. apply andb_true_iff in H. destruct H as [Hc Hr].
  now rewrite Hc, IH.
Qed.

Lemma take_digits_point (ds rest : string) :
  all_chars is_digit ds = true ->
  take_digits (ds ++ String "." rest) = (ds, String "." rest).
Proof.
  induction ds as [|c ds IH]; cbn; [reflexivity|].
  intros H. apply andb_true_iff in H. destruct H as [Hc Hr].
  now rewrite Hc, IH.
Qed.

Lemma of_string_digits (ds : string) (d : Decimal) :
  all_chars is_digit ds = true ->
  of_string ds = Return d -> written_amount d.
Proof.
  intros Hds. unfold of_string. rewrite take_digits_all by assumption.
  destruct ds; [discriminate|]. intros [= <-]. split; cbn; auto.
Qed.

Lemma of_string_digits_fraction (ds : string) (d1 d2 : ascii) (d : Decimal) :
  all_chars is_digit ds = true ->
  is_digit d1 = true -> is_digit d2 = true ->
  of_string (ds ++ String "." (String d1 (String d2 EmptyString))) = Return d ->
  written_amount d.
Proof.
  intros Hds H1 H2. unfold of_string. rewrite take_digits_point by assumption.
  cbn [take_digits]. rewrite H1, H2.
  destruct (ds ++ String d1 (String d2 EmptyString))%string; [discriminate|].
  intros [= <-]. split; cbn; auto.
Qed.

Lemma remove_commas_fraction (d1 d2 : ascii) :
  is_digit d1 = true -> is_digit d2 = true ->
  Re.remove_commas (String "." (String d1 (String d2 EmptyString)))
  = String "." (String d1 (String d2 EmptyString)).
Proof.
  intros E1 E2. cbn.
  destruct (Ascii.eqb_spec d1 ",") as [->|_]; [discriminate E1|].
  destruct (Ascii.eqb_spec d2 ",") as [->|_]; [discriminate E2|].
  reflexivity.
Qed.

(** The group of [([0-9,]+(?:\.\d{2})?)], once its commas are removed,
    converts to a written amount or not at all. *)
Lemma number_written (s g rest : string) (d : Decimal) :
  Re.number s = Some (g, rest) ->
  of_string (Re.remove_commas g) = Return d ->
  written_amount d.
Proof.
  unfold Re.number.
  pose proof (take_while_spec Re.is_amount_char s) as [Hrun _].
  destruct (Re.take_while Re.is_amount_char s) as [run r]. cbn in Hrun.
  apply remove_commas_run in Hrun.
  assert (Hplain : Some (run, r) = Some (g, rest) ->
                   of_string (Re.remove_commas g) = Return d ->
                   written_amount d).
  { intros [= <- <-]. now apply of_string_digits. }
  destruct run as [|c0 run0] eqn:Erun; [discriminate|].
  rewrite <- Erun in *. clear Erun c0 run0.
  destruct r as [|c1 [|d1 [|d2 r']]]; try exact Hplain.
  - destruct c1 as [[] [] [] [] [] [] [] []]; exact Hplain.
  - destruct c1 as [[] [] [] [] [] [] [] []]; exact Hplain.
  - destruct (Ascii.eqb_spec c1 ".") as [->|Hne].
    2:{ destruct c1 as [[] [] [] [] [] [] [] []]; try exact Hplain.
        now contradiction Hne. }
    destruct (is_digit d1 && is_digit d2)%bool eqn:E; [|exact Hplain].
    apply andb_true_iff in E. destruct E as [E1 E2].
    intros [= <- <-]. rewrite remove_commas_app.
    rewrite remove_commas_fraction by assumption.
    now apply of_string_digits_fraction.
Qed.

Lemma marker_amount_written (s g rest : string) (d : Decimal) :
  Re.marker_amount s = Some (g, rest) ->
  of_string (Re.remove_commas g) = Return d -> written_amount d.
Proof.
  unfold Re.marker_amount. destruct (Re.marker s); [|discriminate].
  apply number_written.
Qed.

Lemma amount_marker_written (s g rest : string) (d : Decimal) :
  Re.amount_marker s = Some (g, rest) ->
  of_string (Re.remove_commas g) = Return d -> written_amount d.
Proof.
  unfold Re.amount_marker.
  destruct (Re.number s) as [[g0 r]|] eqn:E; [|discriminate].
  destruct (Re.marker (Re.skip Re.is_space r)); [|discriminate].
  intros [= <- <-]. eapply number_written; eassumption.
Qed.

Lemma vat_rate_amount_written (s g1 g2 rest : string) (d : Decimal) :
  Re.vat_rate_amount s = Some ((g1, g2), rest) ->
  of_string (Re.remove_commas g2) = Return d -> written_amount d.
Proof.
  unfold Re.vat_rate_amount.
  destruct (Re.literal "vat" s) as [r|]; [|discriminate].
  match goal with
  | |- match Re.take_while is_digit ?x with _ => _ end = _ -> _ =>
      destruct (Re.take_while is_digit x) as [run r1]
  end.
  destruct run as [|c0 run0]; [discriminate|].
  destruct r1 as [|c1 r1]; [discriminate|].
  destruct c1 as [[] [] [] [] [] [] [] []]; try discriminate.
  match goal with
  | |- match Re.number ?x with _ => _ end = _ -> _ =>
      destruct (Re.number x) as [[g r2]|] eqn:E; [|discriminate]
  end.
  intros [= <- <- <-]. eapply number_written; eassumption.
Qed.

Lemma amount_vat_written (s g rest : string) (d : Decimal) :
  Re.amount_vat s = Some (g, rest) ->
  of_string (Re.remove_commas g) = Return d -> written_amount d.
Proof.
  unfold Re.amount_vat.
  destruct (Re.number (Re.skip Re.is_space (Re.opt_marker s)))
    as [[g0 r]|] eqn:E; [|discriminate].
  destruct (Re.literal "vat" (Re.skip Re.is_space r)); [|discriminate].
  intros [= <- <-]. eapply number_written; eassumption.
Qed.

(** Every collected amount is a written amount. *)
Lemma extract_amounts_written (raw_text : string) (d : Decimal) :
  In d (extract_amounts raw_text) -> written_amount d.
Proof.
  rewrite extract_amounts_eq. intros H. apply in_app_or in H.
  destruct H as [H|H]; apply in_converted in H; destruct H as (g & Hg & Hd);
    apply finditer_matched in Hg; destruct Hg as (s' & rest & Hm).
  - eapply marker_amount_written; eassumption.
  - eapply amount_marker_written; eassumption.
Qed.

(** ** The steps of [parse_invoice] *)

Lemma bind_return {A B : Type} (m : result A) (k : A -> result B) (b : B) :
  bind m k = Return b -> exists a, m = Return a /\ k a = Return b.
Proof. destruct m as [a|e]; cbn; [eauto|discriminate]. Qed.

(** What the VAT clause leaves in the record. *)
Lemma extract_vat_fields (raw_text : string) (inv0 inv1 : InvoiceData) :
  extract_vat raw_text inv0 = Return inv1 ->
  base_rent_tzs inv1 = base_rent_tzs inv0
  /\ total_amount_tzs inv1 = total_amount_tzs inv0
  /\ (vat_amount_tzs inv1 = vat_amount_tzs inv0
      \/ exists v, vat_amount_tzs inv1 = Some v /\ written_amount v).
Proof.
  unfold extract_vat.
  destruct (Re.search Re.vat_rate_amount raw_text) as [[g1 g2]|] eqn:E1.
  - intros H.
    apply bind_return in H. destruct H as (n & _ & H).
    apply bind_return in H. destruct H as (rate & _ & H).
    apply bind_return in H. destruct H as (v & Hv & H).
    injection H as <-. cbn. repeat split; try reflexivity.
    right. exists v. split; [reflexivity|].
    apply search_matched in E1. destruct E1 as (s' & rest & Hm).
    eapply vat_rate_amount_written; eassumption.
  - destruct (Re.search Re.amount_vat raw_text) as [g1|] eqn:E2.
    + intros H. apply bind_return in H. destruct H as (v & Hv & H).
      injection H as <-. cbn. repeat split; try reflexivity.
      right. exists v. split; [reflexivity|].
      apply search_matched in E2. destruct E2 as (s' & rest & Hm).
      eapply amount_vat_written; eassumption.
    + intros [= <-]. auto.
Qed.

Lemma item_from_end_1 {A : Type} (front : list A) (a : A) :
  item_from_end (front ++ [a]) 1 = Return a.
Proof.
  unfold item_from_end. rewrite length_app. cbn [List.length].
  replace (Nat.leb 1 (List.length front + 1)) with true
    by (symmetry; apply Nat.leb_le; lia).
  cbn [andb Nat.leb].
  replace (List.length front + 1 - 1)%nat with (List.length front) by lia.
  now rewrite nth_error_app2, Nat.sub_diag by lia.
Qed.

Lemma item_from_end_2 {A : Type} (front : list A) (a b : A) :
  item_from_end (front ++ [a; b]) 2 = Return a.
Proof.
  unfold item_from_end. rewrite length_app. cbn [List.length].
  replace (Nat.leb 2 (List.length front + 2)) with true
    by (symmetry; apply Nat.leb_le; lia).
  cbn [andb Nat.leb].
  replace (List.length front + 2 - 2)%nat with (List.length front) by lia.
  now rewrite nth_error_app2, Nat.sub_diag by lia.
Qed.

Lemma two_last {A : Type} (l : list A) :
  (2 <= List.length l)%nat -> exists front a b, l = front ++ [a; b].
Proof.
  intros H.
  destruct (exists_last (l := l)) as (l1 & b & ->);
    [intros ->; cbn in H; lia|].
  rewrite length_app in H. cbn in H.
  destruct (exists_last (l := l1)) as (front & a & ->);
    [intros ->; cbn in H; lia|].
  exists front, a, b. now rewrite <- app_assoc.
Qed.

(** The block on a list of at least two amounts, [front ++ [v; t]]. *)
Lemma identify_amounts_two (front : list Decimal) (v t : Decimal)
    (inv1 : InvoiceData) :
  identify_amounts (front ++ [v; t]) inv1
  = derive_base_rent
      (match vat_amount_tzs inv1, front with
       | None, _ :: _ => set_vat_amount_tzs (set_total_amount_tzs inv1 t) v
       | _, _ => set_total_amount_tzs inv1 t
       end).
Proof.
  unfold identify_amounts.
  replace (front ++ [v; t]) with ((front ++ [v]) ++ [t])
    by (now rewrite <- app_assoc).
  rewrite item_from_end_1.
  replace ((front ++ [v]) ++ [t]) with (front ++ [v; t])
    by (now rewrite <- app_assoc).
  rewrite item_from_end_2.
  rewrite length_app. cbn [List.length].
  replace (Nat.leb 2 (List.length front + 2)) with true
    by (symmetry; apply Nat.leb_le; lia).
  cbn [bind].
  destruct (vat_amount_tzs inv1) as [v1|] eqn:Ev; cbn [vat_amount_tzs set_total_amount_tzs].
  - rewrite Ev. cbn [bind]. destruct front; reflexivity.
  - rewrite Ev. destruct front as [|x front]; [reflexivity|].
    replace (Nat.leb 3 (List.length (x :: front) + 2)) with true
      by (symmetry; apply Nat.leb_le; cbn [List.length]; lia).
    reflexivity.
Qed.

Lemma identify_amounts_short (amounts : list Decimal) (inv1 : InvoiceData) :
  (List.length amounts < 2)%nat -> identify_amounts amounts inv1 = Return inv1.
Proof.
  intros H. unfold identify_amounts.
  replace (Nat.leb 2 (List.length amounts)) with false
    by (symmetry; apply Nat.leb_gt; lia).
  reflexivity.
Qed.

Lemma derive_base_rent_fields (inv2 inv : InvoiceData) :
  derive_base_rent inv2 = Return inv ->
  total_amount_tzs inv = total_amount_tzs inv2
  /\ vat_amount_tzs inv = vat_amount_tzs inv2
  /\ (base_rent_tzs inv = base_rent_tzs inv2
      \/ exists t v b,
           total_amount_tzs inv2 = Some t /\ vat_amount_tzs inv2 = Some v
           /\ sub t v = Return b /\ base_rent_tzs inv = Some b).
Proof.
  unfold derive_base_rent.
  destruct (total_amount_tzs inv2) as [t|] eqn:Et;
    [|intros [= <-]; auto].
  destruct (vat_amount_tzs inv2) as [v|] eqn:Ev;
    [|intros [= <-]; auto].
  destruct (truthy t && truthy v)%bool; [|intros [= <-]; auto].
  intros H. apply bind_return in H. destruct H as (b & Hb & H).
  injection H as <-. cbn. rewrite Et, Ev. repeat split; try reflexivity.
  right. exists t, v, b. auto.
Qed.

Lemma parse_invoice_steps (raw_text : string) (inv : InvoiceData) :
  parse_invoice raw_text = Return inv ->
  exists inv1,
    extract_vat raw_text (set_raw_text new_InvoiceData raw_text) = Return inv1
    /\ identify_amounts (extract_amounts raw_text) inv1 = Return inv.
Proof. unfold parse_invoice. apply bind_return. Qed.

(** C3. Positional inference. For every text from which [parse_invoice]
    produces a record and whose amount scan yields at least two amounts,
    the last amount of the list is the record's total; and if the VAT
    clause left the VAT amount unset and there are at least three amounts,
    the second-to-last amount is the record's VAT amount. *)
Theorem positional_inference (raw_text : string) (inv : InvoiceData) :
  parse_invoice raw_text = Return inv ->
  (2 <= List.length (extract_amounts raw_text))%nat ->
  (exists front t,
      extract_amounts raw_text = front ++ [t]
      /\ total_amount_tzs inv = Some t)
  /\ (forall inv1,
         extract_vat raw_text (set_raw_text new_InvoiceData raw_text)
         = Return inv1 ->
         vat_amount_tzs inv1 = None ->
         (3 <= List.length (extract_amounts raw_text))%nat ->
         exists front v t,
           extract_amounts raw_text = front ++ [v; t]
           /\ vat_amount_tzs inv = Some v).
Proof.
  intros Hp Hlen.
  apply parse_invoice_steps in Hp. destruct Hp as (inv1 & H1 & H2).
  destruct (two_last _ Hlen) as (front & v & t & Ea).
  rewrite Ea in *. rewrite identify_amounts_two in H2.
  apply derive_base_rent_fields in H2. destruct H2 as (Ht & Hv & _).
  split.
  - exists (front ++ [v]), t. split; [now rewrite <- app_assoc|].
    rewrite Ht. destruct (vat_amount_tzs inv1), front; reflexivity.
  - intros inv1' H1' Hnone Hlen3. rewrite H1 in H1'. injection H1' as <-.
    exists front, v, t. split; [reflexivity|].
    rewrite Hv, Hnone.
    destruct front; [rewrite length_app in Hlen3; cbn in Hlen3; lia|].
    reflexivity.
Qed.

(** Witness for C3: three amounts and no VAT clause. *)
Lemma positional_inference_witness :
  (exists front t,
      extract_amounts "TZS 5,000,000.00; TZS 900,000.00; TZS 5,900,000.00"
      = front ++ [t]
      /\ Some (mkDecimal false 590000000 (-2)) = Some t)
  /\ (exists front v t,
         extract_amounts "TZS 5,000,000.00; TZS 900,000.00; TZS 5,900,000.00"
         = front ++ [v; t]
         /\ Some (mkDecimal false 90000000 (-2)) = Some v).
Proof.
  pose proof
    (positional_inference
       "TZS 5,000,000.00; TZS 900,000.00; TZS 5,900,000.00"
       (mkInvoiceData (Some (mkDecimal false 500000000 (-2))) None
          (Some (mkDecimal false 90000000 (-2)))
          (Some (mkDecimal false 590000000 (-2)))
          "TZS 5,000,000.00; TZS 900,000.00; TZS 5,900,000.00")
       eq_refl) as H.
  destruct H as [Ht Hv]; [vm_compute; lia|].
  split; [exact Ht|].
  apply (Hv (set_raw_text new_InvoiceData
               "TZS 5,000,000.00; TZS 900,000.00; TZS 5,900,000.00")).
  - reflexivity.
  - reflexivity.
  - vm_compute. lia.
Defined.

(** ** Derivation of the base rent *)

(** The derivation as the code performs it: when the record's total and
    VAT amount are both non-zero, the base rent is their difference. *)
Lemma base_rent_derived_when_nonzero (raw_text : string) (inv : InvoiceData)
    (t v : Decimal) :
  parse_invoice raw_text = Return inv ->
  total_amount_tzs inv = Some t -> vat_amount_tzs inv = Some v ->
  dint t <> 0%N -> dint v <> 0%N ->
  exists b, sub t v = Return b /\ base_rent_tzs inv = Some b.
Proof.
  intros Hp Ht Hv Ht0 Hv0.
  apply parse_invoice_steps in Hp. destruct Hp as (inv1 & H1 & H2).
  apply extract_vat_fields in H1. destruct H1 as (_ & Htot1 & _).
  cbn in Htot1.
  destruct (Nat.lt_ge_cases (List.length (extract_amounts raw_text)) 2)
    as [Hs|Hl].
  - rewrite identify_amounts_short in H2 by assumption.
    injection H2 as <-. congruence.
  - destruct (two_last _ Hl) as (front & v0 & t0 & Ea).
    rewrite Ea, identify_amounts_two in H2.
    unfold derive_base_rent in H2.
    match type of H2 with
    | match total_amount_tzs ?i with _ => _ end = _ => set (inv2 := i) in *
    end.
    destruct (total_amount_tzs inv2) as [t2|] eqn:Et2;
      [|injection H2 as <-; congruence].
    destruct (vat_amount_tzs inv2) as [v2|] eqn:Ev2;
      [|injection H2 as <-; congruence].
    destruct (truthy t2 && truthy v2)%bool eqn:Etr.
    + apply bind_return in H2. destruct H2 as (b & Hb & H2).
      injection H2 as <-. cbn in Ht, Hv.
      exists b. split; [congruence|reflexivity].
    + injection H2 as <-.
      assert (t2 = t) by congruence. assert (v2 = v) by congruence. subst.
      unfold truthy in Etr.
      destruct (N.eqb_spec (dint t) 0); [contradiction|].
      destruct (N.eqb_spec (dint v) 0); [contradiction|].
      discriminate.
Qed.

(** The spec's instance: total 5,900,000.00 and VAT 900,000.00 give the
    base rent 5,000,000.00. *)
Example base_rent_derived_example :
  parse_invoice "TZS 5,000,000.00; TZS 900,000.00; TZS 5,900,000.00"
  = Return
      (mkInvoiceData (Some (mkDecimal false 500000000 (-2))) None
         (Some (mkDecimal false 90000000 (-2)))
         (Some (mkDecimal false 590000000 (-2)))
         "TZS 5,000,000.00; TZS 900,000.00; TZS 5,900,000.00").
Proof. vm_compute. reflexivity. Qed.

(** C5. The derivation rule asks for base_rent = total - VAT whenever both
    are known. On a text whose amounts are 1,000,000.00, 0.00 and
    1,000,000.00 the record has total 1,000,000.00 and VAT 0.00 and yet no
    base rent: the truth-value test on the amounts takes the zero VAT for a
    missing one. *)
Theorem base_rent_not_derived_for_zero_vat :
  parse_invoice "Rent TZS 1,000,000.00; Tax TZS 0.00; Total TZS 1,000,000.00"
  = Return
      (mkInvoiceData None None
         (Some (mkDecimal false 0 (-2)))
         (Some (mkDecimal false 100000000 (-2)))
         "Rent TZS 1,000,000.00; Tax TZS 0.00; Total TZS 1,000,000.00").
Proof. vm_compute. reflexivity. Qed.

(** ** The monetary fields of a parsed record *)

(** C7, counterexample. The amounts 1, 5 and 2 give the total 2, the VAT
    amount 5 and the base rent -3: negative, and with no fractional
    digit. *)
Lemma parsed_base_rent_negative :
  parse_invoice "TZS 1; TZS 5; TZS 2"
  = Return
      (mkInvoiceData (Some (mkDecimal true 3 0)) None
         (Some (mkDecimal false 5 0)) (Some (mkDecimal false 2 0))
         "TZS 1; TZS 5; TZS 2")
  /\ ~ two_decimal_amount (Some (mkDecimal true 3 0))
  /\ ~ two_decimal_amount (Some (mkDecimal false 2 0)).
Proof.
  split; [vm_compute; reflexivity|].
  split; intros H; destruct (H _ eq_refl) as [H1 H2]; cbn in *; lia.
Qed.

(** C7, as amended. In every record [parse_invoice] produces, the total
    and the VAT amount, when present, are non-negative decimals with no or
    with exactly two fractional digits, as the text writes them; the base
    rent, when present, is the decimal difference total - VAT amount (it
    can be negative). *)
Theorem parsed_monetary_fields (raw_text : string) (inv : InvoiceData) :
  parse_invoice raw_text = Return inv ->
  (forall t, total_amount_tzs inv = Some t -> written_amount t)
  /\ (forall v, vat_amount_tzs inv = Some v -> written_amount v)
  /\ (forall b, base_rent_tzs inv = Some b ->
        exists t v,
          total_amount_tzs inv = Some t /\ vat_amount_tzs inv = Some v
          /\ sub t v = Return b).
Proof.
  intros Hp.
  apply parse_invoice_steps in Hp. destruct Hp as (inv1 & H1 & H2).
  apply extract_vat_fields in H1. cbn in H1.
  destruct H1 as (Hb1 & Ht1 & Hv1).
  destruct (Nat.lt_ge_cases (List.length (extract_amounts raw_text)) 2)
    as [Hs|Hl].
  - rewrite identify_amounts_short in H2 by assumption. injection H2 as <-.
    rewrite Hb1, Ht1. split; [discriminate|]. split; [|discriminate].
    intros v Hv. destruct Hv1 as [Hv1|(v1 & Hv1 & Hw)]; congruence.
  - destruct (two_last _ Hl) as (front & v0 & t0 & Ea).
    assert (Hin : forall d, In d (front ++ [v0; t0]) -> written_amount d).
    { intros d Hd. rewrite <- Ea in Hd.
      eapply extract_amounts_written; eassumption. }
    rewrite Ea, identify_amounts_two in H2.
    apply derive_base_rent_fields in H2. destruct H2 as (Ht & Hv & Hb).
    assert (Wt : forall t, total_amount_tzs inv = Some t -> written_amount t).
    { intros t. rewrite Ht.
      assert (Some t0 = Some t -> written_amount t).
      { intros [= <-]. apply Hin, in_or_app. right. cbn. auto. }
      destruct (vat_amount_tzs inv1), front; exact H. }
    assert (Wv : forall v, vat_amount_tzs inv = Some v -> written_amount v).
    { intros v. rewrite Hv.
      destruct (vat_amount_tzs inv1) as [v1|] eqn:Ev1.
      - cbn. rewrite Ev1.
        destruct Hv1 as [Hv1|(v2 & Hv2 & Hw)]; [discriminate|].
        intros [= <-]. congruence.
      - destruct front; cbn; [rewrite Ev1; discriminate|].
        intros [= <-]. apply Hin, in_or_app. right. cbn. auto. }
    split; [exact Wt|]. split; [exact Wv|].
    intros b Hbb. rewrite Ht, Hv.
    destruct Hb as [Hb|(t & v & b1 & Et & Ev & Hs & Hb)].
    + rewrite Hb in Hbb.
      destruct (vat_amount_tzs inv1), front;
        unfold set_vat_amount_tzs, set_total_amount_tzs in Hbb;
        cbn in Hbb; congruence.
    + exists t, v. repeat split; try assumption. congruence.
Qed.

(** Witness for C7 on the text of the counterexample. *)
Lemma parsed_monetary_fields_witness :
  written_amount (mkDecimal false 2 0)
  /\ written_amount (mkDecimal false 5 0)
  /\ exists t v,
       Some (mkDecimal false 2 0) = Some t
       /\ Some (mkDecimal false 5 0) = Some v
       /\ sub t v = Return (mkDecimal true 3 0).
Proof.
  destruct (parsed_monetary_fields "TZS 1; TZS 5; TZS 2"
              (mkInvoiceData (Some (mkDecimal true 3 0)) None
                 (Some (mkDecimal false 5 0)) (Some (mkDecimal false 2 0))
                 "TZS 1; TZS 5; TZS 2") eq_refl) as (Ht & Hv & Hb).
  split; [apply Ht; reflexivity|].
  split; [apply Hv; reflexivity|].
  apply Hb. reflexivity.
Defined.

(** ** Decimal arithmetic within the context precision *)

Lemma pow10_pos (k : Z) : 0 <= k -> 0 < 10 ^ k.
Proof. intros. apply Z.pow_pos_nonneg; lia. Qed.

Lemma pow10_succ (k : Z) : 0 <= k -> 10 ^ (k + 1) = 10 * 10 ^ k.
Proof. intros. rewrite Z.pow_add_r, Z.pow_1_r by lia. lia. Qed.

Lemma pow10_le (a b : Z) : 0 <= a <= b -> 10 ^ a <= 10 ^ b.
Proof. intros. apply Z.pow_le_mono_r; lia. Qed.

Lemma pow10_lt (a b : Z) : 0 <= a < b -> 10 ^ a < 10 ^ b.
Proof. intros. apply Z.pow_lt_mono_r; lia. Qed.

Lemma ndigits_fuel_spec (fuel : nat) (n : Z) :
  0 < n -> n < 2 ^ (Z.of_nat fuel + 1) ->
  1 <= ndigits_fuel fuel n
  /\ 10 ^ (ndigits_fuel fuel n - 1) <= n < 10 ^ ndigits_fuel fuel n.
Proof.
  revert n. induction fuel as [|f IH]; intros n Hpos Hlt.
  - cbn in *. lia.
  - cbn [ndigits_fuel]. destruct (Z.ltb_spec n 10) as [H10|H10].
    + cbn. lia.
    + assert (Hq : 0 < n / 10) by (apply Z.div_str_pos; lia).
      assert (Hlt' : n / 10 < 2 ^ (Z.of_nat f + 1)).
      { replace (Z.of_nat (S f) + 1) with (Z.of_nat f + 1 + 1) in Hlt by lia.
        rewrite Z.pow_add_r in Hlt by lia.
        apply Z.div_lt_upper_bound; lia. }
      destruct (IH _ Hq Hlt') as (H1 & H2 & H3).
      set (d := ndigits_fuel f (n / 10)) in *.
      replace (1 + d - 1) with (d - 1 + 1) by lia.
      replace (1 + d) with (d + 1) by lia.
      rewrite !pow10_succ by lia.
      pose proof (Z.div_mod n 10 ltac:(lia)).
      pose proof (Z.mod_pos_bound n 10 ltac:(lia)).
      lia.
Qed.

(** A positive coefficient lies between the powers of ten of its digit
    count. *)
Lemma ndigits_spec (n : Z) :
  0 < n -> 1 <= ndigits n /\ 10 ^ (ndigits n - 1) <= n < 10 ^ ndigits n.
Proof.
  intros Hpos. unfold ndigits. apply ndigits_fuel_spec; [assumption|].
  rewrite Z2Nat.id by apply Z.log2_nonneg.
  replace (Z.log2 n + 1) with (Z.succ (Z.log2 n)) by lia.
  now apply Z.log2_spec.
Qed.

Lemma ndigits_zero : ndigits 0 = 1.
Proof. reflexivity. Qed.

Lemma ndigits_le (n k : Z) : 0 <= n -> 1 <= k -> n < 10 ^ k -> ndigits n <= k.
Proof.
  intros Hn Hk Hlt.
  destruct (Z.eq_dec n 0) as [->|Hne]; [rewrite ndigits_zero; lia|].
  destruct (ndigits_spec n ltac:(lia)) as (H1 & H2 & H3).
  destruct (Z.le_gt_cases (ndigits n) k) as [|Hgt]; [assumption|].
  assert (10 ^ k <= 10 ^ (ndigits n - 1)) by (apply pow10_le; lia). lia.
Qed.

Lemma fix_fits (d : Decimal) : fits d -> fix_ d = Return d.
Proof.
  intros [Hc [Hlo Hhi]]. unfold fix_.
  destruct (Z.eqb_spec (Z.of_N (dint d)) 0) as [E|E].
  - destruct d as [s c e]. cbn [dint dexp dsign] in *.
    assert (c = 0%N) by lia. subst c.
    unfold Etiny, Etop, Emin, Emax, prec in *.
    f_equal. f_equal. lia.
  - assert (Hnd : ndigits (Z.of_N (dint d)) <= prec)
      by (apply ndigits_le; [lia|unfold prec; lia|assumption]).
    destruct (Z.gtb_spec (ndigits (Z.of_N (dint d)) + dexp d - prec) Etop);
      [lia|].
    destruct (Z.ltb_spec (ndigits (Z.of_N (dint d)) + dexp d - prec) Etiny).
    + destruct (Z.ltb_spec (dexp d) Etiny); [lia|reflexivity].
    + destruct (Z.ltb_spec (dexp d)
                  (ndigits (Z.of_N (dint d)) + dexp d - prec)); [lia|reflexivity].
Qed.

Lemma sval_of_signed (z e : Z) (zs : bool) : sval (of_signed z e zs) = z.
Proof.
  unfold of_signed, sval.
  destruct (Z.eqb_spec z 0) as [->|Hz]; cbn [dint dexp dsign].
  - now destruct zs.
  - destruct (Z.ltb_spec z 0); lia.
Qed.

Lemma dexp_of_signed (z e : Z) (zs : bool) : dexp (of_signed z e zs) = e.
Proof. unfold of_signed. now destruct (z =? 0). Qed.

Lemma dint_of_signed (z e : Z) (zs : bool) :
  Z.of_N (dint (of_signed z e zs)) = Z.abs z.
Proof.
  unfold of_signed.
  destruct (Z.eqb_spec z 0) as [->|Hz]; cbn [dint dexp dsign]; lia.
Qed.

Lemma sval_abs (d : Decimal) : Z.abs (sval d) = Z.of_N (dint d).
Proof. unfold sval. destruct (dsign d); lia. Qed.

(** [a + b] is exact when the sum fits the precision at the smaller
    exponent. *)
Lemma add_exact (a b : Decimal) :
  let e := Z.min (dexp a) (dexp b) in
  let z := sval a * 10 ^ (dexp a - e) + sval b * 10 ^ (dexp b - e) in
  Z.abs z < 10 ^ prec -> Etiny <= e <= Etop ->
  exists s, add a b = Return s /\ sval s = z /\ dexp s = e.
Proof.
  intros e z Hz He. unfold add. fold e. fold z.
  set (zs := (N.eqb (dint a) 0 && N.eqb (dint b) 0 && dsign a && dsign b)%bool).
  exists (of_signed z e zs). split.
  - apply fix_fits. split.
    + now rewrite dint_of_signed.
    + now rewrite dexp_of_signed.
  - split; [apply sval_of_signed|apply dexp_of_signed].
Qed.

Lemma sval_copy_negate (d : Decimal) : sval (copy_negate d) = - sval d.
Proof.
  unfold sval, copy_negate. cbn [dint dexp dsign].
  destruct (dsign d); cbn [negb]; lia.
Qed.

Lemma sub_exact (a b : Decimal) :
  let e := Z.min (dexp a) (dexp b) in
  let z := sval a * 10 ^ (dexp a - e) - sval b * 10 ^ (dexp b - e) in
  Z.abs z < 10 ^ prec -> Etiny <= e <= Etop ->
  exists s, sub a b = Return s /\ sval s = z /\ dexp s = e.
Proof.
  intros e z Hz He. unfold sub.
  pose proof (add_exact a (copy_negate b)) as H. cbn zeta in H.
  rewrite sval_copy_negate in H. cbn [copy_negate dexp] in H.
  replace (sval a * 10 ^ (dexp a - Z.min (dexp a) (dexp b)) +
           - sval b * 10 ^ (dexp b - Z.min (dexp a) (dexp b))) with z in H
    by (unfold z, e; lia).
  apply H; assumption.
Qed.

Lemma sval_mk (s : bool) (c : N) (e : Z) :
  sval (mkDecimal s c e) = if s then - Z.of_N c else Z.of_N c.
Proof. reflexivity. Qed.

(** [a * b] is exact when the product of the coefficients fits. *)
Lemma mul_exact (a b : Decimal) :
  Z.of_N (dint a) * Z.of_N (dint b) < 10 ^ prec ->
  Etiny <= dexp a + dexp b <= Etop ->
  exists p, mul a b = Return p /\ sval p = sval a * sval b
            /\ dexp p = dexp a + dexp b /\ dsign p = xorb (dsign a) (dsign b).
Proof.
  intros Hc He. unfold mul. eexists. split.
  - apply fix_fits. split; cbn [dint dexp dsign]; [lia|assumption].
  - cbn [dint dexp dsign]. split; [|auto]. unfold sval. cbn [dint dexp dsign].
    destruct (dsign a), (dsign b); cbn [xorb]; lia.
Qed.

(** Round-half-up of a non-negative coefficient is the floor of the
    quotient plus one half. *)
Lemma round_half_up_floor (c j : Z) :
  0 <= c -> 0 <= j -> round_half_up c j = (2 * c + 10 ^ j) / (2 * 10 ^ j).
Proof.
  intros Hc Hj. unfold round_half_up.
  pose proof (pow10_pos j Hj) as Hp. set (p := 10 ^ j) in *.
  pose proof (Z.div_mod c p ltac:(lia)) as Hdm.
  pose proof (Z.mod_pos_bound c p Hp) as Hr.
  set (q := c / p) in *. set (r := c mod p) in *.
  destruct (Z.geb_spec (2 * r) p) as [Hge|Hlt].
  - apply Z.div_unique with (r := 2 * r - p); nia.
  - apply Z.div_unique with (r := 2 * r + p); nia.
Qed.

Lemma round_half_up_bounds (c j : Z) :
  0 <= c -> 0 <= j -> c / 10 ^ j <= round_half_up c j <= c / 10 ^ j + 1.
Proof.
  intros Hc Hj. unfold round_half_up.
  destruct (2 * (c mod 10 ^ j) >=? 10 ^ j); lia.
Qed.

Lemma round_half_up_nonneg (c j : Z) :
  0 <= c -> 0 <= j -> 0 <= round_half_up c j.
Proof.
  intros Hc Hj. pose proof (round_half_up_bounds c j Hc Hj).
  pose proof (pow10_pos j Hj). pose proof (Z.div_pos c (10 ^ j) Hc ltac:(lia)).
  lia.
Qed.

Lemma quantized_nonneg (c e k : Z) : 0 <= c -> 0 <= quantized c e k.
Proof.
  intros Hc. unfold quantized. destruct (Z.leb_spec k e).
  - pose proof (pow10_pos (e - k) ltac:(lia)). nia.
  - apply round_half_up_nonneg; lia.
Qed.

(** [quantize] with ROUND_HALF_UP returns the rounded coefficient at the
    target exponent whenever operand and result fit the precision. *)
Lemma quantize_exact (d : Decimal) (k : Z) :
  let c := Z.of_N (dint d) in
  Etiny <= k <= Etop ->
  quantized c (dexp d) k < 10 ^ prec ->
  (dexp d < k -> c < 10 ^ (prec + k - dexp d)) ->
  quantize d k ROUND_HALF_UP
  = Return (mkDecimal (dsign d) (Z.to_N (quantized c (dexp d) k)) k).
Proof.
  intros c Hk HC Hround. unfold quantize. fold c.
  assert (Hc : 0 <= c) by (unfold c; lia).
  pose proof (quantized_nonneg c (dexp d) k Hc) as HC0.
  replace (negb ((Etiny <=? k) && (k <=? Emax))) with false.
  2:{ symmetry. apply negb_false_iff, andb_true_iff.
      unfold Etop, Emax, prec in *. split; apply Z.leb_le; lia. }
  destruct (Z.eqb_spec c 0) as [E0|E0].
  - assert (quantized c (dexp d) k = 0).
    { unfold quantized, round_half_up. rewrite E0.
      destruct (Z.leb_spec k (dexp d)); [lia|].
      pose proof (pow10_pos (k - dexp d) ltac:(lia)).
      rewrite Z.mod_0_l, Z.div_0_l by lia.
      destruct (Z.geb_spec (2 * 0) (10 ^ (k - dexp d))); lia. }
    rewrite H. apply fix_fits.
    split; cbn [dint dexp dsign Z.to_N Z.of_N]; [unfold prec; lia|assumption].
  - destruct (ndigits_spec c ltac:(lia)) as (Hn1 & Hn2 & Hn3).
    assert (Hadj : dexp d + ndigits c - k <= prec).
    { destruct (Z.leb_spec k (dexp d)) as [Hpad|Hrnd].
      - unfold quantized in HC.
        destruct (Z.leb_spec k (dexp d)); [|lia].
        destruct (Z.le_gt_cases (dexp d + ndigits c - k) prec) as [|Hgt];
          [assumption|].
        assert (10 ^ prec <= 10 ^ (ndigits c - 1 + (dexp d - k)))
          by (apply pow10_le; unfold prec in *; lia).
        rewrite Z.pow_add_r in H0 by lia.
        pose proof (pow10_pos (dexp d - k) ltac:(lia)). nia.
      - specialize (Hround Hrnd).
        assert (ndigits c <= prec + k - dexp d)
          by (apply ndigits_le; unfold prec in *; lia).
        lia. }
    unfold adjusted. fold c.
    destruct (Z.gtb_spec (dexp d + ndigits c - 1) Emax);
      [unfold Etop, Emax, prec in *; lia|].
    destruct (Z.gtb_spec (dexp d + ndigits c - 1 - k + 1) prec); [lia|].
    assert (Hans : rescale d k ROUND_HALF_UP
                   = mkDecimal (dsign d) (Z.to_N (quantized c (dexp d) k)) k).
    { unfold rescale, quantized. fold c.
      destruct (Z.eqb_spec c 0); [contradiction|].
      destruct (Z.leb_spec k (dexp d)); reflexivity. }
    rewrite Hans. cbn [dexp dint]. rewrite Z2N.id by assumption.
    assert (Hnd : ndigits (quantized c (dexp d) k) <= prec)
      by (apply ndigits_le; [assumption|unfold prec; lia|assumption]).
    destruct (Z.gtb_spec (k + ndigits (quantized c (dexp d) k) - 1) Emax);
      [unfold Etop, Emax, prec in *; lia|].
    destruct (Z.gtb_spec (ndigits (quantized c (dexp d) k)) prec); [lia|].
    apply fix_fits.
    split; cbn [dint dexp dsign]; [now rewrite Z2N.id|assumption].
Qed.

(** ** Exact values *)

Lemma Zpos_to_pos_pow10 (k : Z) : 0 <= k -> Z.pos (Z.to_pos (10 ^ k)) = 10 ^ k.
Proof. intros. apply Z2Pos.id. now apply pow10_pos. Qed.

(** The value written at a finer exponent. *)
Lemma qval_at (z e L : Z) :
  L <= e -> L <= 0 ->
  qval z e == Qmake (z * 10 ^ (e - L)) (Z.to_pos (10 ^ (- L))).
Proof.
  intros HL HL0. unfold qval, Qeq.
  destruct (Z.leb_spec 0 e) as [He|He]; cbn [Qnum Qden inject_Z].
  - rewrite Zpos_to_pos_pow10 by lia.
    replace (e - L) with (e + - L) by lia. rewrite Z.pow_add_r by lia. lia.
  - rewrite !Zpos_to_pos_pow10 by lia.
    replace (- L) with ((e - L) + - e) by lia.
    rewrite Z.pow_add_r by lia. lia.
Qed.

Lemma qval_tenth (z e : Z) : qval z e * (1 # 10) == qval z (e - 1).
Proof.
  set (L := Z.min (e - 1) (- 1)).
  pose proof (qval_at z e (L + 1) ltac:(lia) ltac:(lia)) as E1.
  pose proof (qval_at z (e - 1) L ltac:(lia) ltac:(lia)) as E2.
  rewrite E1, E2.
  unfold Qeq, Qmult. cbn [Qnum Qden].
  rewrite Pos2Z.inj_mul, !Zpos_to_pos_pow10 by lia.
  replace (e - (L + 1)) with (e - 1 - L) by lia.
  replace (- L) with (- (L + 1) + 1) by lia.
  rewrite (Z.pow_add_r 10 (- (L + 1)) 1) by lia. lia.
Qed.

Lemma qval_plus (a ea b eb : Z) :
  let e := Z.min ea eb in
  qval a ea + qval b eb == qval (a * 10 ^ (ea - e) + b * 10 ^ (eb - e)) e.
Proof.
  intros e. set (L := Z.min e 0).
  pose proof (qval_at a ea L ltac:(lia) ltac:(lia)) as E1.
  pose proof (qval_at b eb L ltac:(lia) ltac:(lia)) as E2.
  pose proof (qval_at (a * 10 ^ (ea - e) + b * 10 ^ (eb - e)) e L
                ltac:(lia) ltac:(lia)) as E3.
  rewrite E1, E2, E3.
  unfold Qeq, Qplus. cbn [Qnum Qden].
  rewrite Pos2Z.inj_mul, !Zpos_to_pos_pow10 by lia.
  replace (ea - L) with ((ea - e) + (e - L)) by lia.
  replace (eb - L) with ((eb - e) + (e - L)) by lia.
  rewrite !Z.pow_add_r by lia. ring.
Qed.

Lemma round_half_up_Q_wd (x y : Q) (n : Z) :
  x == y -> round_half_up_Q x n = round_half_up_Q y n.
Proof.
  intros E. unfold round_half_up_Q.
  assert (E1 : Qle_bool 0 x = Qle_bool 0 y) by (now rewrite E).
  assert (E2 : Qfloor (Qabs x * inject_Z (10 ^ n) + (1 # 2))
               = Qfloor (Qabs y * inject_Z (10 ^ n) + (1 # 2)))
    by (now rewrite E).
  now rewrite E1, E2.
Qed.

(** The specification's rounding of [z * 10^e] to [n] places is the
    coefficient [quantize] computes at exponent [-n], with the sign of
    [z]. *)
Lemma round_half_up_Q_quantized (z e n : Z) :
  0 <= n ->
  round_half_up_Q (qval z e) n
  = Qmake (if 0 <=? z then quantized (Z.abs z) e (- n)
           else - quantized (Z.abs z) e (- n))
      (Z.to_pos (10 ^ n)).
Proof.
  intros Hn. set (L := Z.min e (- n)).
  rewrite (round_half_up_Q_wd _ _ n (qval_at z e L ltac:(lia) ltac:(lia))).
  unfold round_half_up_Q. f_equal.
  pose proof (pow10_pos (e - L) ltac:(lia)) as Hp1.
  pose proof (pow10_pos (- L) ltac:(lia)) as Hp2.
  pose proof (pow10_pos n Hn) as Hp3.
  assert (Hsign : Qle_bool 0 (z * 10 ^ (e - L) # Z.to_pos (10 ^ (- L)))
                  = (0 <=? z)).
  { unfold Qle_bool. cbn [Qnum Qden].
    destruct (Z.leb_spec 0 z); apply Z.leb_le || apply Z.leb_gt; nia. }
  rewrite Hsign.
  assert (Hm : Qfloor (Qabs (z * 10 ^ (e - L) # Z.to_pos (10 ^ (- L)))
                       * inject_Z (10 ^ n) + (1 # 2))
               = quantized (Z.abs z) e (- n)).
  { unfold Qfloor, Qabs, Qplus, Qmult, inject_Z. cbn [Qnum Qden].
    rewrite !Pos2Z.inj_mul, Zpos_to_pos_pow10 by lia.
    rewrite Z.abs_mul, (Z.abs_eq (10 ^ (e - L))) by lia.
    unfold quantized.
    destruct (Z.leb_spec (- n) e) as [Hpad|Hrnd].
    - replace L with (- n) in * by lia.
      replace (- - n) with n in * by lia.
      replace (e - - n) with (e + n) in * by lia.
      set (A := Z.abs z * 10 ^ (e + n)).
      replace (A * 10 ^ n * 2 + 1 * (10 ^ n * 1))
        with ((2 * A + 1) * 10 ^ n) by ring.
      replace (10 ^ n * 1 * 2) with (2 * 10 ^ n) by ring.
      rewrite Z.div_mul_cancel_r by lia.
      symmetry. apply Z.div_unique with (r := 1); lia.
    - replace L with e in * by lia.
      rewrite Z.sub_diag, Z.pow_0_r, Z.mul_1_r.
      rewrite round_half_up_floor by lia.
      replace (- e) with ((- n - e) + n) by lia.
      rewrite (Z.pow_add_r 10 (- n - e) n) by lia.
      set (P := 10 ^ (- n - e)).
      replace (Z.abs z * 10 ^ n * 2 + 1 * (P * 10 ^ n * 1))
        with ((2 * Z.abs z + P) * 10 ^ n) by ring.
      replace (P * 10 ^ n * 1 * 2) with ((2 * P) * 10 ^ n) by ring.
      assert (0 < P) by (apply pow10_pos; lia).
      now rewrite Z.div_mul_cancel_r by lia. }
  now rewrite Hm.
Qed.

Lemma quantized_zero (e k : Z) : quantized 0 e k = 0.
Proof.
  unfold quantized, round_half_up. destruct (Z.leb_spec k e); [lia|].
  pose proof (pow10_pos (k - e) ltac:(lia)).
  rewrite Z.mod_0_l, Z.div_0_l by lia.
  destruct (Z.geb_spec (2 * 0) (10 ^ (k - e))); lia.
Qed.

(** Rounding ten times the coefficient one exponent lower gives the same
    coefficient. *)
Lemma quantized_tenfold (c e k : Z) :
  0 <= c -> quantized (10 * c) (e - 1) k = quantized c e k.
Proof.
  intros Hc. unfold quantized.
  destruct (Z.leb_spec k (e - 1)) as [H1|H1];
    destruct (Z.leb_spec k e) as [H2|H2]; try lia.
  - replace (e - k) with (e - 1 - k + 1) by lia.
    rewrite pow10_succ by lia. ring.
  - replace k with e by lia. replace (e - (e - 1)) with 1 by lia.
    rewrite Z.sub_diag, Z.pow_0_r, Z.mul_1_r.
    rewrite round_half_up_floor by lia.
    change (10 ^ 1) with 10.
    symmetry. apply Z.div_unique with (r := 10); lia.
  - rewrite !round_half_up_floor by lia.
    replace (k - (e - 1)) with (k - e + 1) by lia.
    rewrite pow10_succ by lia.
    pose proof (pow10_pos (k - e) ltac:(lia)).
    replace (2 * (10 * c) + 10 * 10 ^ (k - e))
      with ((2 * c + 10 ^ (k - e)) * 10) by ring.
    replace (2 * (10 * 10 ^ (k - e))) with (2 * 10 ^ (k - e) * 10) by ring.
    now rewrite Z.div_mul_cancel_r by lia.
Qed.

Lemma fix_zero (s : bool) (e : Z) :
  exists e', fix_ (mkDecimal s 0 e) = Return (mkDecimal s 0 e').
Proof. unfold fix_. cbn [dint Z.of_N Z.eqb dsign dexp]. eauto. Qed.

Lemma quantize_zero (s : bool) (e k : Z) :
  Etiny <= k <= Etop ->
  quantize (mkDecimal s 0 e) k ROUND_HALF_UP = Return (mkDecimal s 0 k).
Proof.
  intros Hk.
  rewrite (quantize_exact (mkDecimal s 0 e) k); cbn [dint dexp dsign Z.of_N].
  - now rewrite quantized_zero.
  - assumption.
  - rewrite quantized_zero. apply pow10_pos. unfold prec. lia.
  - intros H. apply pow10_pos. unfold prec. lia.
Qed.

Lemma cents_in_range : Etiny <= -2 <= Etop.
Proof. unfold Etiny, Etop, Emin, Emax, prec. lia. Qed.

Lemma ndigits_eq (n k : Z) :
  1 <= k -> 10 ^ (k - 1) <= n < 10 ^ k -> ndigits n = k.
Proof.
  intros Hk [Hlo Hhi].
  pose proof (pow10_pos (k - 1) ltac:(lia)) as Hp.
  destruct (ndigits_spec n ltac:(lia)) as (H1 & H2 & H3).
  assert (ndigits n <= k) by (apply ndigits_le; lia).
  destruct (Z.eq_dec (ndigits n) k) as [|Hne]; [assumption|].
  assert (10 ^ ndigits n <= 10 ^ (k - 1)) by (apply pow10_le; lia). lia.
Qed.

(** A tenth of a decimal of at most 28 digits is exact: the product by
    [Decimal("0.10")] either fits, or has 29 digits of which [_fix] drops
    the final zero. *)
Lemma mul_tenth (g : Decimal) :
  let c := Z.of_N (dint g) in
  0 < c < 10 ^ prec -> Etiny + 2 <= dexp g <= Etop ->
  exists p,
    mul g TaxCalculator.WHT_RATE = Return p /\ dsign p = dsign g
    /\ ((Z.of_N (dint p) = 10 * c /\ dexp p = dexp g - 2
         /\ 10 * c < 10 ^ prec)
        \/ (Z.of_N (dint p) = c /\ dexp p = dexp g - 1)).
Proof.
  intros c Hc He.
  destruct (Z.lt_ge_cases (10 * c) (10 ^ prec)) as [Hsmall|Hbig].
  - destruct (mul_exact g TaxCalculator.WHT_RATE) as (p & Hp & Hsv & Hexp & Hsg).
    + cbn [TaxCalculator.WHT_RATE dint]. fold c. lia.
    + cbn [TaxCalculator.WHT_RATE dexp].
      unfold Etiny, Etop, Emin, Emax, prec in *. lia.
    + exists p. split; [assumption|].
      cbn [TaxCalculator.WHT_RATE dexp dsign] in Hexp, Hsg.
      rewrite xorb_false_r in Hsg. split; [assumption|]. left.
      split; [|split; [lia|assumption]].
      rewrite <- sval_abs, Hsv, Z.abs_mul, sval_abs.
      cbn [TaxCalculator.WHT_RATE sval dsign dint]. fold c. lia.
  - exists (mkDecimal (dsign g) (dint g) (dexp g - 1)).
    split; [|split; [reflexivity|right; split; reflexivity]].
    unfold mul, fix_.
    cbn [TaxCalculator.WHT_RATE dint dexp dsign].
    rewrite xorb_false_r.
    replace (Z.of_N (dint g * 10)) with (10 * c) by (unfold c; lia).
    destruct (Z.eqb_spec (10 * c) 0); [lia|].
    assert (Hnd : ndigits (10 * c) = prec + 1).
    { apply ndigits_eq; [unfold prec; lia|].
      replace (prec + 1 - 1) with prec by lia.
      rewrite pow10_succ by (unfold prec; lia). lia. }
    rewrite Hnd.
    destruct (Z.gtb_spec (prec + 1 + (dexp g + -2) - prec) Etop);
      [unfold Etop, Emax, prec in *; lia|].
    destruct (Z.ltb_spec (prec + 1 + (dexp g + -2) - prec) Etiny); [lia|].
    destruct (Z.ltb_spec (dexp g + -2) (prec + 1 + (dexp g + -2) - prec));
      [|lia].
    replace (prec + 1 + (dexp g + -2) - prec - (dexp g + -2)) with 1 by lia.
    assert (Hre : round_half_even (10 * c) 1 = c).
    { unfold round_half_even. change (10 ^ 1) with 10.
      replace (10 * c) with (c * 10) by lia.
      rewrite Z.div_mul, Z.mod_mul by lia. reflexivity. }
    rewrite Hre.
    assert (Hndc : ndigits c <= prec)
      by (apply ndigits_le; [lia|unfold prec; lia|lia]).
    destruct (Z.gtb_spec (ndigits c) prec); [lia|].
    destruct (Z.gtb_spec (prec + 1 + (dexp g + -2) - prec) Etop); [lia|].
    unfold c. rewrite N2Z.id. do 2 f_equal. lia.
Qed.

(** [calculate_wht] in closed form, for a rent of at most 28 significant
    digits and of magnitude below 10^27. *)
Lemma calculate_wht_exact (g : Decimal) :
  Etiny + 2 <= dexp g ->
  Z.of_N (dint g) * 10 ^ Z.max (dexp g + 1) 0 < 10 ^ prec ->
  TaxCalculator.calculate_wht g
  = Return (mkDecimal (dsign g)
              (Z.to_N (quantized (Z.of_N (dint g)) (dexp g - 1) (-2))) (-2)).
Proof.
  intros He Hc. unfold TaxCalculator.calculate_wht.
  set (c := Z.of_N (dint g)) in *.
  assert (Hc0 : 0 <= c) by (unfold c; lia).
  destruct (Z.eq_dec c 0) as [E0|E0].
  - unfold mul. cbn [TaxCalculator.WHT_RATE dint dexp dsign].
    replace (dint g * 10)%N with 0%N by (unfold c in E0; lia).
    destruct (fix_zero (xorb (dsign g) false) (dexp g + -2)) as (e' & ->).
    cbn [bind]. rewrite quantize_zero by apply cents_in_range.
    rewrite E0, quantized_zero, xorb_false_r. reflexivity.
  - pose proof (pow10_pos (Z.max (dexp g + 1) 0) ltac:(lia)) as Hp.
    assert (Hc28 : c < 10 ^ prec) by nia.
    assert (Hup : dexp g < prec).
    { destruct (Z.lt_ge_cases (dexp g) prec) as [|Hge]; [assumption|].
      assert (10 ^ prec <= 10 ^ Z.max (dexp g + 1) 0)
        by (apply pow10_le; unfold prec in *; lia).
      nia. }
    destruct (mul_tenth g) as (p & -> & Hsg & Hp').
    + fold c. lia.
    + unfold Etop, Emax, prec in *. lia.
    + cbn [bind]. fold c in Hp'.
      assert (HQ : quantized (Z.of_N (dint p)) (dexp p) (-2)
                   = quantized c (dexp g - 1) (-2)).
      { destruct Hp' as [(-> & -> & _)|[-> ->]]; [|reflexivity].
        replace (dexp g - 2) with (dexp g - 1 - 1) by lia.
        now apply quantized_tenfold. }
      assert (Hbound : quantized c (dexp g - 1) (-2) < 10 ^ prec).
      { unfold quantized.
        destruct (Z.leb_spec (-2) (dexp g - 1)) as [Hpad|Hrnd].
        - replace (dexp g - 1 - -2) with (Z.max (dexp g + 1) 0) by lia.
          exact Hc.
        - pose proof (round_half_up_bounds c (-2 - (dexp g - 1)) Hc0
                        ltac:(lia)) as [_ Hb].
          assert (10 ^ 1 <= 10 ^ (-2 - (dexp g - 1)))
            by (apply pow10_le; lia).
          change (10 ^ 1) with 10 in H.
          assert (c / 10 ^ (-2 - (dexp g - 1)) <= c / 10).
          { apply Z.div_le_compat_l; lia. }
          assert (c / 10 < 10 ^ (prec - 1)).
          { apply Z.div_lt_upper_bound; [lia|].
            change (10 * 10 ^ (prec - 1)) with (10 ^ prec). exact Hc28. }
          assert (10 ^ (prec - 1) + 1 < 10 ^ prec) by (unfold prec; lia).
          lia. }
      rewrite (quantize_exact p (-2)); rewrite ?HQ, ?Hsg.
      * reflexivity.
      * apply cents_in_range.
      * exact Hbound.
      * intros Hlt.
        assert (10 ^ prec <= 10 ^ (prec + -2 - dexp p))
          by (apply pow10_le; unfold prec; lia).
        assert (Z.of_N (dint p) < 10 ^ prec); [|lia].
        destruct Hp' as [(Hi & He' & Hlt')|[Hi He']]; rewrite Hi; assumption.
Qed.

Lemma dval_cents (s : bool) (c : Z) :
  0 <= c ->
  dval (mkDecimal s (Z.to_N c) (-2))
  = Qmake (if s then - c else c) (Z.to_pos (10 ^ 2)).
Proof.
  intros Hc. unfold dval, qval, sval. cbn [dsign dint dexp Z.leb Z.compare].
  rewrite Z2N.id by assumption. reflexivity.
Qed.

(** The signed coefficient, from the magnitude rounded by the code and the
    sign kept from the operand. *)
Lemma signed_quantized (s : bool) (c C : Z) :
  0 <= c -> (c = 0 -> C = 0) ->
  (if s then - C else C)
  = (if 0 <=? (if s then - c else c) then C else - C).
Proof.
  intros Hc H0. destruct s.
  - destruct (Z.leb_spec 0 (- c)); [|reflexivity].
    assert (c = 0) by lia. rewrite (H0 H1). reflexivity.
  - destruct (Z.leb_spec 0 c); [reflexivity|lia].
Qed.

(** ** Withholding tax *)

(** C6, counterexample. For the rent 1E+27 no tax is computed: the tax
    1E+26 cannot be quantised to two places within 28 digits. *)
Lemma calculate_wht_raises :
  TaxCalculator.calculate_wht (mkDecimal false 1 27) = Raise InvalidOperation.
Proof. vm_compute. reflexivity. Qed.

(** C6, as amended. For every decimal base rent of at most 28 significant
    digits, of magnitude below 10^27 and of exponent at least -1000024 (of
    either sign), [calculate_wht] returns a decimal of exponent -2 whose
    value is the exact product base_rent * 0.10 rounded half-up (ties away
    from zero) to 2 decimals; 5,000,000.00 gives 500,000.00 and 1.005 gives
    0.10. *)
Theorem calculate_wht_round_half_up :
  (forall g : Decimal,
      Etiny + 2 <= dexp g ->
      Z.of_N (dint g) * 10 ^ Z.max (dexp g + 1) 0 < 10 ^ prec ->
      exists w,
        TaxCalculator.calculate_wht g = Return w
        /\ dexp w = -2
        /\ dval w == round_half_up_Q (dval g * (1 # 10)) 2)
  /\ TaxCalculator.calculate_wht (mkDecimal false 500000000 (-2))
     = Return (mkDecimal false 50000000 (-2))
  /\ TaxCalculator.calculate_wht (mkDecimal false 1005 (-3))
     = Return (mkDecimal false 10 (-2)).
Proof.
  split; [|split; vm_compute; reflexivity].
  intros g He Hc. rewrite calculate_wht_exact by assumption.
  eexists. split; [reflexivity|]. split; [reflexivity|].
  set (c := Z.of_N (dint g)) in *.
  assert (Hc0 : 0 <= c) by (unfold c; lia).
  rewrite dval_cents by (apply quantized_nonneg; assumption).
  unfold dval at 1.
  rewrite (round_half_up_Q_wd _ _ 2 (qval_tenth (sval g) (dexp g))).
  rewrite round_half_up_Q_quantized by lia.
  rewrite sval_abs. fold c. change (- (2)) with (-2).
  rewrite (signed_quantized (dsign g) c (quantized c (dexp g - 1) (-2)) Hc0).
  - unfold sval. fold c. reflexivity.
  - intros ->. apply quantized_zero.
Qed.

(** Witness for C6: the rent 1.005. *)
Lemma calculate_wht_round_half_up_witness :
  exists w,
    TaxCalculator.calculate_wht (mkDecimal false 1005 (-3)) = Return w
    /\ dexp w = -2
    /\ dval w == round_half_up_Q (dval (mkDecimal false 1005 (-3)) * (1 # 10)) 2.
Proof.
  apply (proj1 calculate_wht_round_half_up (mkDecimal false 1005 (-3))).
  - vm_compute. discriminate.
  - vm_compute. reflexivity.
Defined.

(** ** The payment split *)

Lemma sval_nonneg (d : Decimal) : 0 <= sval d -> sval d = Z.of_N (dint d).
Proof. unfold sval. destruct (dsign d); lia. Qed.

Lemma sval_cents_nonneg (d : Decimal) (C k : Z) :
  0 <= sval d -> 0 <= C -> (Z.of_N (dint d) = 0 -> C = 0) ->
  sval (mkDecimal (dsign d) (Z.to_N C) k) = C.
Proof.
  intros Hd HC H0. unfold sval in *. cbn [dsign dint].
  rewrite Z2N.id by assumption.
  destruct (dsign d); [|reflexivity].
  rewrite H0 by lia. reflexivity.
Qed.

(** The tax never exceeds the rent: both written at the smaller of the
    rent's exponent and -2. *)
Lemma wht_le_rent (c e : Z) :
  0 <= c ->
  quantized c (e - 1) (-2) * 10 ^ (-2 - Z.min e (-2))
  <= c * 10 ^ (e - Z.min e (-2)).
Proof.
  intros Hc. unfold quantized.
  destruct (Z.leb_spec (-2) (e - 1)) as [Hpad|Hrnd].
  - replace (Z.min e (-2)) with (-2) by lia.
    replace (-2 - -2) with 0 by lia.
    replace (e - -2) with (e - 1 - -2 + 1) by lia.
    rewrite pow10_succ, Z.pow_0_r by lia.
    pose proof (pow10_pos (e - 1 - -2) ltac:(lia)). nia.
  - replace (Z.min e (-2)) with e by lia.
    rewrite Z.sub_diag, Z.pow_0_r, Z.mul_1_r.
    replace (-2 - (e - 1)) with (-2 - e + 1) by lia.
    unfold round_half_up. rewrite pow10_succ by lia.
    pose proof (pow10_pos (-2 - e) ltac:(lia)) as HP.
    set (P := 10 ^ (-2 - e)) in *.
    pose proof (Z.div_mod c (10 * P) ltac:(lia)) as Hdm.
    pose proof (Z.mod_pos_bound c (10 * P) ltac:(lia)) as Hr.
    assert (0 <= c / (10 * P)) by (apply Z.div_pos; lia).
    destruct (Z.geb_spec (2 * (c mod (10 * P))) (10 * P)); nia.
Qed.

(** Rounding commutes with adding whole cents. *)
Lemma quantized_shift (x W lo : Z) :
  0 <= x -> 0 <= W -> lo <= -2 ->
  quantized (x + W * 10 ^ (-2 - lo)) lo (-2) = quantized x lo (-2) + W.
Proof.
  intros Hx HW Hlo. unfold quantized.
  pose proof (pow10_pos (-2 - lo) ltac:(lia)) as HK.
  destruct (Z.leb_spec (-2) lo) as [Hpad|Hrnd].
  - replace lo with (-2) by lia. cbn [Z.sub Z.opp Z.add Z.pos_sub Z.pow Z.pow_pos
                                      Pos.iter Z.mul]. lia.
  - rewrite !round_half_up_floor by nia.
    replace (2 * (x + W * 10 ^ (-2 - lo)) + 10 ^ (-2 - lo))
      with (2 * x + 10 ^ (-2 - lo) + W * (2 * 10 ^ (-2 - lo))) by ring.
    rewrite Z.div_add by lia. reflexivity.
Qed.

(** A coefficient rewritten at the finer of its exponent and the target
    rounds to the same coefficient. *)
Lemma quantized_finer (x e k : Z) :
  quantized (x * 10 ^ (e - Z.min e k)) (Z.min e k) k = quantized x e k.
Proof.
  unfold quantized.
  destruct (Z.leb_spec k e) as [Hpad|Hrnd].
  - replace (Z.min e k) with k by lia.
    destruct (Z.leb_spec k k); [|lia].
    rewrite Z.sub_diag, Z.pow_0_r. lia.
  - replace (Z.min e k) with e by lia.
    destruct (Z.leb_spec k e); [lia|].
    rewrite Z.sub_diag, Z.pow_0_r. now rewrite Z.mul_1_r.
Qed.

Lemma quantized_bound (x lo : Z) :
  0 <= x < 10 ^ prec -> lo <= -2 -> quantized x lo (-2) < 10 ^ prec.
Proof.
  intros [Hx Hlt] Hlo. unfold quantized.
  destruct (Z.leb_spec (-2) lo) as [Hpad|Hrnd].
  - replace lo with (-2) by lia. change (10 ^ (-2 - -2)) with 1. lia.
  - pose proof (round_half_up_bounds x (-2 - lo) Hx ltac:(lia)) as [_ Hb].
    assert (10 ^ 1 <= 10 ^ (-2 - lo)) by (apply pow10_le; lia).
    change (10 ^ 1) with 10 in H.
    assert (x / 10 ^ (-2 - lo) <= x / 10) by (apply Z.div_le_compat_l; lia).
    assert (x / 10 < 10 ^ (prec - 1)).
    { apply Z.div_lt_upper_bound; [lia|].
      change (10 * 10 ^ (prec - 1)) with (10 ^ prec). exact Hlt. }
    assert (10 ^ (prec - 1) + 1 < 10 ^ prec) by (unfold prec; lia).
    lia.
Qed.

Lemma pow10_split (a b c : Z) :
  c <= b <= a -> 10 ^ (a - c) = 10 ^ (a - b) * 10 ^ (b - c).
Proof.
  intros H. rewrite <- Z.pow_add_r by lia. f_equal. lia.
Qed.

(** The three calls of [calculate_and_display_taxes] in closed form: the
    total outflow is the sum rent + VAT, rounded once. *)
Lemma taxes_exact (b v : Decimal) :
  let lo := Z.min (Z.min (dexp b) (dexp v)) (-2) in
  let S := sval b * 10 ^ (dexp b - lo) + sval v * 10 ^ (dexp v - lo) in
  0 <= sval b -> 0 <= sval v ->
  Etiny + 2 <= dexp b -> Etiny <= dexp v ->
  S < 10 ^ prec ->
  exists pay w tot,
    calculate_and_display_taxes b v = Return (pay, w, tot)
    /\ dexp tot = -2 /\ sval tot = quantized S lo (-2).
Proof.
  intros lo S Hb Hv Heb Hev HS.
  pose proof (sval_nonneg b Hb) as Ecb. pose proof (sval_nonneg v Hv) as Ecv.
  set (eb := dexp b) in *. set (ev := dexp v) in *.
  set (cb := sval b) in *. set (cv := sval v) in *.
  set (m := Z.min eb (-2)).
  assert (Hmin : Z.min m ev = lo) by (unfold lo, m; lia).
  assert (Hlo : lo <= -2) by (unfold lo; lia).
  assert (Hlo' : Etiny <= lo <= Etop)
    by (unfold lo, Etiny, Etop, Emin, Emax, prec in *; lia).
  assert (Hm' : Etiny <= m <= Etop)
    by (unfold m, Etiny, Etop, Emin, Emax, prec in *; lia).
  assert (Hlom : lo <= m <= eb /\ m <= -2 /\ lo <= ev) by (unfold lo, m; lia).
  assert (Hmax : Z.max (eb + 1) 0 <= eb - lo) by (unfold lo; lia).
  assert (Hmdef : Z.min eb (-2) = m) by reflexivity.
  clearbody lo m.
  pose proof (pow10_pos (m - lo) ltac:(lia)) as HPm.
  pose proof (pow10_pos (eb - m) ltac:(lia)) as HPbm.
  pose proof (pow10_pos (-2 - m) ltac:(lia)) as HP2m.
  pose proof (pow10_pos (ev - lo) ltac:(lia)) as HPv.
  set (K := 10 ^ (-2 - lo)).
  assert (HK : 0 < K) by (apply pow10_pos; lia).
  set (V := cv * 10 ^ (ev - lo)).
  assert (HV : 0 <= V) by (apply Z.mul_nonneg_nonneg; lia).
  (* rent and tax at the exponent [m], then at [lo] *)
  set (Bm := cb * 10 ^ (eb - m)).
  assert (HBm : 0 <= Bm) by (apply Z.mul_nonneg_nonneg; lia).
  assert (HSe : S = Bm * 10 ^ (m - lo) + V).
  { unfold S, Bm, V. fold eb ev cb cv.
    rewrite (pow10_split eb m lo) by lia. ring. }
  assert (HKe : K = 10 ^ (-2 - m) * 10 ^ (m - lo))
    by (unfold K; apply pow10_split; lia).
  clearbody S.
  (* the withholding tax *)
  unfold calculate_and_display_taxes.
  rewrite calculate_wht_exact.
  2:{ exact Heb. }
  2:{ fold eb. rewrite <- Ecb.
      assert (H1 : 10 ^ Z.max (eb + 1) 0 <= 10 ^ (eb - m) * 10 ^ (m - lo)).
      { rewrite <- pow10_split by lia. apply pow10_le. clear - Hmax. lia. }
      assert (H2 : cb * 10 ^ Z.max (eb + 1) 0 <= Bm * 10 ^ (m - lo)).
      { unfold Bm. rewrite <- Z.mul_assoc. apply Z.mul_le_mono_nonneg_l; lia. }
      unfold prec in *. lia. }
  cbn [bind]. fold eb. rewrite <- Ecb.
  set (W := quantized cb (eb - 1) (-2)).
  assert (HW : 0 <= W) by (apply quantized_nonneg; assumption).
  set (w := mkDecimal (dsign b) (Z.to_N W) (-2)).
  assert (Hsw : sval w = W).
  { apply sval_cents_nonneg; [assumption|assumption|].
    intros E. unfold W. rewrite Ecb, E. apply quantized_zero. }
  pose proof (wht_le_rent cb eb Hb) as Hle. fold W in Hle.
  rewrite Hmdef in Hle. fold Bm in Hle.
  set (Wm := W * 10 ^ (-2 - m)) in *.
  assert (HWm : 0 <= Wm) by (apply Z.mul_nonneg_nonneg; lia).
  assert (HWK : W * K = Wm * 10 ^ (m - lo)) by (unfold Wm; rewrite HKe; ring).
  assert (Hdiff : 0 <= (Bm - Wm) * 10 ^ (m - lo))
    by (apply Z.mul_nonneg_nonneg; lia).
  assert (HBS : Bm * 10 ^ (m - lo) <= S) by lia.
  assert (HBmP : Bm <= Bm * 10 ^ (m - lo))
    by (clear - HBm HPm; nia).
  assert (HWK0 : 0 <= W * K) by (apply Z.mul_nonneg_nonneg; lia).
  assert (HS0 : 0 <= S) by lia.
  (* the net rent *)
  unfold TaxCalculator.calculate_payment_to_landlord.
  destruct (sub_exact b w) as (net & -> & Hsn & Hen).
  { cbn zeta. rewrite Hsw. cbn [w dexp]. fold eb cb. rewrite Hmdef.
    fold Bm Wm.
    rewrite Z.abs_eq by lia. clear - HBS HS HWm HBmP. lia. }
  { cbn [w dexp]. fold eb. rewrite Hmdef. exact Hm'. }
  cbn zeta in Hsn, Hen. rewrite Hsw in Hsn. cbn [w dexp] in Hsn, Hen.
  fold eb cb in Hsn, Hen. rewrite Hmdef in Hsn, Hen. fold Bm Wm in Hsn.
  cbn [bind].
  (* plus the VAT *)
  assert (Hz' : sval net * 10 ^ (m - lo) + V = S - W * K).
  { rewrite Hsn, HSe, HWK. ring. }
  assert (Hz'0 : 0 <= S - W * K) by (rewrite <- Hz', Hsn; lia).
  destruct (add_exact net v) as (s & -> & Hss & Hes).
  { cbn zeta. rewrite Hen. fold ev cv.
    rewrite Hmin.
    fold V. rewrite Hz', Z.abs_eq by assumption.
    clear - HS HWK0. lia. }
  { rewrite Hen. fold ev. rewrite Hmin. assumption. }
  cbn zeta in Hss, Hes. rewrite Hen in Hss, Hes. fold ev cv in Hss, Hes.
  rewrite Hmin in Hss, Hes.
  fold V in Hss. rewrite Hz' in Hss.
  cbn [bind].
  (* the payment to the landlord *)
  assert (Hints : Z.of_N (dint s) = S - W * K)
    by (rewrite <- sval_nonneg; rewrite Hss; [reflexivity|assumption]).
  rewrite (quantize_exact s (-2)); rewrite ?Hints, ?Hes.
  2:{ apply cents_in_range. }
  2:{ apply quantized_bound; [clear - HS Hz'0 HWK0; lia|assumption]. }
  2:{ intros _.
      assert (10 ^ prec <= 10 ^ (prec + -2 - lo))
        by (apply pow10_le; unfold prec; clear - Hlo; lia).
      clear - H HS HWK0. lia. }
  set (P' := quantized (S - W * K) lo (-2)).
  assert (HP' : 0 <= P') by (apply quantized_nonneg; assumption).
  set (pay := mkDecimal (dsign s) (Z.to_N P') (-2)).
  assert (Hsp : sval pay = P').
  { apply sval_cents_nonneg; [lia|assumption|].
    intros E. unfold P'. rewrite <- Hints, E. apply quantized_zero. }
  cbn [bind].
  (* the total outflow *)
  assert (HT : P' + W = quantized S lo (-2)).
  { unfold P'. rewrite <- quantized_shift by assumption.
    f_equal. fold K. ring. }
  assert (HTb : quantized S lo (-2) < 10 ^ prec)
    by (apply quantized_bound; [lia|assumption]).
  unfold TaxCalculator.calculate_total_outflow.
  destruct (add_exact pay w) as (t0 & -> & Hst & Het).
  { cbn zeta. rewrite Hsp, Hsw. cbn [pay w dexp].
    change (10 ^ (-2 - Z.min (-2) (-2))) with 1.
    rewrite !Z.mul_1_r, HT, Z.abs_eq; [assumption|].
    apply quantized_nonneg; assumption. }
  { cbn [pay w dexp]. change (Z.min (-2) (-2)) with (-2).
    apply cents_in_range. }
  cbn zeta in Hst, Het. rewrite Hsp, Hsw in Hst. cbn [pay w dexp] in Hst, Het.
  change (10 ^ (-2 - Z.min (-2) (-2))) with 1 in Hst.
  change (Z.min (-2) (-2)) with (-2) in Het.
  rewrite !Z.mul_1_r, HT in Hst.
  cbn [bind].
  assert (HT0 : 0 <= quantized S lo (-2))
    by (apply quantized_nonneg; assumption).
  assert (Hintt : Z.of_N (dint t0) = quantized S lo (-2))
    by (rewrite <- sval_nonneg; rewrite Hst; [reflexivity|assumption]).
  assert (Hqq : quantized (quantized S lo (-2)) (-2) (-2) = quantized S lo (-2)).
  { unfold quantized at 1. change (-2 <=? -2) with true. cbn iota.
    change (10 ^ (-2 - -2)) with 1. lia. }
  rewrite (quantize_exact t0 (-2)); rewrite ?Hintt, ?Het, ?Hqq.
  2:{ apply cents_in_range. }
  2:{ assumption. }
  2:{ lia. }
  cbn [bind].
  do 3 eexists. split; [reflexivity|]. split; [reflexivity|].
  apply sval_cents_nonneg; [lia|assumption|].
  intros E. rewrite <- Hintt. exact E.
Qed.

(** C2, counterexample. For the non-negative rent 1E+27 and VAT 0 no
    total outflow is computed at all; and for the rent
    0.004999999999999999999999999996 and the VAT 10, both within 28 digits,
    the total outflow is 10.01 while their sum rounds half-up to 10.00 (the
    sum is first rounded to 28 digits by the decimal context). *)
Lemma total_outflow_not_zero_sum :
  calculate_and_display_taxes (mkDecimal false 1 27) (mkDecimal false 0 0)
  = Raise InvalidOperation
  /\ calculate_and_display_taxes
       (mkDecimal false 4999999999999999999999999996 (-30))
       (mkDecimal false 10 0)
     = Return (mkDecimal false 1001 (-2), mkDecimal false 0 (-2),
               mkDecimal false 1001 (-2))
  /\ round_half_up_Q
       (dval (mkDecimal false 4999999999999999999999999996 (-30))
        + dval (mkDecimal false 10 0)) 2
     = 1000 # 100.
Proof. repeat split; vm_compute; reflexivity. Qed.

(** C2, as amended. Tax shifting is zero-sum within the context precision:
    for non-negative base rent and VAT amount (exponents at least -1000024
    and -1000026) whose sum, written at the smallest of their exponents and
    -2, has at most 28 digits, the three calculations return, and the total
    outflow has exponent -2 and is the exact sum base_rent + vat_amount
    rounded half-up to 2 decimals. *)
Theorem total_outflow_zero_sum (b v : Decimal) :
  let lo := Z.min (Z.min (dexp b) (dexp v)) (-2) in
  0 <= sval b -> 0 <= sval v ->
  Etiny + 2 <= dexp b -> Etiny <= dexp v ->
  sval b * 10 ^ (dexp b - lo) + sval v * 10 ^ (dexp v - lo) < 10 ^ prec ->
  exists payment_to_landlord wht total_outflow,
    calculate_and_display_taxes b v
    = Return (payment_to_landlord, wht, total_outflow)
    /\ dexp total_outflow = -2
    /\ dval total_outflow == round_half_up_Q (dval b + dval v) 2.
Proof.
  intros lo Hb Hv Heb Hev HS.
  destruct (taxes_exact b v Hb Hv Heb Hev HS) as (pay & w & tot & Hc & He & Hs).
  fold lo in Hs.
  exists pay, w, tot. split; [assumption|]. split; [assumption|].
  set (e0 := Z.min (dexp b) (dexp v)) in *.
  set (X := sval b * 10 ^ (dexp b - e0) + sval v * 10 ^ (dexp v - e0)).
  assert (HX : 0 <= X).
  { apply Z.add_nonneg_nonneg; apply Z.mul_nonneg_nonneg; try assumption;
      apply Z.lt_le_incl, pow10_pos; unfold e0; lia. }
  assert (HSX : sval b * 10 ^ (dexp b - lo) + sval v * 10 ^ (dexp v - lo)
                = X * 10 ^ (e0 - lo)).
  { unfold X.
    rewrite (pow10_split (dexp b) e0 lo), (pow10_split (dexp v) e0 lo)
      by (unfold lo, e0; lia).
    ring. }
  rewrite HSX in Hs. unfold lo in Hs. rewrite quantized_finer in Hs.
  unfold dval.
  rewrite (round_half_up_Q_wd _ _ 2
             (qval_plus (sval b) (dexp b) (sval v) (dexp v))).
  cbn zeta. fold e0 X.
  rewrite round_half_up_Q_quantized by lia.
  rewrite Z.abs_eq by assumption. change (- (2)) with (-2).
  destruct (Z.leb_spec 0 X); [|lia].
  rewrite He, Hs. unfold qval. reflexivity.
Qed.

(** Witness for C2: rent 5,000,000.00 and VAT 900,000.00. *)
Lemma total_outflow_zero_sum_witness :
  exists payment_to_landlord wht total_outflow,
    calculate_and_display_taxes (mkDecimal false 500000000 (-2))
      (mkDecimal false 90000000 (-2))
    = Return (payment_to_landlord, wht, total_outflow)
    /\ dexp total_outflow = -2
    /\ dval total_outflow
       == round_half_up_Q
            (dval (mkDecimal false 500000000 (-2))
             + dval (mkDecimal false 90000000 (-2))) 2.
Proof.
  apply (total_outflow_zero_sum (mkDecimal false 500000000 (-2))
           (mkDecimal false 90000000 (-2))).
  - vm_compute. discriminate.
  - vm_compute. discriminate.
  - vm_compute. discriminate.
  - vm_compute. discriminate.
  - vm_compute. reflexivity.
Defined.

(** ** Division and the effective VAT rate *)

Lemma round_half_up_alt (c k : Z) :
  0 <= c -> 1 <= k ->
  round_half_up c k = (c + 5 * 10 ^ (k - 1)) / 10 ^ k.
Proof.
  intros Hc Hk. rewrite round_half_up_floor by lia.
  pose proof (pow10_pos (k - 1) ltac:(lia)) as Hp.
  assert (HP : 10 ^ k = 10 * 10 ^ (k - 1)).
  { replace k with (k - 1 + 1) at 1 by lia. now rewrite pow10_succ by lia. }
  rewrite HP.
  replace (2 * c + 10 * 10 ^ (k - 1)) with (2 * (c + 5 * 10 ^ (k - 1))) by ring.
  replace (2 * (10 * 10 ^ (k - 1))) with (2 * (10 * 10 ^ (k - 1))) by ring.
  now rewrite Z.div_mul_cancel_l by lia.
Qed.

(** Rounding half-up sees only the digits above the last [j]: dropping
    them first changes nothing, as long as one more digit is dropped. *)
Lemma round_half_up_nest (C j k : Z) :
  0 <= C -> 0 <= j -> 1 <= k ->
  round_half_up C (j + k) = round_half_up (C / 10 ^ j) k.
Proof.
  intros HC Hj Hk.
  pose proof (pow10_pos j Hj) as Hpj.
  pose proof (pow10_pos k ltac:(lia)) as Hpk.
  pose proof (pow10_pos (k - 1) ltac:(lia)) as Hpk1.
  assert (0 <= C / 10 ^ j) by (apply Z.div_pos; lia).
  rewrite !round_half_up_alt by lia.
  replace (j + k - 1) with (k - 1 + j) by lia.
  rewrite (Z.pow_add_r 10 (k - 1) j), (Z.pow_add_r 10 j k) by lia.
  rewrite <- Z.div_div by lia.
  replace (C + 5 * (10 ^ (k - 1) * 10 ^ j))
    with (C + (5 * 10 ^ (k - 1)) * 10 ^ j) by ring.
  now rewrite Z.div_add by lia.
Qed.

(** One more unit in the coefficient changes its rounding only on a
    rounding boundary. *)
Lemma round_half_up_step (u k : Z) :
  0 <= u -> 1 <= k ->
  (u + 1) mod 10 ^ k <> 5 * 10 ^ (k - 1) ->
  round_half_up (u + 1) k = round_half_up u k.
Proof.
  intros Hu Hk Hne.
  pose proof (pow10_pos (k - 1) ltac:(lia)) as Hp1.
  assert (HP : 10 ^ k = 10 * 10 ^ (k - 1)).
  { replace k with (k - 1 + 1) at 1 by lia. now rewrite pow10_succ by lia. }
  rewrite !round_half_up_alt by lia.
  set (h := 5 * 10 ^ (k - 1)) in *. set (P := 10 ^ k) in *.
  assert (HPh : P = 2 * h) by (unfold h; lia).
  assert (Hh : 0 < h) by (unfold h; lia).
  clearbody h P. clear HP Hp1.
  pose proof (Z.div_mod (u + 1 + h) P ltac:(lia)) as Hdm.
  pose proof (Z.mod_pos_bound (u + 1 + h) P ltac:(lia)) as Hr.
  set (q := (u + 1 + h) / P) in *. set (r := (u + 1 + h) mod P) in *.
  assert (Hr0 : r <> 0).
  { intros E. apply Hne.
    symmetry. apply Z.mod_unique with (q := q - 1); [left; lia|].
    rewrite E in Hdm. lia. }
  apply Z.div_unique with (r := r - 1); [left; lia|]. lia.
Qed.

Lemma round_half_even_choice (c j : Z) :
  round_half_even c j = c / 10 ^ j
  \/ (round_half_even c j = c / 10 ^ j + 1 /\ 10 ^ j <= 2 * (c mod 10 ^ j)).
Proof.
  unfold round_half_even.
  destruct (Z.gtb_spec (2 * (c mod 10 ^ j)) (10 ^ j)) as [H1|H1]; cbn [orb].
  - right. split; [reflexivity|lia].
  - destruct (Z.eqb_spec (2 * (c mod 10 ^ j)) (10 ^ j)) as [H2|H2]; cbn [andb].
    + destruct (Z.odd (c / 10 ^ j)); [right; split; [reflexivity|lia]|now left].
    + now left.
Qed.

(** The quotient of a short dividend is never so close below a rounding
    boundary that rounding it to the context precision reaches the
    boundary: with [ca * 10^shift = cb * C0 + rem], a round-up of the last
    [j] digits of [C0] onto a boundary of the next [k] digits would make
    the positive number [2 * ((u+1) * 10^j * cb - ca * 10^shift)] a multiple
    of [10^(nb+j)] no larger than [cb * 10^j]. *)
Lemma no_round_up_onto_boundary (ca cb shift C0 rem u l j k nb : Z) :
  0 <= ca -> 0 < cb < 10 ^ nb -> 0 <= nb ->
  ca * 10 ^ shift = cb * C0 + rem -> 0 <= rem < cb ->
  C0 = u * 10 ^ j + l -> 0 <= l < 10 ^ j ->
  0 <= j -> nb <= k -> 1 <= k -> nb + j <= shift ->
  10 ^ j <= 2 * l ->
  (u + 1) mod 10 ^ k = 5 * 10 ^ (k - 1) ->
  False.
Proof.
  intros Hca Hcb Hnb HN Hrem HC Hl Hj Hk Hk1 Hsh Hup Hb.
  pose proof (pow10_pos j Hj) as HPj.
  pose proof (pow10_pos nb Hnb) as HPn.
  pose proof (pow10_pos (k - nb) ltac:(lia)) as HPkn.
  pose proof (pow10_pos (shift - nb - j) ltac:(lia)) as HPs.
  pose proof (pow10_pos (k - 1) ltac:(lia)) as HPk1.
  pose proof (pow10_pos k ltac:(lia)) as HPk.
  assert (Ek : 10 ^ k = 10 * 10 ^ (k - 1)).
  { replace k with (k - 1 + 1) at 1 by lia. now rewrite pow10_succ by lia. }
  assert (Ekn : 10 ^ k = 10 ^ (k - nb) * 10 ^ nb).
  { rewrite <- Z.pow_add_r by lia. f_equal. lia. }
  assert (Es : 10 ^ shift = 10 ^ (shift - nb - j) * (10 ^ nb * 10 ^ j)).
  { rewrite <- !Z.pow_add_r by lia. f_equal. lia. }
  pose proof (Z.div_mod (u + 1) (10 ^ k) ltac:(lia)) as Hdm.
  rewrite Hb in Hdm.
  set (t := (u + 1) / 10 ^ k) in *.
  set (Pj := 10 ^ j) in *. set (Pn := 10 ^ nb) in *.
  set (Pkn := 10 ^ (k - nb)) in *. set (Ps := 10 ^ (shift - nb - j)) in *.
  set (Pk1 := 10 ^ (k - 1)) in *. set (Pk := 10 ^ k) in *.
  set (Psh := 10 ^ shift) in *.
  clearbody t Pj Pn Pkn Ps Pk1 Pk Psh.
  (* twice the distance from the quotient to the boundary, times [cb] *)
  set (D := 2 * (u + 1) * Pj * cb - 2 * (ca * Psh)).
  assert (HD1 : D = 2 * cb * (Pj - l) - 2 * rem).
  { unfold D. rewrite HN, HC. ring. }
  assert (HDpos : 0 < D).
  { rewrite HD1.
    assert (2 * cb * 1 <= 2 * cb * (Pj - l))
      by (apply Z.mul_le_mono_nonneg_l; lia).
    lia. }
  assert (HDup : D <= cb * Pj).
  { rewrite HD1.
    assert (cb * (2 * (Pj - l)) <= cb * Pj)
      by (apply Z.mul_le_mono_nonneg_l; lia).
    lia. }
  set (Y := (2 * t + 1) * cb * Pkn - 2 * (ca * Ps)).
  assert (HDY : D = (Pn * Pj) * Y).
  { unfold D, Y.
    replace (2 * (u + 1)) with (Pk * (2 * t + 1)) by lia.
    rewrite Ekn, Es. ring. }
  assert (HA : 0 < Pn * Pj) by (apply Z.mul_pos_pos; lia).
  assert (HY : 1 <= Y).
  { destruct (Z.le_gt_cases 1 Y) as [|HY0]; [assumption|].
    assert ((Pn * Pj) * Y <= (Pn * Pj) * 0)
      by (apply Z.mul_le_mono_nonneg_l; lia).
    lia. }
  assert (HDlow : Pn * Pj * 1 <= D).
  { rewrite HDY. apply Z.mul_le_mono_nonneg_l; lia. }
  assert (cb * Pj < Pn * Pj) by (apply Z.mul_lt_mono_pos_r; lia).
  lia.
Qed.

(** Trailing zeros moved into the exponent round to the same
    coefficient. *)
Lemma quantized_scale (c z e k : Z) :
  0 <= c -> 0 <= z -> quantized (c * 10 ^ z) e k = quantized c (e + z) k.
Proof.
  intros Hc Hz. revert e. pattern z. apply natlike_ind; [| |exact Hz].
  - intros e. now rewrite Z.pow_0_r, Z.mul_1_r, Z.add_0_r.
  - intros x Hx IH e. unfold Z.succ. rewrite pow10_succ by lia.
    replace (c * (10 * 10 ^ x)) with (10 * (c * 10 ^ x)) by ring.
    replace e with (e + 1 - 1) at 1 by lia.
    pose proof (pow10_pos x Hx).
    rewrite quantized_tenfold by (apply Z.mul_nonneg_nonneg; lia).
    rewrite IH. f_equal. lia.
Qed.

(** The zero-stripping loop removes [z] trailing zeros, at most [fuel]. *)
Lemma strip_zeros_spec (fuel : nat) (c e ideal : Z) :
  exists z c',
    0 <= z <= Z.of_nat fuel
    /\ strip_zeros fuel c e ideal = (c', e + z)
    /\ c = c' * 10 ^ z.
Proof.
  revert c e. induction fuel as [|f IH]; intros c e.
  - exists 0, c. cbn [strip_zeros]. rewrite Z.add_0_r, Z.pow_0_r.
    split; [cbn; lia|]. split; [reflexivity|lia].
  - cbn [strip_zeros].
    destruct ((e <? ideal) && (c mod 10 =? 0))%bool eqn:E.
    + apply andb_true_iff in E. destruct E as [_ E].
      apply Z.eqb_eq in E.
      destruct (IH (c / 10) (e + 1)) as (z & c' & Hz & Hs & Hc).
      exists (z + 1), c'. split; [lia|]. split.
      * rewrite Hs. f_equal. lia.
      * rewrite pow10_succ by lia.
        pose proof (Z.div_mod c 10 ltac:(lia)). lia.
    + exists 0, c. rewrite Z.add_0_r, Z.pow_0_r.
      split; [lia|]. split; [reflexivity|lia].
Qed.

(** [_fix] on a positive coefficient away from the ends of the exponent
    range: the result has at most 28 digits and rounds like
    [fix_coeff], [fix_exp]. *)
Lemma fix_round (s : bool) (c e : Z) :
  0 < c -> Etiny <= e <= Etop -> ndigits c + e - prec < Etop ->
  exists c1 e1,
    fix_ (mkDecimal s (Z.to_N c) e) = Return (mkDecimal s (Z.to_N c1) e1)
    /\ 0 < c1 < 10 ^ prec
    /\ e <= e1 <= fix_exp c e + 1
    /\ forall k, quantized c1 e1 k = quantized (fix_coeff c) (fix_exp c e) k.
Proof.
  intros Hc He Hhi.
  destruct (ndigits_spec c Hc) as (Hn1 & Hn2 & Hn3).
  unfold fix_coeff, fix_exp.
  destruct (Z.leb_spec (ndigits c) prec) as [Hfit|Hbig].
  - exists c, e. split; [|split; [|split; [lia|reflexivity]]].
    + apply fix_fits. split; cbn [dint dexp]; rewrite ?Z2N.id by lia.
      * assert (10 ^ ndigits c <= 10 ^ prec) by (apply pow10_le; lia). lia.
      * assumption.
    + assert (10 ^ ndigits c <= 10 ^ prec) by (apply pow10_le; lia). lia.
  - set (n := ndigits c) in *. set (j := n - prec).
    assert (Hj : 1 <= j) by (unfold j; lia).
    pose proof (pow10_pos j ltac:(lia)) as HPj.
    assert (Esplit : 10 ^ n = 10 ^ prec * 10 ^ j).
    { rewrite <- Z.pow_add_r by (unfold prec, j in *; lia).
      f_equal. unfold j. lia. }
    assert (Esplit' : 10 ^ (n - 1) = 10 ^ (prec - 1) * 10 ^ j).
    { rewrite <- Z.pow_add_r by (unfold prec, j in *; lia).
      f_equal. unfold j. lia. }
    assert (Hq1 : 10 ^ (prec - 1) <= c / 10 ^ j).
    { apply Z.div_le_lower_bound; lia. }
    assert (Hq2 : c / 10 ^ j < 10 ^ prec).
    { apply Z.div_lt_upper_bound; lia. }
    assert (Hc1 : 10 ^ (prec - 1) <= round_half_even c j <= 10 ^ prec).
    { destruct (round_half_even_choice c j) as [->|[-> _]]; lia. }
    set (c1 := round_half_even c j) in *.
    assert (Hfix : fix_ (mkDecimal s (Z.to_N c) e)
                   = if ndigits c1 >? prec
                     then Return (mkDecimal s (Z.to_N (c1 / 10)) (e + j + 1))
                     else Return (mkDecimal s (Z.to_N c1) (e + j))).
    { unfold fix_. cbn [dint dexp dsign]. rewrite Z2N.id by lia.
      destruct (Z.eqb_spec c 0); [lia|]. fold n.
      destruct (Z.gtb_spec (n + e - prec) Etop); [lia|].
      destruct (Z.ltb_spec (n + e - prec) Etiny); [lia|].
      destruct (Z.ltb_spec e (n + e - prec)); [|lia].
      replace (n + e - prec - e) with j by (unfold j; lia). fold c1.
      replace (n + e - prec) with (e + j) by (unfold j; lia).
      destruct (ndigits c1 >? prec).
      - destruct (Z.gtb_spec (e + j + 1) Etop); [unfold j in *; lia|reflexivity].
      - destruct (Z.gtb_spec (e + j) Etop); [unfold j in *; lia|reflexivity]. }
    rewrite Hfix. clear Hfix.
    assert (HP : 10 ^ prec = 10 * 10 ^ (prec - 1)) by reflexivity.
    pose proof (pow10_pos (prec - 1) ltac:(unfold prec; lia)) as HPp.
    clearbody c1.
    destruct (Z.gtb_spec (ndigits c1) prec) as [Hcarry|Hno].
    + assert (Ec1 : c1 = 10 ^ prec).
      { destruct (Z.lt_ge_cases c1 (10 ^ prec)) as [Hlt|]; [|lia].
        assert (ndigits c1 <= prec)
          by (apply ndigits_le; [lia|unfold prec; lia|assumption]).
        lia. }
      exists (10 ^ (prec - 1)), (e + j + 1).
      split; [|split; [|split]].
      * replace (c1 / 10) with (10 ^ (prec - 1)); [reflexivity|].
        rewrite Ec1, HP, Z.mul_comm. symmetry. apply Z.div_mul. lia.
      * lia.
      * unfold j. lia.
      * intros k. rewrite Ec1, HP.
        rewrite <- (quantized_tenfold (10 ^ (prec - 1)) (e + j + 1) k) by lia.
        f_equal. lia.
    + exists c1, (e + j). split; [reflexivity|].
      split; [|split; [unfold j; lia|reflexivity]].
      destruct (ndigits_spec c1 ltac:(lia)) as (_ & _ & Hub).
      assert (10 ^ ndigits c1 <= 10 ^ prec).
      { apply pow10_le. destruct (ndigits_spec c1 ltac:(lia)). lia. }
      lia.
Qed.

(** Double rounding is harmless on a short dividend: rounding the quotient
    half-even at [j'] digits (after [z] stripped zeros) and then half-up
    at the remaining digits gives the half-up rounding of the truncated
    quotient [C0] at all [K] digits. *)
Lemma rate_core (ca cb nb shift C0 rem Cp z j' K : Z) :
  0 <= ca -> 0 < cb < 10 ^ nb -> 0 <= nb ->
  ca * 10 ^ shift = cb * C0 + rem -> 0 <= rem < cb -> 0 <= C0 ->
  0 <= z -> 1 <= j' ->
  nb + (j' + z) <= shift -> nb + (j' + z) <= K -> 1 <= K - (j' + z) ->
  Cp / 10 ^ j' = C0 / 10 ^ (j' + z) ->
  (10 ^ j' <= 2 * (Cp mod 10 ^ j') ->
   10 ^ (j' + z) <= 2 * (C0 mod 10 ^ (j' + z))) ->
  round_half_up (round_half_even Cp j') (K - (j' + z)) = round_half_up C0 K.
Proof.
  intros Hca Hcb Hnb HN Hrem HC0 Hz Hj' Hsh HK Hk Hu Hup.
  set (j := j' + z) in *.
  pose proof (pow10_pos j ltac:(lia)) as HPj.
  pose proof (Z.div_mod C0 (10 ^ j) ltac:(lia)) as Hdm.
  pose proof (Z.mod_pos_bound C0 (10 ^ j) HPj) as Hl.
  assert (Hu0 : 0 <= C0 / 10 ^ j) by (apply Z.div_pos; lia).
  replace K with (j + (K - j)) at 2 by lia.
  rewrite round_half_up_nest by lia.
  destruct (round_half_even_choice Cp j') as [->|[-> Hev]].
  - now rewrite Hu.
  - rewrite Hu. apply round_half_up_step; [assumption|lia|].
    intros Hb.
    apply (no_round_up_onto_boundary ca cb shift C0 rem (C0 / 10 ^ j)
             (C0 mod 10 ^ j) j (K - j) nb); try assumption; try lia.
Qed.

(** Adding the sticky unit to a coefficient that ends in 0 or 5 touches
    neither the digits above the last [j] nor the direction in which the
    last [j] digits round. *)
Lemma sticky_no_carry (C j : Z) :
  0 <= C -> 1 <= j -> C mod 5 = 0 ->
  (C + 1) / 10 ^ j = C / 10 ^ j
  /\ (10 ^ j <= 2 * ((C + 1) mod 10 ^ j) -> 10 ^ j <= 2 * (C mod 10 ^ j)).
Proof.
  intros HC Hj H5.
  pose proof (pow10_pos (j - 1) ltac:(lia)) as HP1.
  assert (EP : 10 ^ j = 10 * 10 ^ (j - 1)).
  { replace j with (j - 1 + 1) at 1 by lia. now rewrite pow10_succ by lia. }
  set (P1 := 10 ^ (j - 1)) in *. rewrite EP. clearbody P1. clear EP.
  pose proof (Z.div_mod C (10 * P1) ltac:(lia)) as Hdm.
  pose proof (Z.mod_pos_bound C (10 * P1) ltac:(lia)) as Hl.
  pose proof (Z.div_mod C 5 ltac:(lia)) as Hdm5. rewrite H5 in Hdm5.
  set (u := C / (10 * P1)) in *. set (l := C mod (10 * P1)) in *.
  set (t := C / 5) in *. clearbody u l t.
  assert (Hl5 : l = 5 * (t - 2 * P1 * u)) by lia.
  assert (Hl1 : l + 1 < 10 * P1) by lia.
  assert (Ediv : (C + 1) / (10 * P1) = u).
  { symmetry. apply Z.div_unique with (r := l + 1); [left; lia|lia]. }
  assert (Emod : (C + 1) mod (10 * P1) = l + 1).
  { symmetry. apply Z.mod_unique with (q := u); [left; lia|lia]. }
  rewrite Ediv, Emod. split; [reflexivity|]. lia.
Qed.

(** The dividend is shifted so that the integer quotient has 29 or 30
    digits. *)
Lemma quotient_digits (ca cb : Z) :
  let shift := ndigits cb - ndigits ca + prec + 1 in
  0 < ca -> 0 < cb -> 0 <= shift ->
  10 ^ prec <= ca * 10 ^ shift / cb < 10 ^ (prec + 2).
Proof.
  intros shift Hca Hcb Hsh.
  destruct (ndigits_spec ca Hca) as (Ha1 & Ha2 & Ha3).
  destruct (ndigits_spec cb Hcb) as (Hb1 & Hb2 & Hb3).
  set (na := ndigits ca) in *. set (nb := ndigits cb) in *.
  assert (Es : shift = nb - na + prec + 1) by reflexivity.
  clearbody shift na nb.
  pose proof (pow10_pos shift Hsh) as HPs.
  assert (E1 : 10 ^ (na - 1) * 10 ^ shift = 10 ^ nb * 10 ^ prec).
  { rewrite <- !Z.pow_add_r by (unfold prec in *; lia).
    f_equal. lia. }
  assert (E2 : 10 ^ na * 10 ^ shift = 10 ^ (nb - 1) * 10 ^ (prec + 2)).
  { rewrite <- !Z.pow_add_r by (unfold prec in *; lia).
    f_equal. lia. }
  pose proof (pow10_pos prec ltac:(unfold prec; lia)) as HPp.
  pose proof (pow10_pos (prec + 2) ltac:(unfold prec; lia)) as HPp2.
  assert (L1 : 10 ^ (na - 1) * 10 ^ shift <= ca * 10 ^ shift)
    by (apply Z.mul_le_mono_nonneg_r; lia).
  assert (L2 : ca * 10 ^ shift < 10 ^ na * 10 ^ shift)
    by (apply Z.mul_lt_mono_pos_r; lia).
  assert (L3 : cb * 10 ^ prec <= 10 ^ nb * 10 ^ prec)
    by (apply Z.mul_le_mono_nonneg_r; lia).
  assert (L4 : 10 ^ (nb - 1) * 10 ^ (prec + 2) <= cb * 10 ^ (prec + 2))
    by (apply Z.mul_le_mono_nonneg_r; lia).
  split.
  - apply Z.div_le_lower_bound; lia.
  - apply Z.div_lt_upper_bound; lia.
Qed.

Lemma div_eucl_div_mod (a b : Z) : Z.div_eucl a b = (a / b, a mod b).
Proof.
  unfold Z.div, Z.modulo. now destruct (Z.div_eucl a b).
Qed.

Lemma ndigits_range (c lo hi : Z) :
  0 <= lo -> lo < hi -> 10 ^ lo <= c < 10 ^ hi -> lo < ndigits c <= hi.
Proof.
  intros Hlo Hhi [H1 H2].
  pose proof (pow10_pos lo Hlo) as Hp.
  destruct (ndigits_spec c ltac:(lia)) as (Hn1 & Hn2 & Hn3).
  split.
  - destruct (Z.lt_ge_cases lo (ndigits c)) as [|Hge]; [assumption|].
    assert (10 ^ ndigits c <= 10 ^ lo) by (apply pow10_le; lia). lia.
  - apply ndigits_le; lia.
Qed.

(** The coefficient that [_fix] and [quantize] produce from the quotient
    before [_fix] -- the exact quotient with [z] zeros stripped, or the
    truncated quotient with its sticky unit -- is the truncated quotient
    [C0] rounded half-up once. *)
Lemma prefix_rounds (ca cb nb shift C0 rem Cp z e0 K : Z) :
  0 <= ca -> 0 < cb < 10 ^ nb -> 1 <= nb ->
  ca * 10 ^ shift = cb * C0 + rem -> 0 <= rem < cb ->
  10 ^ prec <= C0 < 10 ^ (prec + 2) ->
  nb + 2 <= shift -> K = -4 - e0 -> nb + 2 <= K ->
  0 <= z -> 0 < Cp ->
  (rem = 0 /\ C0 = Cp * 10 ^ z)
  \/ (z = 0 /\ Cp = if C0 mod 5 =? 0 then C0 + 1 else C0) ->
  quantized (fix_coeff Cp) (fix_exp Cp (e0 + z)) (-4) = round_half_up C0 K.
Proof.
  intros Hca Hcb Hnb HN Hrem HC0 Hsh HK HKnb Hz HCp Hcase.
  pose proof (pow10_pos prec ltac:(unfold prec; lia)) as HPp.
  pose proof (pow10_pos z Hz) as HPz.
  destruct (ndigits_spec Cp HCp) as (Hn1 & Hn2 & Hn3).
  (* the digits of [Cp] and the zeros stripped are at most 30 in all *)
  assert (Hnz : ndigits Cp + z <= prec + 2).
  { destruct (Z.le_gt_cases (ndigits Cp + z) (prec + 2)) as [|Hgt];
      [assumption|].
    assert (H30 : 10 ^ (prec + 2) <= 10 ^ (ndigits Cp - 1 + z))
      by (apply pow10_le; unfold prec in *; lia).
    rewrite (Z.pow_add_r 10 (ndigits Cp - 1) z) in H30 by lia.
    assert (10 ^ (ndigits Cp - 1) * 10 ^ z <= Cp * 10 ^ z)
      by (apply Z.mul_le_mono_nonneg_r; lia).
    destruct Hcase as [[_ E]|[-> E]].
    - lia.
    - rewrite Z.pow_0_r, !Z.mul_1_r in *.
      destruct (Z.eqb_spec (C0 mod 5) 0) as [H5|H5]; [|lia].
      assert (C0 + 1 < 10 ^ (prec + 2)); [|lia].
      pose proof (Z.div_mod C0 5 ltac:(lia)) as Hd. rewrite H5 in Hd.
      assert (E30 : 10 ^ (prec + 2) = 5 * (2 * 10 ^ (prec + 1)))
        by (vm_compute; reflexivity).
      lia. }
  unfold fix_coeff, fix_exp.
  destruct (Z.leb_spec (ndigits Cp) prec) as [Hfit|Hbig].
  - (* no rounding by the context: the quotient is exact *)
    destruct Hcase as [[_ E]|[-> E]].
    + rewrite <- quantized_scale by lia. rewrite <- E.
      unfold quantized. destruct (Z.leb_spec (-4) e0); [lia|].
      f_equal. lia.
    + exfalso.
      assert (10 ^ ndigits Cp <= 10 ^ prec) by (apply pow10_le; lia).
      destruct (C0 mod 5 =? 0); lia.
  - set (j' := ndigits Cp - prec) in *.
    assert (Hj' : 1 <= j') by (unfold j'; lia).
    assert (Hjz : j' + z <= 2) by (unfold j'; lia).
    clearbody j'.
    unfold quantized. destruct (Z.leb_spec (-4) (e0 + z + j')); [lia|].
    replace (-4 - (e0 + z + j')) with (K - (j' + z)) by lia.
    apply (rate_core ca cb nb shift C0 rem Cp z j' K);
      try assumption; try lia.
    + destruct Hcase as [[_ E]|[-> E]].
      * rewrite E, Z.pow_add_r by lia.
        rewrite Z.div_mul_cancel_r; [reflexivity|apply Z.pow_nonzero; lia|lia].
      * rewrite Z.add_0_r.
        destruct (Z.eqb_spec (C0 mod 5) 0) as [H5|H5]; rewrite E;
          [|reflexivity].
        apply sticky_no_carry; lia.
    + destruct Hcase as [[_ E]|[-> E]].
      * intros Hup. rewrite E, Z.pow_add_r by lia.
        rewrite Z.mul_mod_distr_r by (try apply Z.pow_nonzero; lia).
        pose proof (pow10_pos j' ltac:(lia)) as HPj.
        assert (10 ^ j' * 10 ^ z <= 2 * (Cp mod 10 ^ j') * 10 ^ z)
          by (apply Z.mul_le_mono_nonneg_r; lia).
        lia.
      * rewrite Z.add_0_r.
        destruct (Z.eqb_spec (C0 mod 5) 0) as [H5|H5]; rewrite E;
          [|tauto].
        apply sticky_no_carry; lia.
Qed.

(** The Decimal quotient of a short dividend by a divisor of at most 28
    digits, as [quantize] will see it: rounded to four places it is the
    truncated 29- or 30-digit quotient rounded half-up once. *)
Lemma div_quantized (a b : Decimal) :
  let ca := Z.of_N (dint a) in
  let cb := Z.of_N (dint b) in
  let shift := ndigits cb - ndigits ca + prec + 1 in
  let K := shift - 4 - (dexp a - dexp b) in
  0 < ca -> 0 < cb < 10 ^ prec ->
  ca * 10 ^ Z.max (dexp a - dexp b + 4) 0 < 10 ^ (prec - 1) ->
  Etiny + 56 <= dexp a - dexp b ->
  0 <= shift /\ 3 <= K
  /\ exists q,
       div a b = Return q /\ dsign q = xorb (dsign a) (dsign b)
       /\ 0 < Z.of_N (dint q) < 10 ^ prec
       /\ quantized (Z.of_N (dint q)) (dexp q) (-4)
          = round_half_up (ca * 10 ^ shift / cb) K.
Proof.
  intros ca cb shift K Hca Hcb Hdom Hexp.
  destruct (ndigits_spec ca Hca) as (Ha1 & Ha2 & Ha3).
  destruct (ndigits_spec cb ltac:(lia)) as (Hb1 & Hb2 & Hb3).
  assert (Hnb : ndigits cb <= prec)
    by (apply ndigits_le; [lia|unfold prec; lia|lia]).
  set (d := dexp a - dexp b) in *.
  assert (Hna : ndigits ca + Z.max (d + 4) 0 <= prec - 1).
  { destruct (Z.le_gt_cases (ndigits ca + Z.max (d + 4) 0) (prec - 1))
      as [|Hgt]; [assumption|].
    assert (H1 : 10 ^ (prec - 1) <= 10 ^ (ndigits ca - 1 + Z.max (d + 4) 0))
      by (apply pow10_le; unfold prec in *; lia).
    rewrite (Z.pow_add_r 10 (ndigits ca - 1) (Z.max (d + 4) 0)) in H1 by lia.
    pose proof (pow10_pos (Z.max (d + 4) 0) ltac:(lia)).
    assert (10 ^ (ndigits ca - 1) * 10 ^ Z.max (d + 4) 0
            <= ca * 10 ^ Z.max (d + 4) 0)
      by (apply Z.mul_le_mono_nonneg_r; lia).
    lia. }
  set (na := ndigits ca) in *. set (nb := ndigits cb) in *.
  assert (Es : shift = nb - na + prec + 1) by reflexivity.
  assert (EK : K = shift - 4 - d) by reflexivity.
  assert (Hsh : nb + 2 <= shift) by lia.
  assert (HK : nb + 2 <= K) by lia.
  assert (Hsh56 : shift <= 56) by (unfold prec in *; lia).
  assert (Hd : d <= prec) by lia.
  split; [lia|]. split; [lia|].
  pose proof (quotient_digits ca cb Hca ltac:(lia)) as HC0.
  cbn zeta in HC0. fold na nb in HC0. rewrite <- Es in HC0.
  specialize (HC0 ltac:(lia)).
  pose proof (pow10_pos shift ltac:(lia)) as HPs.
  pose proof (Z.div_mod (ca * 10 ^ shift) cb ltac:(lia)) as HN.
  pose proof (Z.mod_pos_bound (ca * 10 ^ shift) cb ltac:(lia)) as Hrem.
  (* the code *)
  assert (Hdiv :
    div a b =
    let '(coeff, e) :=
      if (ca * 10 ^ shift) mod cb =? 0
      then strip_zeros (Z.to_nat shift) (ca * 10 ^ shift / cb) (d - shift) d
      else (if (ca * 10 ^ shift / cb) mod 5 =? 0
            then ca * 10 ^ shift / cb + 1 else ca * 10 ^ shift / cb,
            d - shift) in
    fix_ (mkDecimal (xorb (dsign a) (dsign b)) (Z.to_N coeff) e)).
  { unfold div. fold ca cb na nb. rewrite <- Es. fold d.
    destruct (Z.eqb_spec cb 0); [lia|].
    destruct (Z.eqb_spec ca 0); [lia|].
    destruct (Z.leb_spec 0 shift); [|lia].
    rewrite div_eucl_div_mod.
    replace (d - (d - shift)) with shift by lia. reflexivity. }
  rewrite Hdiv. clear Hdiv.
  set (C0 := ca * 10 ^ shift / cb) in *.
  set (rem := (ca * 10 ^ shift) mod cb) in *.
  set (sg := xorb (dsign a) (dsign b)).
  clearbody C0 rem shift K na nb sg.
  assert (Hfinish :
    forall Cp z, 0 <= z <= shift -> 0 < Cp -> ndigits Cp <= prec + 2 ->
      (rem = 0 /\ C0 = Cp * 10 ^ z)
      \/ (z = 0 /\ Cp = if C0 mod 5 =? 0 then C0 + 1 else C0) ->
      exists q,
        fix_ (mkDecimal sg (Z.to_N Cp) (d - shift + z)) = Return q
        /\ dsign q = sg /\ 0 < Z.of_N (dint q) < 10 ^ prec
        /\ quantized (Z.of_N (dint q)) (dexp q) (-4) = round_half_up C0 K).
  { intros Cp z Hz HCp HnCp Hcase.
    destruct (fix_round sg Cp (d - shift + z)) as (c1 & e1 & Hf & Hc1 & He1 & Hq).
    - assumption.
    - unfold Etiny, Etop, Emin, Emax, prec in *. lia.
    - unfold Etiny, Etop, Emin, Emax, prec in *. lia.
    - exists (mkDecimal sg (Z.to_N c1) e1). cbn [dint dexp dsign].
      rewrite Z2N.id by lia.
      split; [assumption|]. split; [reflexivity|]. split; [assumption|].
      rewrite Hq.
      apply (prefix_rounds ca cb nb shift C0 rem Cp z (d - shift) K);
        try assumption; try lia. }
  destruct (Z.eqb_spec rem 0) as [Hr0|Hr0].
  - destruct (strip_zeros_spec (Z.to_nat shift) C0 (d - shift) d)
      as (z & c' & Hz & Hs & Hc).
    rewrite Hs. rewrite Z2Nat.id in Hz by lia.
    pose proof (pow10_pos z ltac:(lia)) as HPz.
    assert (Hc' : 0 < c').
    { destruct (Z.lt_ge_cases 0 c') as [|Hle]; [assumption|].
      assert (c' * 10 ^ z <= 0 * 10 ^ z)
        by (apply Z.mul_le_mono_nonneg_r; lia).
      pose proof (pow10_pos prec ltac:(unfold prec; lia)). lia. }
    apply Hfinish; try assumption; [|left; split; assumption].
    apply ndigits_le; [lia|unfold prec; lia|].
    assert (c' * 1 <= c' * 10 ^ z) by (apply Z.mul_le_mono_nonneg_l; lia).
    lia.
  - replace (d - shift) with (d - shift + 0) by lia.
    pose proof (pow10_pos prec ltac:(unfold prec; lia)) as HPp.
    apply Hfinish; [lia| | |right; split; reflexivity].
    + destruct (C0 mod 5 =? 0); lia.
    + apply ndigits_le; [destruct (C0 mod 5 =? 0); lia|unfold prec; lia|].
      destruct (Z.eqb_spec (C0 mod 5) 0) as [H5|H5]; [|lia].
      pose proof (Z.div_mod C0 5 ltac:(lia)) as Hd5. rewrite H5 in Hd5.
      assert (E30 : 10 ^ (prec + 2) = 5 * (2 * 10 ^ (prec + 1)))
        by (vm_compute; reflexivity).
      lia.
Qed.

Lemma round_half_up_small (C K : Z) :
  0 <= C < 10 ^ (prec + 2) -> 3 <= K -> 0 <= round_half_up C K <= 10 ^ (prec - 1).
Proof.
  intros [HC Hlt] HK.
  split; [apply round_half_up_nonneg; lia|].
  pose proof (round_half_up_bounds C K HC ltac:(lia)) as [_ Hb].
  assert (10 ^ 3 <= 10 ^ K) by (apply pow10_le; lia).
  change (10 ^ 3) with 1000 in H.
  assert (C / 10 ^ K <= C / 1000) by (apply Z.div_le_compat_l; lia).
  assert (C / 1000 < 10 ^ (prec - 1)).
  { apply Z.div_lt_upper_bound; [lia|].
    change (1000 * 10 ^ (prec - 1)) with (10 ^ (prec + 2)). exact Hlt. }
  lia.
Qed.

(** Half-up rounding of an exact quotient [N / (c * 10^K)] is half-up
    rounding of the truncated quotient [N / c] at [K] digits. *)
Lemma floor_quotient_half (N c K : Z) :
  0 <= N -> 0 < c -> 1 <= K ->
  (2 * N + c * 10 ^ K) / (2 * (c * 10 ^ K)) = round_half_up (N / c) K.
Proof.
  intros HN Hc HK.
  assert (0 <= N / c) by (apply Z.div_pos; lia).
  rewrite round_half_up_alt by lia.
  pose proof (pow10_pos (K - 1) ltac:(lia)) as Hp.
  assert (EK : 10 ^ K = 2 * (5 * 10 ^ (K - 1))).
  { replace K with (K - 1 + 1) at 1 by lia. rewrite pow10_succ by lia. ring. }
  rewrite EK. set (h := 5 * 10 ^ (K - 1)).
  assert (Hh : 0 < h) by (unfold h; lia). clearbody h.
  replace (2 * N + c * (2 * h)) with (2 * (N + h * c)) by ring.
  rewrite Z.div_mul_cancel_l by lia.
  rewrite <- Z.div_div by lia.
  now rewrite Z.div_add by lia.
Qed.

Lemma qval_nonzero (z e : Z) : z <> 0 -> ~ qval z e == 0.
Proof.
  intros Hz. unfold qval, Qeq.
  destruct (Z.leb_spec 0 e); cbn [Qnum Qden inject_Z].
  - pose proof (pow10_pos e ltac:(lia)). nia.
  - lia.
Qed.

(** The exact quotient of two decimals as one fraction, for any shift [s]
    of the dividend that leaves a non-negative power of ten in the
    denominator. *)
Lemma qval_div (sa ea sb eb s : Z) :
  sb <> 0 -> 0 <= s -> 0 <= s - (ea - eb) ->
  qval sa ea / qval sb eb
  == Qmake (sa * Z.sgn sb * 10 ^ s)
       (Z.to_pos (Z.abs sb * 10 ^ (s - (ea - eb)))).
Proof.
  intros Hsb Hs HK.
  set (z := Qmake (sa * Z.sgn sb * 10 ^ s)
              (Z.to_pos (Z.abs sb * 10 ^ (s - (ea - eb))))).
  assert (E : qval sa ea == z * qval sb eb).
  { set (L := Z.min (Z.min ea eb) 0).
    pose proof (qval_at sa ea L ltac:(lia) ltac:(lia)) as E1.
    pose proof (qval_at sb eb L ltac:(lia) ltac:(lia)) as E2.
    rewrite E1, E2. unfold z, Qeq, Qmult. cbn [Qnum Qden].
    pose proof (pow10_pos (s - (ea - eb)) HK) as HpK.
    pose proof (pow10_pos (- L) ltac:(lia)) as HpL.
    rewrite Pos2Z.inj_mul, Zpos_to_pos_pow10 by lia.
    rewrite Z2Pos.id by (apply Z.mul_pos_pos; lia).
    assert (Epow : 10 ^ (ea - L) * 10 ^ (s - (ea - eb))
                   = 10 ^ s * 10 ^ (eb - L)).
    { rewrite <- !Z.pow_add_r by lia. f_equal. lia. }
    assert (Esgn : Z.sgn sb * sb = Z.abs sb) by lia.
    transitivity (sa * Z.abs sb * (10 ^ (ea - L) * 10 ^ (s - (ea - eb)))
                  * 10 ^ (- L)); [ring|].
    rewrite Epow, <- Esgn. ring. }
  rewrite E. apply Qdiv_mult_l. now apply qval_nonzero.
Qed.

(** The specification's rounding of an exact quotient of decimals to four
    places, through the truncated shifted quotient the code computes. *)
Lemma round_half_up_Q_div (sa ea sb eb s : Z) :
  sb <> 0 -> 0 <= s -> 1 <= s - 4 - (ea - eb) ->
  round_half_up_Q (qval sa ea / qval sb eb) 4
  = Qmake
      (if 0 <=? sa * Z.sgn sb
       then round_half_up (Z.abs sa * 10 ^ s / Z.abs sb) (s - 4 - (ea - eb))
       else - round_half_up (Z.abs sa * 10 ^ s / Z.abs sb) (s - 4 - (ea - eb)))
      (Z.to_pos (10 ^ 4)).
Proof.
  intros Hsb Hs HK.
  rewrite (round_half_up_Q_wd _ _ 4
             (qval_div sa ea sb eb s Hsb Hs ltac:(lia))).
  set (K := s - 4 - (ea - eb)) in *.
  replace (s - (ea - eb)) with (K + 4) by (unfold K; lia).
  pose proof (pow10_pos s Hs) as Hps.
  pose proof (pow10_pos K ltac:(lia)) as HpK.
  pose proof (pow10_pos (K + 4) ltac:(lia)) as HpK4.
  assert (Hab : 0 < Z.abs sb) by lia.
  assert (HP : 0 < Z.abs sb * 10 ^ (K + 4)) by (apply Z.mul_pos_pos; lia).
  unfold round_half_up_Q. f_equal.
  assert (Hsign : Qle_bool 0
                    (sa * Z.sgn sb * 10 ^ s
                     # Z.to_pos (Z.abs sb * 10 ^ (K + 4)))
                  = (0 <=? sa * Z.sgn sb)).
  { unfold Qle_bool. cbn [Qnum Qden].
    rewrite Z.mul_0_l, Z.mul_1_r.
    destruct (Z.leb_spec 0 (sa * Z.sgn sb)) as [H|H].
    - apply Z.leb_le. apply Z.mul_nonneg_nonneg; lia.
    - apply Z.leb_gt. apply Z.mul_neg_pos; lia. }
  rewrite Hsign.
  assert (Hm : Qfloor (Qabs (sa * Z.sgn sb * 10 ^ s
                             # Z.to_pos (Z.abs sb * 10 ^ (K + 4)))
                       * inject_Z (10 ^ 4) + (1 # 2))
               = round_half_up (Z.abs sa * 10 ^ s / Z.abs sb) K).
  { unfold Qfloor, Qabs, Qplus, Qmult, inject_Z. cbn [Qnum Qden].
    rewrite !Pos2Z.inj_mul, Z2Pos.id by assumption.
    rewrite !Z.abs_mul, (Z.abs_eq (10 ^ s)) by lia.
    replace (Z.abs (Z.sgn sb)) with 1 by lia.
    rewrite <- floor_quotient_half
      by (try apply Z.mul_nonneg_nonneg; lia).
    rewrite (Z.pow_add_r 10 K 4) by lia.
    set (N := Z.abs sa * 10 ^ s). set (c := Z.abs sb) in *.
    set (M := 10 ^ K) in *.
    replace (Z.abs sa * 1 * 10 ^ s * 10 ^ 4 * 2 + 1 * (c * (M * 10 ^ 4) * 1))
      with ((2 * N + c * M) * 10 ^ 4) by (unfold N; ring).
    replace (c * (M * 10 ^ 4) * 1 * 2) with (2 * (c * M) * 10 ^ 4) by ring.
    assert (0 < c * M) by (apply Z.mul_pos_pos; lia).
    rewrite Z.div_mul_cancel_r; [reflexivity|lia|].
    apply Z.pow_nonzero; lia. }
  now rewrite Hm.
Qed.

(** ** What [quantize] returns *)

Lemma fix_small (d r : Decimal) :
  ndigits (Z.of_N (dint d)) <= prec -> Etiny <= dexp d <= Emax ->
  fix_ d = Return r -> r = d.
Proof.
  intros Hn He. unfold fix_.
  destruct (Z.eqb_spec (Z.of_N (dint d)) 0) as [Hz|Hz].
  - intros H. injection H as <-. destruct d as [s c e]. cbn [dsign dint dexp] in *.
    f_equal; lia.
  - destruct (Z.gtb_spec (ndigits (Z.of_N (dint d)) + dexp d - prec) Etop)
      as [|Htop]; [discriminate|].
    set (exp_min := if ndigits (Z.of_N (dint d)) + dexp d - prec <? Etiny
                    then Etiny
                    else ndigits (Z.of_N (dint d)) + dexp d - prec).
    assert (Hle : exp_min <= dexp d).
    { unfold exp_min.
      destruct (Z.ltb_spec (ndigits (Z.of_N (dint d)) + dexp d - prec) Etiny); lia. }
    destruct (Z.ltb_spec (dexp d) exp_min) as [Hlt|Hge]; [lia|].
    intros H. now injection H as <-.
Qed.

Lemma rescale_fields (d : Decimal) (k : Z) (m : rounding) :
  dexp (rescale d k m) = k /\ dsign (rescale d k m) = dsign d.
Proof.
  unfold rescale.
  destruct (Z.of_N (dint d) =? 0); [split; reflexivity|].
  destruct (k <=? dexp d); split; reflexivity.
Qed.

Lemma quantize_returns (d r : Decimal) (k : Z) (m : rounding) :
  quantize d k m = Return r ->
  dexp r = k /\ dsign r = dsign d /\ Z.of_N (dint r) < 10 ^ prec.
Proof.
  unfold quantize.
  destruct (Z.leb_spec Etiny k) as [Hk1|]; cbn [andb negb]; [|discriminate].
  destruct (Z.leb_spec k Emax) as [Hk2|]; cbn [negb]; [|discriminate].
  assert (H28 : 0 < 10 ^ prec) by (apply pow10_pos; unfold prec; lia).
  destruct (Z.eqb_spec (Z.of_N (dint d)) 0) as [Hz|Hz].
  - intros H. apply fix_small in H; cbn [dint dexp]; try lia.
    + subst r. cbn [dint dexp dsign]. split; [reflexivity|]. split; [reflexivity|].
      exact H28.
    + change (Z.of_N 0) with 0. rewrite ndigits_zero. unfold prec. lia.
  - destruct (adjusted d >? Emax); [discriminate|].
    destruct (adjusted d - k + 1 >? prec); [discriminate|].
    destruct (adjusted (rescale d k m) >? Emax); [discriminate|].
    destruct (Z.gtb_spec (ndigits (Z.of_N (dint (rescale d k m)))) prec) as [|Hn];
      [discriminate|].
    destruct (rescale_fields d k m) as [He Hs].
    intros H. apply fix_small in H; try lia. subst r.
    split; [exact He|]. split; [exact Hs|].
    destruct (Z.eq_dec (Z.of_N (dint (rescale d k m))) 0) as [E|E]; [lia|].
    destruct (ndigits_spec (Z.of_N (dint (rescale d k m))) ltac:(lia))
      as (_ & _ & Hlt).
    assert (10 ^ ndigits (Z.of_N (dint (rescale d k m))) <= 10 ^ prec).
    { apply pow10_le. split; [|exact Hn].
      destruct (ndigits_spec (Z.of_N (dint (rescale d k m))) ltac:(lia)); lia. }
    lia.
Qed.

(** ** The comparison of the rate with the standard rate *)

(** Lines 126-127 on a rate with four places within the context precision:
    the flag compares the distance to 0.1800, in units of 0.0001, with
    100. When the difference does not fit the 28 digits it is rounded, and
    stays far above 0.01. *)
Lemma rate_flag (r : Decimal) :
  dexp r = -4 -> Z.of_N (dint r) < 10 ^ prec ->
  exists d a,
    sub r TaxCalculator.VAT_RATE_STANDARD = Return d
    /\ Dec.abs d = Return a
    /\ Dec.ltb a (mkDecimal false 1 (-2)) = (Z.abs (sval r - 1800) <? 100).
Proof.
  intros He Hc.
  assert (H28 : 10 ^ prec = 10000000000000000000000000000) by reflexivity.
  destruct (Z.lt_ge_cases (Z.abs (sval r - 1800)) (10 ^ prec)) as [Hfit|Hbig].
  - (* the difference is exact *)
    pose proof (sub_exact r TaxCalculator.VAT_RATE_STANDARD) as Hsub.
    cbn zeta in Hsub.
    change (dexp TaxCalculator.VAT_RATE_STANDARD) with (-2) in Hsub.
    rewrite He in Hsub.
    change (Z.min (-4) (-2)) with (-4) in Hsub.
    change (sval TaxCalculator.VAT_RATE_STANDARD * 10 ^ (-2 - -4)) with 1800 in Hsub.
    change (10 ^ (-4 - -4)) with 1 in Hsub.
    rewrite Z.mul_1_r in Hsub.
    destruct Hsub as (d & Ed & Hd & Hde);
      [exact Hfit|unfold Etiny, Etop, Emin, Emax, prec; lia|].
    assert (Hdi : Z.of_N (dint d) = Z.abs (sval r - 1800)).
    { rewrite <- Hd. symmetry. apply sval_abs. }
    exists d, (mkDecimal false (dint d) (dexp d)).
    split; [exact Ed|]. split.
    + unfold Dec.abs. apply fix_fits. unfold fits. cbn [dint dexp].
      rewrite Hde, Hdi. split; [exact Hfit|].
      unfold Etiny, Etop, Emin, Emax, prec. lia.
    + unfold Dec.ltb, Dec.compare. cbn [dexp]. rewrite Hde.
      change (Z.min (-4) (-2)) with (-4).
      rewrite sval_mk, Hdi.
      change (10 ^ (-4 - -4)) with 1.
      change (sval (mkDecimal false 1 (-2)) * 10 ^ (-2 - -4)) with 100.
      rewrite Z.mul_1_r.
      unfold Z.ltb. reflexivity.
  - (* the difference has 29 digits and is rounded *)
    set (z := sval r - 1800) in *.
    assert (Hzr : Z.abs z < 10 ^ (prec + 1)).
    { change (10 ^ (prec + 1)) with 100000000000000000000000000000.
      pose proof (sval_abs r). lia. }
    assert (Hn : prec < ndigits (Z.abs z) <= prec + 1).
    { apply ndigits_range; [unfold prec; lia|lia|lia]. }
    destruct (fix_round (z <? 0) (Z.abs z) (-4)) as (c1 & e1 & E1 & Hc1 & He1 & Hq).
    { lia. }
    { unfold Etiny, Etop, Emin, Emax, prec. lia. }
    { unfold Etop, Emax, prec in *. lia. }
    assert (Esub : sub r TaxCalculator.VAT_RATE_STANDARD
                   = Return (mkDecimal (z <? 0) (Z.to_N c1) e1)).
    { unfold sub, add. cbn [dexp copy_negate TaxCalculator.VAT_RATE_STANDARD].
      rewrite He. change (Z.min (-4) (-2)) with (-4).
      change (10 ^ (-4 - -4)) with 1.
      change (sval (copy_negate TaxCalculator.VAT_RATE_STANDARD) * 10 ^ (-2 - -4))
        with (-1800).
      replace (sval r * 1 + -1800) with z by (unfold z; lia).
      unfold of_signed.
      replace (z =? 0) with false by (symmetry; apply Z.eqb_neq; lia).
      rewrite <- E1. f_equal. f_equal.
      apply N2Z.inj. rewrite N2Z.inj_abs_N, Z2N.id; lia. }
    unfold fix_exp, fix_coeff in He1, Hq.
    replace (ndigits (Z.abs z) <=? prec) with false in He1, Hq
      by (symmetry; apply Z.leb_gt; lia).
    exists (mkDecimal (z <? 0) (Z.to_N c1) e1), (mkDecimal false (Z.to_N c1) e1).
    split; [exact Esub|]. split.
    + unfold Dec.abs. apply fix_fits. unfold fits. cbn [dint dexp].
      rewrite Z2N.id by lia. split; [lia|].
      unfold Etiny, Etop, Emin, Emax, prec in *. lia.
    + replace (Z.abs z <? 100) with false by (symmetry; apply Z.ltb_ge; lia).
      specialize (Hq (-4)). unfold quantized in Hq.
      replace (-4 <=? e1) with true in Hq by (symmetry; apply Z.leb_le; lia).
      replace (-4 <=? -4 + (ndigits (Z.abs z) - prec)) with true in Hq
        by (symmetry; apply Z.leb_le; lia).
      set (j := ndigits (Z.abs z) - prec) in *.
      assert (Hj : 1 <= j <= 1) by (unfold j; lia).
      replace (-4 + j - -4) with j in Hq by lia.
      assert (Ej : j = 1) by lia. rewrite Ej in Hq. change (10 ^ 1) with 10 in Hq.
      assert (Hrhe : 1000000000000000000000000000 <= round_half_even (Z.abs z) 1).
      { assert (1000000000000000000000000000 <= Z.abs z / 10 ^ 1).
        { apply Z.div_le_lower_bound; [reflexivity|].
          change (10 ^ 1) with 10. lia. }
        destruct (round_half_even_choice (Z.abs z) 1) as [E|[E _]]; lia. }
      assert (Hbig1 : 10000000000000000000000000000 <= c1 * 10 ^ (e1 - -4)).
      { rewrite Hq. lia. }
      unfold Dec.ltb, Dec.compare. cbn [dexp]. rewrite !sval_mk, Z2N.id by lia.
      change (Z.of_N 1) with 1. rewrite Z.mul_1_l.
      assert (He1' : e1 = -4 \/ e1 = -3 \/ e1 = -2) by lia.
      destruct He1' as [->|[->| ->]]; vm_compute Z.min.
      * exfalso. change (10 ^ (-4 - -4)) with 1 in Hbig1. lia.
      * change (10 ^ (-3 - -3)) with 1. change (10 ^ (-2 - -3)) with 10.
        change (10 ^ (-3 - -4)) with 10 in Hbig1.
        change (10 ^ (-2 - -4)) with 100 in Hbig1.
        destruct (Z.compare_spec (c1 * 1) 10); [reflexivity|lia|reflexivity].
      * change (10 ^ (-2 - -2)) with 1.
        destruct (Z.compare_spec (c1 * 1) 1); [reflexivity|lia|reflexivity].
Qed.

(** ** The effective VAT rate *)

(** [verify_vat_rate] in closed form, for a non-zero VAT and a non-zero base
    within the range in which the quotient, rounded to the 28 digits of the
    context and then to four places, is the exact quotient rounded once. *)
Lemma verify_vat_rate_exact (vat base : Decimal) :
  let ca := Z.of_N (dint vat) in
  let cb := Z.of_N (dint base) in
  let shift := ndigits cb - ndigits ca + prec + 1 in
  let K := shift - 4 - (dexp vat - dexp base) in
  let R := round_half_up (ca * 10 ^ shift / cb) K in
  let sg := xorb (dsign vat) (dsign base) in
  0 < ca -> 0 < cb < 10 ^ prec ->
  ca * 10 ^ Z.max (dexp vat - dexp base + 4) 0 < 10 ^ (prec - 1) ->
  Etiny + 56 <= dexp vat - dexp base ->
  0 <= shift /\ 3 <= K /\ 0 <= R <= 10 ^ (prec - 1)
  /\ TaxCalculator.verify_vat_rate vat base
     = Return (mkDecimal sg (Z.to_N R) (-4),
               Z.abs ((if sg then - R else R) - 1800) <? 100).
Proof.
  intros ca cb shift K R sg Hca Hcb Hdom Hexp.
  destruct (div_quantized vat base Hca Hcb Hdom Hexp)
    as (Hsh & HK & q & Eq & Hsg & Hcq & HQ).
  fold ca cb shift in Hsh, HK, HQ. fold K in HK, HQ. fold R in HQ.
  pose proof (quotient_digits ca cb Hca ltac:(lia) Hsh) as HC0.
  cbn zeta in HC0. fold shift in HC0.
  assert (H28 : 0 < 10 ^ prec) by (apply pow10_pos; unfold prec; lia).
  assert (HR : 0 <= R <= 10 ^ (prec - 1)).
  { apply round_half_up_small; [split; [lia|apply HC0]|exact HK]. }
  assert (H27 : 10 ^ (prec - 1) < 10 ^ prec) by (apply pow10_lt; unfold prec; lia).
  split; [exact Hsh|]. split; [exact HK|]. split; [exact HR|].
  unfold TaxCalculator.verify_vat_rate.
  rewrite eqb_zero.
  replace (N.eqb (dint base) 0) with false
    by (symmetry; apply N.eqb_neq; fold cb in Hcb; lia).
  rewrite Eq. cbn [bind].
  rewrite quantize_exact.
  2:{ unfold Etiny, Etop, Emin, Emax, prec. lia. }
  2:{ rewrite HQ. lia. }
  2:{ intros Hlt.
      assert (10 ^ prec <= 10 ^ (prec + -4 - dexp q)) by (apply pow10_le; unfold prec; lia).
      lia. }
  rewrite HQ, Hsg. fold sg. cbn [bind].
  set (r := mkDecimal sg (Z.to_N R) (-4)).
  assert (Hsr : sval r = if sg then - R else R).
  { unfold r. rewrite sval_mk, Z2N.id by lia. reflexivity. }
  destruct (rate_flag r) as (d & a & Ed & Ea & Hflag);
    [reflexivity|unfold r; cbn [dint]; rewrite Z2N.id; lia|].
  rewrite Ed. cbn [bind]. rewrite Ea. cbn [bind].
  now rewrite Hflag, Hsr.
Qed.

(** [verify_vat_rate] on a zero VAT and a non-zero base: the rate is a zero
    with four places, which is not the standard rate. *)
Lemma verify_vat_rate_zero (vat base : Decimal) :
  dint vat = 0%N -> dint base <> 0%N ->
  TaxCalculator.verify_vat_rate vat base
  = Return (mkDecimal (xorb (dsign vat) (dsign base)) 0 (-4), false).
Proof.
  intros Hv Hb.
  unfold TaxCalculator.verify_vat_rate.
  rewrite eqb_zero.
  replace (N.eqb (dint base) 0) with false by (symmetry; now apply N.eqb_neq).
  unfold div. rewrite Hv.
  replace (Z.of_N (dint base) =? 0) with false by (symmetry; apply Z.eqb_neq; lia).
  change (Z.of_N 0 =? 0) with true. cbv iota.
  destruct (fix_zero (xorb (dsign vat) (dsign base)) (dexp vat - dexp base))
    as (e' & E).
  rewrite E. cbn [bind].
  rewrite quantize_zero by (unfold Etiny, Etop, Emin, Emax, prec; lia).
  cbn [bind].
  destruct (xorb (dsign vat) (dsign base)); vm_compute; reflexivity.
Qed.

(** The rational value of a decimal with four places. *)
Lemma dval_four_places (s : bool) (R : Z) :
  0 <= R ->
  dval (mkDecimal s (Z.to_N R) (-4))
  = Qmake (if s then - R else R) (Z.to_pos (10 ^ 4)).
Proof.
  intros HR. unfold dval, qval. cbn [dexp].
  rewrite sval_mk, Z2N.id by assumption. reflexivity.
Qed.

Lemma sval_sign_product (a b : Decimal) (R : Z) :
  0 < Z.of_N (dint b) ->
  (Z.of_N (dint a) = 0 -> R = 0) ->
  (if xorb (dsign a) (dsign b) then - R else R)
  = (if 0 <=? sval a * Z.sgn (sval b) then R else - R).
Proof.
  intros Hb H0. unfold sval.
  destruct (Z.eq_dec (Z.of_N (dint a)) 0) as [E|E].
  - rewrite (H0 E), E. destruct (dsign a), (dsign b); reflexivity.
  - assert (0 < Z.of_N (dint a)) by lia.
    destruct (dsign a), (dsign b); cbn [xorb].
    + replace (0 <=? - Z.of_N (dint a) * Z.sgn (- Z.of_N (dint b))) with true;
        [reflexivity|]. symmetry. apply Z.leb_le. nia.
    + replace (0 <=? - Z.of_N (dint a) * Z.sgn (Z.of_N (dint b))) with false;
        [reflexivity|]. symmetry. apply Z.leb_gt. nia.
    + replace (0 <=? Z.of_N (dint a) * Z.sgn (- Z.of_N (dint b))) with false;
        [reflexivity|]. symmetry. apply Z.leb_gt. nia.
    + replace (0 <=? Z.of_N (dint a) * Z.sgn (Z.of_N (dint b))) with true;
        [reflexivity|]. symmetry. apply Z.leb_le. nia.
Qed.

Lemma round_half_up_0 (k : Z) : 0 <= k -> round_half_up 0 k = 0.
Proof.
  intros Hk. pose proof (pow10_pos k Hk) as Hp.
  unfold round_half_up. cbv zeta.
  rewrite Z.mod_0_l, Z.div_0_l by lia.
  destruct (Z.geb_spec (2 * 0) (10 ^ k)); [lia|reflexivity].
Qed.

(** The rate of [verify_vat_rate] within the exact range. *)
Lemma verify_vat_rate_value (vat base : Decimal) :
  0 < Z.of_N (dint base) < 10 ^ prec ->
  Z.of_N (dint vat) * 10 ^ Z.max (dexp vat - dexp base + 4) 0 < 10 ^ (prec - 1) ->
  Etiny + 56 <= dexp vat - dexp base ->
  exists r s,
    TaxCalculator.verify_vat_rate vat base = Return (r, s)
    /\ dexp r = -4
    /\ dval r == round_half_up_Q (dval vat / dval base) 4.
Proof.
  intros Hcb Hdom Hexp.
  assert (Hsb : sval base <> 0) by (unfold sval; destruct (dsign base); lia).
  destruct (Z.eq_dec (Z.of_N (dint vat)) 0) as [Hz|Hnz].
  - (* zero VAT *)
    rewrite verify_vat_rate_zero by lia.
    eexists _, _. split; [reflexivity|]. split; [reflexivity|].
    set (s := Z.max 0 (dexp vat - dexp base + 5)).
    unfold dval at 2 3.
    rewrite (round_half_up_Q_div (sval vat) (dexp vat) (sval base) (dexp base) s)
      by (unfold s; lia).
    rewrite (dval_four_places _ 0) by lia.
    rewrite !sval_abs, Hz, Z.mul_0_l, Z.div_0_l by lia.
    rewrite round_half_up_0 by (unfold s; lia).
    destruct (xorb (dsign vat) (dsign base)), (0 <=? sval vat * Z.sgn (sval base));
      reflexivity.
  - destruct (verify_vat_rate_exact vat base ltac:(lia) Hcb Hdom Hexp)
      as (Hsh & HK & HR & E).
    rewrite E. eexists _, _. split; [reflexivity|]. split; [reflexivity|].
    unfold dval at 2 3.
    rewrite (round_half_up_Q_div (sval vat) (dexp vat) (sval base) (dexp base) _
               Hsb Hsh ltac:(lia)).
    rewrite dval_four_places by lia.
    rewrite !sval_abs.
    rewrite (sval_sign_product vat base) by lia.
    reflexivity.
Qed.

(** X1. For a non-zero base of at most 28 digits and a VAT whose quotient
    by the base needs no more than the context's digits before the fourth
    place, [verify_vat_rate] returns a rate with exactly four places that
    is the exact rational quotient vat / base rounded half-up (ties away
    from zero) to four places: the rounding of the division to 28 digits
    never shows in the result. *)
Theorem verify_vat_rate_rounds_exact_quotient (vat base : Decimal) :
  0 < Z.of_N (dint base) < 10 ^ prec ->
  Z.of_N (dint vat) * 10 ^ Z.max (dexp vat - dexp base + 4) 0 < 10 ^ (prec - 1) ->
  Etiny + 56 <= dexp vat - dexp base ->
  exists r s,
    TaxCalculator.verify_vat_rate vat base = Return (r, s)
    /\ dexp r = -4
    /\ dval r == round_half_up_Q (dval vat / dval base) 4.
Proof. apply verify_vat_rate_value. Qed.

Lemma verify_vat_rate_rounds_exact_quotient_witness :
  exists r s,
    TaxCalculator.verify_vat_rate
      (mkDecimal false 90000000 (-2)) (mkDecimal false 500000000 (-2))
    = Return (r, s)
    /\ dexp r = -4
    /\ dval r
       == round_half_up_Q
            (dval (mkDecimal false 90000000 (-2))
             / dval (mkDecimal false 500000000 (-2))) 4.
Proof.
  apply verify_vat_rate_rounds_exact_quotient.
  - split; reflexivity.
  - reflexivity.
  - unfold Etiny, Emin, prec. cbn [dexp]. lia.
Defined.

(** The flag of [verify_vat_rate], whenever it returns. *)
Lemma verify_vat_rate_flag
    (vat base r : Decimal) (s : bool) :
  TaxCalculator.verify_vat_rate vat base = Return (r, s) ->
  (s = true <-> (Qabs (dval r - (18 # 100)) < 1 # 100)%Q)
  /\ (dint base <> 0%N -> dexp r = -4).
Proof.
  unfold TaxCalculator.verify_vat_rate. rewrite eqb_zero.
  destruct (N.eqb_spec (dint base) 0) as [Hb|Hb].
  - intros H. injection H as <- <-. split; [|contradiction].
    split; [discriminate|]. intros H. vm_compute in H. discriminate.
  - destruct (div vat base) as [q|]; cbn [bind]; [|discriminate].
    destruct (quantize q (-4) ROUND_HALF_UP) as [r'|] eqn:Eq; cbn [bind];
      [|discriminate].
    destruct (quantize_returns _ _ _ _ Eq) as (He & _ & Hc).
    destruct (rate_flag r' He Hc) as (d & a & Ed & Ea & Hflag).
    rewrite Ed. cbn [bind]. rewrite Ea. cbn [bind].
    intros H. injection H as <- <-. split; [|intros _; exact He].
    rewrite Hflag.
    unfold dval, qval. rewrite He. cbn [Z.leb Z.compare Z.opp].
    change (Z.to_pos (10 ^ 4)) with 10000%positive.
    unfold Qlt, Qabs, Qminus, Qplus, Qopp. cbn [Qnum Qden].
    rewrite Z.ltb_lt. change (Z.pos (10000 * 100)) with 1000000.
    change (Z.pos 100) with 100. lia.
Qed.

(** X2. Whenever [verify_vat_rate] returns, its flag is true exactly when
    the returned rate differs from 0.18 by less than 0.01; for a non-zero
    base the returned rate has exactly four decimal places. *)
Theorem verify_vat_rate_flag_iff_near_standard
    (vat base r : Decimal) (s : bool) :
  TaxCalculator.verify_vat_rate vat base = Return (r, s) ->
  (s = true <-> (Qabs (dval r - (18 # 100)) < 1 # 100)%Q)
  /\ (dint base <> 0%N -> dexp r = -4).
Proof. apply verify_vat_rate_flag. Qed.

Lemma verify_vat_rate_flag_iff_near_standard_witness :
  (true = true
   <-> (Qabs (dval (mkDecimal false 1800 (-4)) - (18 # 100)) < 1 # 100)%Q)
  /\ (dint (mkDecimal false 500000000 (-2)) <> 0%N
      -> dexp (mkDecimal false 1800 (-4)) = -4).
Proof.
  apply (verify_vat_rate_flag_iff_near_standard
           (mkDecimal false 90000000 (-2)) (mkDecimal false 500000000 (-2))).
  vm_compute. reflexivity.
Defined.

(** ** Decimal comparison and exact sums, as rationals *)

Lemma compare_dval (a b : Decimal) :
  Dec.compare a b = (dval a ?= dval b)%Q.
Proof.
  unfold Dec.compare, dval.
  set (e := Z.min (dexp a) (dexp b)). set (L := Z.min e 0).
  pose proof (qval_at (sval a) (dexp a) L ltac:(lia) ltac:(lia)) as E1.
  pose proof (qval_at (sval b) (dexp b) L ltac:(lia) ltac:(lia)) as E2.
  rewrite E1, E2. unfold Qcompare. cbn [Qnum Qden].
  pose proof (pow10_pos (- L) ltac:(lia)) as HpL.
  pose proof (pow10_pos (e - L) ltac:(lia)) as HpE.
  rewrite Zpos_to_pos_pow10 by lia.
  rewrite <- Zmult_compare_compat_r by lia.
  rewrite (pow10_split (dexp a) e L), (pow10_split (dexp b) e L) by lia.
  rewrite !Z.mul_assoc.
  now rewrite <- Zmult_compare_compat_r by lia.
Qed.

Lemma ltb_dval (a b : Decimal) : Dec.ltb a b = true <-> (dval a < dval b)%Q.
Proof.
  unfold Dec.ltb. rewrite compare_dval, Qlt_alt.
  destruct (dval a ?= dval b)%Q; split; congruence.
Qed.

Lemma leb_dval (a b : Decimal) : Dec.leb a b = true <-> (dval a <= dval b)%Q.
Proof.
  unfold Dec.leb. rewrite compare_dval, Qle_alt.
  destruct (dval a ?= dval b)%Q; split; congruence.
Qed.

Lemma dval_scaled (lo : Z) (d : Decimal) :
  lo <= dexp d -> lo <= 0 ->
  dval d == Qmake (scaled lo d) (Z.to_pos (10 ^ (- lo))).
Proof. intros. now apply qval_at. Qed.

Lemma scaled_abs_le (lo e z : Z) :
  lo <= e -> Z.abs z <= Z.abs (z * 10 ^ (e - lo)).
Proof.
  intros H. pose proof (pow10_pos (e - lo) ltac:(lia)).
  rewrite Z.abs_mul, (Z.abs_eq (10 ^ (e - lo))) by lia.
  pose proof (Z.abs_nonneg z). nia.
Qed.

Lemma add_scaled (lo : Z) (a b : Decimal) :
  Etiny <= lo -> lo <= dexp a -> lo <= dexp b ->
  Z.min (dexp a) (dexp b) <= Etop ->
  Z.abs (scaled lo a + scaled lo b) < 10 ^ prec ->
  exists s, add a b = Return s /\ dexp s = Z.min (dexp a) (dexp b)
            /\ scaled lo s = scaled lo a + scaled lo b.
Proof.
  intros Hlo Ha Hb Htop Hz.
  set (e := Z.min (dexp a) (dexp b)) in *.
  assert (Hsum : scaled lo a + scaled lo b
          = (sval a * 10 ^ (dexp a - e) + sval b * 10 ^ (dexp b - e))
            * 10 ^ (e - lo)).
  { unfold scaled.
    rewrite (pow10_split (dexp a) e lo), (pow10_split (dexp b) e lo)
      by (unfold e; lia).
    ring. }
  destruct (add_exact a b) as (s & Es & Hs & He).
  - cbn zeta. fold e. rewrite Hsum in Hz.
    pose proof (scaled_abs_le lo e
                  (sval a * 10 ^ (dexp a - e) + sval b * 10 ^ (dexp b - e))
                  ltac:(unfold e; lia)).
    lia.
  - cbn zeta. fold e. unfold e in *. lia.
  - exists s. split; [exact Es|]. split; [exact He|].
    unfold scaled at 1. rewrite Hs, He. fold e. symmetry. exact Hsum.
Qed.

Lemma scaled_copy_negate (lo : Z) (b : Decimal) :
  scaled lo (copy_negate b) = - scaled lo b.
Proof.
  unfold scaled. cbn [dexp copy_negate]. rewrite sval_copy_negate. ring.
Qed.

Lemma sub_scaled (lo : Z) (a b : Decimal) :
  Etiny <= lo -> lo <= dexp a -> lo <= dexp b ->
  Z.min (dexp a) (dexp b) <= Etop ->
  Z.abs (scaled lo a - scaled lo b) < 10 ^ prec ->
  exists s, sub a b = Return s /\ dexp s = Z.min (dexp a) (dexp b)
            /\ scaled lo s = scaled lo a - scaled lo b.
Proof.
  intros Hlo Ha Hb Htop Hz. unfold sub.
  destruct (add_scaled lo a (copy_negate b)) as (s & Es & He & Hs);
    try assumption.
  - rewrite scaled_copy_negate. now replace (scaled lo a + - scaled lo b)
      with (scaled lo a - scaled lo b) by ring.
  - exists s. rewrite scaled_copy_negate in Hs.
    split; [exact Es|]. split; [exact He|]. lia.
Qed.

Lemma abs_scaled (lo : Z) (d : Decimal) :
  Etiny <= lo -> lo <= dexp d <= Etop -> Z.abs (scaled lo d) < 10 ^ prec ->
  Dec.abs d = Return (mkDecimal false (dint d) (dexp d))
  /\ scaled lo (mkDecimal false (dint d) (dexp d)) = Z.abs (scaled lo d).
Proof.
  intros Hlo He Hz. split.
  - unfold Dec.abs. apply fix_fits. unfold fits. cbn [dint dexp].
    split; [|lia].
    pose proof (scaled_abs_le lo (dexp d) (sval d) ltac:(lia)) as H.
    fold (scaled lo d) in H. rewrite sval_abs in H. lia.
  - unfold scaled. cbn [dexp]. rewrite sval_mk.
    pose proof (pow10_pos (dexp d - lo) ltac:(lia)).
    rewrite Z.abs_mul, (Z.abs_eq (10 ^ (dexp d - lo))), sval_abs by lia.
    reflexivity.
Qed.

(** ** The validator *)

Lemma compare_zero (d : Decimal) : Dec.compare d (of_Z 0) = (sval d ?= 0).
Proof.
  unfold Dec.compare. change (sval (of_Z 0)) with 0. change (dexp (of_Z 0)) with 0.
  rewrite Z.mul_0_l.
  pose proof (pow10_pos (dexp d - Z.min (dexp d) 0) ltac:(lia)) as Hp.
  set (p := 10 ^ (dexp d - Z.min (dexp d) 0)) in *. clearbody p.
  destruct (Z.compare_spec (sval d) 0) as [E|E|E].
  - rewrite E. reflexivity.
  - apply Z.compare_lt_iff. apply Z.mul_neg_pos; assumption.
  - apply Z.compare_gt_iff. apply Z.mul_pos_pos; assumption.
Qed.

Lemma truthy_sval (d : Decimal) : truthy d = negb (sval d =? 0).
Proof.
  unfold truthy, sval. destruct d as [s [|p] e]; cbn [dint dsign]; destruct s;
    reflexivity.
Qed.

(** [not x or x <= 0] and [not x or x < 0] on a present amount: both say
    that the amount is not positive. *)
Lemma missing_or_leb (d : Decimal) :
  missing_or (Some d) (fun d => Dec.leb d (of_Z 0)) = negb (0 <? sval d).
Proof.
  unfold missing_or, Dec.leb. rewrite compare_zero, truthy_sval.
  destruct (Z.compare_spec (sval d) 0) as [E|E|E].
  - rewrite E. reflexivity.
  - replace (sval d =? 0) with false by (symmetry; apply Z.eqb_neq; lia).
    replace (0 <? sval d) with false by (symmetry; apply Z.ltb_ge; lia).
    reflexivity.
  - replace (sval d =? 0) with false by (symmetry; apply Z.eqb_neq; lia).
    replace (0 <? sval d) with true by (symmetry; apply Z.ltb_lt; lia).
    reflexivity.
Qed.

Lemma missing_or_ltb (d : Decimal) :
  missing_or (Some d) (fun d => Dec.ltb d (of_Z 0)) = negb (0 <? sval d).
Proof.
  unfold missing_or, Dec.ltb. rewrite compare_zero, truthy_sval.
  destruct (Z.compare_spec (sval d) 0) as [E|E|E].
  - rewrite E. reflexivity.
  - replace (sval d =? 0) with false by (symmetry; apply Z.eqb_neq; lia).
    replace (0 <? sval d) with false by (symmetry; apply Z.ltb_ge; lia).
    reflexivity.
  - replace (sval d =? 0) with false by (symmetry; apply Z.eqb_neq; lia).
    replace (0 <? sval d) with true by (symmetry; apply Z.ltb_lt; lia).
    reflexivity.
Qed.

Lemma dval_pos (d : Decimal) : (0 < dval d)%Q <-> 0 < sval d.
Proof.
  unfold dval, qval, Qlt.
  destruct (Z.leb_spec 0 (dexp d)) as [He|He]; cbn [Qnum Qden inject_Z].
  - pose proof (pow10_pos (dexp d) He) as Hp. rewrite !Z.mul_1_r.
    split; intros H.
    + destruct (Z.lt_ge_cases 0 (sval d)) as [|Hn]; [assumption|].
      assert (sval d * 10 ^ dexp d <= 0) by (apply Z.mul_nonpos_nonneg; lia).
      lia.
    + apply Z.mul_pos_pos; assumption.
  - lia.
Qed.

Lemma residual_scaled (lo : Z) (b v t : Decimal) :
  lo <= 0 -> lo <= dexp b -> lo <= dexp v -> lo <= dexp t ->
  Qabs (dval b + dval v - dval t)
  == Qmake (Z.abs (scaled lo b + scaled lo v - scaled lo t))
       (Z.to_pos (10 ^ (- lo))).
Proof.
  intros Hlo Hb Hv Ht.
  rewrite (dval_scaled lo b), (dval_scaled lo v), (dval_scaled lo t) by lia.
  unfold Qeq, Qabs, Qminus, Qplus, Qopp. cbn [Qnum Qden].
  pose proof (pow10_pos (- lo) ltac:(lia)) as Hp.
  rewrite !Pos2Z.inj_mul, !Zpos_to_pos_pow10 by lia.
  set (D := 10 ^ (- lo)) in *. clearbody D.
  set (B := scaled lo b). set (V := scaled lo v). set (T := scaled lo t).
  clearbody B V T.
  replace ((B * D + V * D) * D + - T * (D * D)) with ((B + V - T) * (D * D))
    by ring.
  assert (0 < D * D) by (apply Z.mul_pos_pos; assumption).
  rewrite Z.abs_mul, (Z.abs_eq (D * D)) by lia. ring.
Qed.

Lemma dval_lt_scaled (lo : Z) (a b : Decimal) :
  lo <= 0 -> lo <= dexp a -> lo <= dexp b ->
  (dval a < dval b)%Q <-> scaled lo a < scaled lo b.
Proof.
  intros Hlo Ha Hb.
  rewrite (dval_scaled lo a), (dval_scaled lo b) by lia.
  unfold Qlt. cbn [Qnum Qden].
  pose proof (pow10_pos (- lo) ltac:(lia)) as Hp.
  rewrite Zpos_to_pos_pow10 by lia.
  symmetry. now apply Z.mul_lt_mono_pos_r.
Qed.

Lemma scaled_pos (lo : Z) (d : Decimal) :
  lo <= dexp d -> 0 < scaled lo d <-> 0 < sval d.
Proof.
  intros H. unfold scaled.
  pose proof (pow10_pos (dexp d - lo) ltac:(lia)) as Hp.
  split; intros H1.
  - destruct (Z.lt_ge_cases 0 (sval d)) as [|Hn]; [assumption|].
    assert (sval d * 10 ^ (dexp d - lo) <= 0)
      by (apply Z.mul_nonpos_nonneg; lia).
    lia.
  - now apply Z.mul_pos_pos.
Qed.

(** The consistency check of lines 320-322 on three amounts within the
    exact range. *)
Lemma consistency_check (lo : Z) (b v t : Decimal) :
  Etiny <= lo <= 0 ->
  within lo (prec - 1) b -> within lo (prec - 1) v -> within lo (prec - 1) t ->
  exists expected_total diff a,
    add b v = Return expected_total
    /\ sub expected_total t = Return diff
    /\ Dec.abs diff = Return a
    /\ (Dec.gtb a (mkDecimal false 10 (-2)) = false
        <-> (Qabs (dval b + dval v - dval t) <= 1 # 10)%Q).
Proof.
  intros Hlo [Heb Hb] [Hev Hv] [Het Ht].
  assert (H27 : 3 * 10 ^ (prec - 1) < 10 ^ prec) by (vm_compute; reflexivity).
  assert (Htop : lo + (prec - 1) <= Etop)
    by (unfold Etop, Emax, prec in *; lia).
  destruct (add_scaled lo b v) as (s & Es & Hes & Hs); try lia.
  destruct (sub_scaled lo s t) as (d & Ed & Hed & Hd); try lia.
  destruct (abs_scaled lo d) as (Ea & Ha); try lia.
  exists s, d, (mkDecimal false (dint d) (dexp d)).
  split; [exact Es|]. split; [exact Ed|]. split; [exact Ea|].
  set (a := mkDecimal false (dint d) (dexp d)) in *.
  assert (Hda : dval a == Qabs (dval b + dval v - dval t)).
  { rewrite (residual_scaled lo b v t) by lia.
    rewrite (dval_scaled lo a) by (unfold a; cbn [dexp]; lia).
    now rewrite Ha, Hd, Hs. }
  rewrite <- Hda.
  change (1 # 10) with (1 # 10)%Q.
  assert (E10 : dval (mkDecimal false 10 (-2)) == 1 # 10) by reflexivity.
  rewrite <- E10.
  unfold Dec.gtb. rewrite <- leb_dval.
  unfold Dec.ltb, Dec.leb.
  rewrite (compare_dval (mkDecimal false 10 (-2)) a), (compare_dval a).
  rewrite <- (Qcompare_antisym (dval (mkDecimal false 10 (-2))) (dval a)).
  destruct (dval (mkDecimal false 10 (-2)) ?= dval a)%Q; cbn [CompOpp];
    split; congruence.
Qed.

Lemma in_append_if (c : bool) (l : list error) (e x : error) :
  In x (append_if c l e) -> In x l \/ (c = true /\ x = e).
Proof.
  unfold append_if. destruct c; [|auto].
  intros H. apply in_app_or in H. destruct H as [H|[H|[]]]; auto.
Qed.

(** [validate_invoice] on three present amounts within the exact range:
    it returns, accepts exactly the positive and consistent triples, and
    reports a mismatch only for an inconsistent one. *)
Lemma validate_invoice_within
    (invoice : InvoiceData) (b v t : Decimal) (lo : Z) :
  base_rent_tzs invoice = Some b ->
  vat_amount_tzs invoice = Some v ->
  total_amount_tzs invoice = Some t ->
  Etiny <= lo <= 0 ->
  within lo (prec - 1) b -> within lo (prec - 1) v -> within lo (prec - 1) t ->
  exists is_valid errors,
    validate_invoice invoice = Return (is_valid, errors)
    /\ (is_valid = true
        <-> (0 < dval b /\ 0 < dval v /\ 0 < dval t
             /\ Qabs (dval b + dval v - dval t) <= 1 # 10)%Q)
    /\ (forall b' v' t', In (AmountMismatch b' v' t') errors ->
          ~ (Qabs (dval b + dval v - dval t) <= 1 # 10)%Q).
Proof.
  intros Eb Ev Et Hlo Hb Hv Ht.
  destruct (consistency_check lo b v t Hlo Hb Hv Ht)
    as (s & d & a & Es & Ed & Ea & Hflag).
  unfold validate_invoice. rewrite Eb, Ev, Et.
  rewrite !missing_or_leb, missing_or_ltb, !truthy_sval.
  rewrite Es. cbn [bind]. rewrite Ed. cbn [bind]. rewrite Ea. cbn [bind].
  set (E3 := append_if (negb (0 <? sval t))
               (append_if (negb (0 <? sval v))
                  (append_if (negb (0 <? sval b)) [] base_rent_error)
                  vat_amount_error)
               total_amount_error).
  assert (HE3 : forall x, In x E3 -> exists m, x = Message m).
  { unfold E3. intros x Hx.
    repeat (apply in_append_if in Hx; destruct Hx as [Hx|[_ ->]]);
      [destruct Hx|unfold base_rent_error|unfold vat_amount_error
      |unfold total_amount_error]; eauto. }
  assert (Hnil : E3 = [] <-> 0 < sval b /\ 0 < sval v /\ 0 < sval t).
  { unfold E3.
    destruct (Z.ltb_spec 0 (sval b)); destruct (Z.ltb_spec 0 (sval v));
      destruct (Z.ltb_spec 0 (sval t)); cbn [negb append_if app];
      split; intros H2; try discriminate; try lia; auto. }
  assert (Hlen : (List.length E3 =? 0)%nat = true <-> E3 = []).
  { destruct E3; cbn; split; congruence. }
  clearbody E3.
  destruct (negb (sval b =? 0) && negb (sval v =? 0) && negb (sval t =? 0))%bool
    eqn:Etr; cbn [bind].
  - destruct (Dec.gtb a (mkDecimal false 10 (-2))) eqn:Eg; cbn [append_if].
    + eexists _, _. split; [reflexivity|]. split.
      * rewrite length_app, Nat.add_comm. cbn [List.length Nat.add Nat.eqb].
        split; [discriminate|]. intros (_ & _ & _ & HQ).
        apply Hflag in HQ. discriminate.
      * intros _ _ _ _ HQ. apply Hflag in HQ. discriminate.
    + eexists _, _. split; [reflexivity|]. split.
      * rewrite Hlen, Hnil, !dval_pos.
        split; [intros (? & ? & ?)|intros (? & ? & ? & _)]; repeat split;
          try assumption. now apply Hflag.
      * intros b' v' t' Hin. destruct (HE3 _ Hin) as (m & Hm). discriminate.
  - eexists _, _. split; [reflexivity|]. split.
    + rewrite Hlen, Hnil, !dval_pos.
      rewrite !andb_false_iff, !negb_false_iff, !Z.eqb_eq in Etr.
      split; [intros (? & ? & ?)|intros (? & ? & ? & _)]; lia.
    + intros b' v' t' Hin. destruct (HE3 _ Hin) as (m & Hm). discriminate.
Qed.

(** X3. On a record whose three amounts are present and lie within the
    exact range of the context (multiples of [10^lo] below
    [10^(lo + 27)] in magnitude), [validate_invoice] returns without
    raising, and it accepts the record exactly when the base rent, the VAT
    amount and the total are all strictly positive and
    |base + VAT - total| <= 0.10. A zero VAT is not accepted. *)
Theorem validate_invoice_accepts_iff
    (invoice : InvoiceData) (b v t : Decimal) (lo : Z) :
  base_rent_tzs invoice = Some b ->
  vat_amount_tzs invoice = Some v ->
  total_amount_tzs invoice = Some t ->
  Etiny <= lo <= 0 ->
  within lo (prec - 1) b -> within lo (prec - 1) v -> within lo (prec - 1) t ->
  exists is_valid errors,
    validate_invoice invoice = Return (is_valid, errors)
    /\ (is_valid = true
        <-> (0 < dval b /\ 0 < dval v /\ 0 < dval t
             /\ Qabs (dval b + dval v - dval t) <= 1 # 10)%Q).
Proof.
  intros Eb Ev Et Hlo Hb Hv Ht.
  destruct (validate_invoice_within invoice b v t lo Eb Ev Et Hlo Hb Hv Ht)
    as (ok & errors & E & Hok & _).
  now exists ok, errors.
Qed.

Lemma validate_invoice_accepts_iff_witness :
  exists is_valid errors,
    validate_invoice
      (mkInvoiceData (Some (mkDecimal false 500000000 (-2))) None
         (Some (mkDecimal false 90000000 (-2)))
         (Some (mkDecimal false 590000000 (-2))) EmptyString)
    = Return (is_valid, errors)
    /\ (is_valid = true
        <-> (0 < dval (mkDecimal false 500000000 (-2))
             /\ 0 < dval (mkDecimal false 90000000 (-2))
             /\ 0 < dval (mkDecimal false 590000000 (-2))
             /\ Qabs (dval (mkDecimal false 500000000 (-2))
                      + dval (mkDecimal false 90000000 (-2))
                      - dval (mkDecimal false 590000000 (-2))) <= 1 # 10)%Q).
Proof.
  apply (validate_invoice_accepts_iff _ _ _ _ (-2)); try reflexivity.
  - unfold Etiny, Emin, prec. lia.
  - split; [cbn; lia|vm_compute; reflexivity].
  - split; [cbn; lia|vm_compute; reflexivity].
  - split; [cbn; lia|vm_compute; reflexivity].
Defined.

(** ** Which texts make [parse_invoice] raise *)

Lemma remove_commas_only_commas (g : string) :
  all_chars is_comma g = true -> Re.remove_commas g = EmptyString.
Proof.
  induction g as [|c g IH]; cbn; [reflexivity|].
  intros H. apply andb_true_iff in H. destruct H as [Hc Hr].
  unfold is_comma in Hc. rewrite Hc. auto.
Qed.

Lemma remove_commas_empty (run : string) :
  Re.remove_commas run = EmptyString -> all_chars is_comma run = true.
Proof.
  induction run as [|c run IH]; cbn; [reflexivity|].
  unfold is_comma at 1. destruct (Ascii.eqb c ","); [auto|discriminate].
Qed.

Lemma of_string_raises (s : string) (e : exn) :
  of_string s = Raise e -> e = ConversionSyntax.
Proof.
  unfold of_string.
  destruct (take_digits s) as [intpart rest].
  destruct rest as [|c rest].
  - destruct intpart; [now intros [= <-]|discriminate].
  - destruct (Ascii.eqb_spec c ".") as [->|Hne].
    + destruct (take_digits rest) as [fracpart rest''].
      destruct rest''; [|now intros [= <-]].
      destruct (intpart ++ fracpart)%string; [now intros [= <-]|discriminate].
    + destruct c as [[] [] [] [] [] [] [] []]; try (now intros [= <-]).
      now contradiction Hne.
Qed.

Lemma of_string_digits_returns (ds : string) :
  all_chars is_digit ds = true -> ds <> EmptyString ->
  exists d, of_string ds = Return d.
Proof.
  intros Hds Hne. unfold of_string. rewrite take_digits_all by assumption.
  destruct ds; [contradiction|]. eauto.
Qed.

(** A token of the number group either converts or consists of commas
    only. *)
Lemma number_conversion (s g rest : string) :
  Re.number s = Some (g, rest) ->
  (exists d, of_string (Re.remove_commas g) = Return d)
  \/ all_chars is_comma g = true.
Proof.
  unfold Re.number.
  pose proof (take_while_spec Re.is_amount_char s) as [Hrun _].
  destruct (Re.take_while Re.is_amount_char s) as [run r]. cbn in Hrun.
  apply remove_commas_run in Hrun.
  assert (Hplain : Some (run, r) = Some (g, rest) ->
                   (exists d, of_string (Re.remove_commas g) = Return d)
                   \/ all_chars is_comma g = true).
  { intros [= <- <-].
    destruct (Re.remove_commas run) as [|c ds] eqn:E.
    - right. now apply remove_commas_empty.
    - left. apply of_string_digits_returns; [assumption|discriminate]. }
  destruct run as [|c0 run0] eqn:Erun; [discriminate|].
  rewrite <- Erun in *. clear Erun c0 run0.
  destruct r as [|c1 [|d1 [|d2 r']]]; try exact Hplain.
  - destruct c1 as [[] [] [] [] [] [] [] []]; exact Hplain.
  - destruct c1 as [[] [] [] [] [] [] [] []]; exact Hplain.
  - destruct (Ascii.eqb_spec c1 ".") as [->|Hne].
    2:{ destruct c1 as [[] [] [] [] [] [] [] []]; try exact Hplain.
        now contradiction Hne. }
    destruct (is_digit d1 && is_digit d2)%bool eqn:E; [|exact Hplain].
    apply andb_true_iff in E. destruct E as [E1 E2].
    intros [= <- <-]. left. rewrite remove_commas_app.
    rewrite remove_commas_fraction by assumption.
    unfold of_string. rewrite take_digits_point by assumption.
    cbn [take_digits]. rewrite E1, E2.
    destruct (Re.remove_commas run ++ String d1 (String d2 EmptyString))%string
      eqn:Ed; [|eauto].
    destruct (Re.remove_commas run); discriminate.
Qed.

Lemma vat_rate_amount_shape (s g1 g2 rest : string) :
  Re.vat_rate_amount s = Some ((g1, g2), rest) ->
  (exists d, of_string g1 = Return d)
  /\ exists s', Re.number s' = Some (g2, rest).
Proof.
  unfold Re.vat_rate_amount.
  destruct (Re.literal "vat" s) as [r|]; [|discriminate].
  match goal with
  | |- match Re.take_while is_digit ?x with _ => _ end = _ -> _ =>
      pose proof (take_while_spec is_digit x) as [Hd _];
      destruct (Re.take_while is_digit x) as [run r1]
  end.
  cbn [fst] in Hd.
  destruct run as [|c0 run0] eqn:Erun; [discriminate|].
  rewrite <- Erun in *.
  destruct r1 as [|c1 r1]; [discriminate|].
  destruct c1 as [[] [] [] [] [] [] [] []]; try discriminate.
  match goal with
  | |- match Re.number ?x with _ => _ end = _ -> _ =>
      destruct (Re.number x) as [[g r2]|] eqn:E; [|discriminate]
  end.
  intros [= <- <- <-]. split; [|eauto].
  apply of_string_digits_returns; [assumption|]. rewrite Erun. discriminate.
Qed.

Lemma amount_vat_shape (s g rest : string) :
  Re.amount_vat s = Some (g, rest) ->
  exists s' r, Re.number s' = Some (g, r).
Proof.
  unfold Re.amount_vat.
  destruct (Re.number (Re.skip Re.is_space (Re.opt_marker s)))
    as [[g0 r]|] eqn:E; [|discriminate].
  destruct (Re.literal "vat" (Re.skip Re.is_space r)); [|discriminate].
  intros [= <- <-]. eauto.
Qed.

Lemma derive_base_rent_raises (invoice : InvoiceData) (e : exn) :
  derive_base_rent invoice = Raise e -> e = Overflow.
Proof.
  unfold derive_base_rent.
  destruct (total_amount_tzs invoice) as [t|]; [|discriminate].
  destruct (vat_amount_tzs invoice) as [v|]; [|discriminate].
  destruct (truthy t && truthy v)%bool; [|discriminate].
  destruct (sub t v) as [b|x] eqn:E; cbn [bind]; [discriminate|].
  intros [= <-]. eapply sub_raises; eassumption.
Qed.

(** The indexing [amounts[-1]], [amounts[-2]] is guarded by the length
    tests: positional inference raises nothing but a decimal overflow of
    the subtraction. *)
Lemma identify_amounts_raises (amounts : list Decimal) (invoice : InvoiceData)
    (e : exn) :
  identify_amounts amounts invoice = Raise e -> e = Overflow.
Proof.
  destruct (Nat.lt_ge_cases (List.length amounts) 2) as [Hs|Hl].
  - rewrite identify_amounts_short by assumption. discriminate.
  - destruct (two_last _ Hl) as (front & v & t & ->).
    rewrite identify_amounts_two. apply derive_base_rent_raises.
Qed.

Lemma extract_vat_raises (raw_text : string) (invoice : InvoiceData) (e : exn) :
  extract_vat raw_text invoice = Raise e ->
  (e = ConversionSyntax \/ e = Overflow)
  /\ (e = ConversionSyntax ->
      exists g, vat_token raw_text = Some g /\ all_chars is_comma g = true).
Proof.
  unfold extract_vat, vat_token.
  destruct (Re.search Re.vat_rate_amount raw_text) as [[g1 g2]|] eqn:E1.
  - apply search_matched in E1. destruct E1 as (s' & rest & Hm).
    apply vat_rate_amount_shape in Hm. destruct Hm as ((n & Hn) & s'' & Hnum).
    rewrite Hn. cbn [bind].
    destruct (div n (of_Z 100)) as [rate|x] eqn:Ed; cbn [bind].
    + destruct (number_conversion _ _ _ Hnum) as [(d & Hd)|Hc].
      * rewrite Hd. discriminate.
      * rewrite (remove_commas_only_commas _ Hc).
        change (of_string "") with (@Raise Decimal ConversionSyntax).
        cbn [bind]. intros [= <-]. split; [now left|]. intros _. eauto.
    + intros [= <-].
      assert (x = Overflow)
        by (eapply div_nonzero_raises; [|eassumption]; discriminate).
      subst x. split; [now right|discriminate].
  - destruct (Re.search Re.amount_vat raw_text) as [g1|] eqn:E2; [|discriminate].
    apply search_matched in E2. destruct E2 as (s' & rest & Hm).
    apply amount_vat_shape in Hm. destruct Hm as (s'' & r & Hnum).
    destruct (number_conversion _ _ _ Hnum) as [(d & Hd)|Hc].
    + rewrite Hd. discriminate.
    + rewrite (remove_commas_only_commas _ Hc).
      change (of_string "") with (@Raise Decimal ConversionSyntax).
      cbn [bind]. intros [= <-]. split; [now left|]. intros _. eauto.
Qed.

(** X4. [parse_invoice] raises nothing but a decimal conversion error or a
    decimal overflow (never an index error: the accesses [amounts[-1]] and
    [amounts[-2]] are guarded), and a conversion error comes from the one
    unguarded place: the amount token of the VAT clause consists of commas
    only. *)
Theorem parse_invoice_raises (raw_text : string) (e : exn) :
  parse_invoice raw_text = Raise e ->
  (e = ConversionSyntax \/ e = Overflow)
  /\ (e = ConversionSyntax ->
      exists g, vat_token raw_text = Some g /\ all_chars is_comma g = true).
Proof.
  unfold parse_invoice.
  destruct (extract_vat raw_text (set_raw_text new_InvoiceData raw_text))
    as [inv1|x] eqn:E1; cbn [bind].
  - intros H. apply identify_amounts_raises in H. subst e.
    split; [now right|discriminate].
  - intros [= <-]. eapply extract_vat_raises; eassumption.
Qed.

Lemma parse_invoice_raises_witness :
  (ConversionSyntax = ConversionSyntax \/ ConversionSyntax = Overflow)
  /\ (ConversionSyntax = ConversionSyntax ->
      exists g, vat_token "Rent, VAT inclusive" = Some g
                /\ all_chars is_comma g = true).
Proof.
  apply (parse_invoice_raises "Rent, VAT inclusive" ConversionSyntax).
  vm_compute. reflexivity.
Defined.

(** X5. Conversely, whenever the amount token of the VAT clause holds no
    digit (as in "Rent, VAT inclusive", where the comma before VAT is
    taken for an amount), [parse_invoice] raises instead of returning a
    record. *)
Theorem parse_invoice_raises_on_comma_before_vat (raw_text g : string) :
  vat_token raw_text = Some g -> all_chars is_comma g = true ->
  exists e, parse_invoice raw_text = Raise e.
Proof.
  unfold vat_token, parse_invoice, extract_vat.
  destruct (Re.search Re.vat_rate_amount raw_text) as [[g1 g2]|] eqn:E1.
  - intros [= ->] Hc.
    destruct (of_string g1) as [n|x]; cbn [bind]; [|eauto].
    destruct (div n (of_Z 100)) as [rate|x]; cbn [bind]; [|eauto].
    rewrite (remove_commas_only_commas _ Hc).
    change (of_string "") with (@Raise Decimal ConversionSyntax).
    cbn [bind]. eauto.
  - intros -> Hc.
    rewrite (remove_commas_only_commas _ Hc).
    change (of_string "") with (@Raise Decimal ConversionSyntax).
    cbn [bind]. eauto.
Qed.

Lemma parse_invoice_raises_on_comma_before_vat_witness :
  exists e, parse_invoice "Rent, VAT inclusive" = Raise e.
Proof.
  apply (parse_invoice_raises_on_comma_before_vat "Rent, VAT inclusive" ",");
    vm_compute; reflexivity.
Defined.

(** ** Records with a missing amount *)

(** A record with a missing amount is rejected without any arithmetic: the
    message of each missing field is reported and the consistency check is
    not made. *)
Lemma validate_invoice_missing (invoice : InvoiceData) :
  base_rent_tzs invoice = None \/ vat_amount_tzs invoice = None
  \/ total_amount_tzs invoice = None ->
  exists errors,
    validate_invoice invoice = Return (false, errors)
    /\ (base_rent_tzs invoice = None -> In base_rent_error errors)
    /\ (vat_amount_tzs invoice = None -> In vat_amount_error errors)
    /\ (total_amount_tzs invoice = None -> In total_amount_error errors)
    /\ (forall b v t, ~ In (AmountMismatch b v t) errors).
Proof.
  intros Hmiss. unfold validate_invoice.
  set (E3 := append_if
               (missing_or (total_amount_tzs invoice)
                  (fun d => Dec.leb d (of_Z 0)))
               (append_if
                  (missing_or (vat_amount_tzs invoice)
                     (fun d => Dec.ltb d (of_Z 0)))
                  (append_if
                     (missing_or (base_rent_tzs invoice)
                        (fun d => Dec.leb d (of_Z 0)))
                     [] base_rent_error)
                  vat_amount_error)
               total_amount_error).
  assert (HE3 : forall x, In x E3 -> exists m, x = Message m).
  { unfold E3. intros x Hx.
    repeat (apply in_append_if in Hx; destruct Hx as [Hx|[_ ->]]);
      [destruct Hx|unfold base_rent_error|unfold vat_amount_error
      |unfold total_amount_error]; eauto. }
  assert (Hb : base_rent_tzs invoice = None -> In base_rent_error E3).
  { unfold E3. intros ->. cbn [missing_or append_if app].
    unfold append_if.
    destruct (missing_or (vat_amount_tzs invoice) _),
      (missing_or (total_amount_tzs invoice) _); cbn; auto. }
  assert (Hv : vat_amount_tzs invoice = None -> In vat_amount_error E3).
  { unfold E3. intros ->. cbn [missing_or].
    unfold append_if.
    destruct (missing_or (base_rent_tzs invoice) _),
      (missing_or (total_amount_tzs invoice) _); cbn; auto. }
  assert (Ht : total_amount_tzs invoice = None -> In total_amount_error E3).
  { unfold E3. intros ->. cbn [missing_or].
    unfold append_if. apply in_or_app. right. cbn. auto. }
  assert (Hne : (List.length E3 =? 0)%nat = false).
  { destruct E3; [|reflexivity].
    destruct Hmiss as [H|[H|H]]; [apply Hb in H|apply Hv in H|apply Ht in H];
      destruct H. }
  clearbody E3. exists E3.
  assert (Hret : (match base_rent_tzs invoice, vat_amount_tzs invoice,
                        total_amount_tzs invoice with
                  | Some b, Some v, Some t =>
                      if (truthy b && truthy v && truthy t)%bool then
                        expected_total <- add b v ;;
                        diff <- sub expected_total t ;;
                        a <- Dec.abs diff ;;
                        Return (append_if (Dec.gtb a (mkDecimal false 10 (-2)))
                                  E3 (AmountMismatch b v t))
                      else Return E3
                  | _, _, _ => Return E3
                  end) = Return E3).
  { destruct Hmiss as [H|[H|H]]; rewrite H;
      destruct (base_rent_tzs invoice), (vat_amount_tzs invoice),
        (total_amount_tzs invoice); try discriminate; reflexivity. }
  rewrite Hret. cbn [bind]. rewrite Hne.
  repeat split; try assumption.
  intros b v t Hin. destruct (HE3 _ Hin) as (m & Hm). discriminate.
Qed.

(** X6. A record in which the base rent, the VAT amount or the total is
    missing is never accepted: [validate_invoice] returns (False, errors)
    without raising, the list holds the message of every missing field,
    and no amount-mismatch entry (the consistency check is skipped). *)
Theorem validate_invoice_reports_missing_fields (invoice : InvoiceData) :
  base_rent_tzs invoice = None \/ vat_amount_tzs invoice = None
  \/ total_amount_tzs invoice = None ->
  exists errors,
    validate_invoice invoice = Return (false, errors)
    /\ (base_rent_tzs invoice = None -> In base_rent_error errors)
    /\ (vat_amount_tzs invoice = None -> In vat_amount_error errors)
    /\ (total_amount_tzs invoice = None -> In total_amount_error errors)
    /\ (forall b v t, ~ In (AmountMismatch b v t) errors).
Proof. apply validate_invoice_missing. Qed.

Lemma validate_invoice_reports_missing_fields_witness :
  exists errors,
    validate_invoice new_InvoiceData = Return (false, errors)
    /\ (base_rent_tzs new_InvoiceData = None -> In base_rent_error errors)
    /\ (vat_amount_tzs new_InvoiceData = None -> In vat_amount_error errors)
    /\ (total_amount_tzs new_InvoiceData = None
        -> In total_amount_error errors)
    /\ (forall b v t, ~ In (AmountMismatch b v t) errors).
Proof.
  apply (validate_invoice_reports_missing_fields new_InvoiceData).
  left. reflexivity.
Defined.

(** ** The record [parse_invoice] returns *)

Lemma derive_base_rent_cases (inv2 inv : InvoiceData) :
  base_rent_tzs inv2 = None ->
  derive_base_rent inv2 = Return inv ->
  total_amount_tzs inv = total_amount_tzs inv2
  /\ vat_amount_tzs inv = vat_amount_tzs inv2
  /\ match total_amount_tzs inv2, vat_amount_tzs inv2 with
     | Some t, Some v =>
         if (truthy t && truthy v)%bool
         then exists b, sub t v = Return b /\ base_rent_tzs inv = Some b
         else base_rent_tzs inv = None
     | _, _ => base_rent_tzs inv = None
     end.
Proof.
  intros Hb. unfold derive_base_rent.
  destruct (total_amount_tzs inv2) as [t|] eqn:Et;
    [|intros [= <-]; rewrite Et; auto].
  destruct (vat_amount_tzs inv2) as [v|] eqn:Ev;
    [|intros [= <-]; rewrite Et, Ev; auto].
  destruct (truthy t && truthy v)%bool; [|intros [= <-]; rewrite Et, Ev; auto].
  destruct (sub t v) as [b|x]; cbn [bind]; [|discriminate].
  intros [= <-]. cbn. rewrite Et, Ev. eauto.
Qed.

(** The shape of every record [parse_invoice] returns. *)
Lemma parse_invoice_cases (raw_text : string) (inv : InvoiceData) :
  parse_invoice raw_text = Return inv ->
  (forall v, vat_amount_tzs inv = Some v -> written_amount v)
  /\ match total_amount_tzs inv with
     | None =>
         base_rent_tzs inv = None
         /\ (List.length (extract_amounts raw_text) < 2)%nat
     | Some t =>
         written_amount t
         /\ (2 <= List.length (extract_amounts raw_text))%nat
         /\ match vat_amount_tzs inv with
            | None => base_rent_tzs inv = None
            | Some v =>
                if (truthy t && truthy v)%bool
                then exists b, sub t v = Return b /\ base_rent_tzs inv = Some b
                else base_rent_tzs inv = None
            end
     end.
Proof.
  intros Hp.
  apply parse_invoice_steps in Hp. destruct Hp as (inv1 & H1 & H2).
  apply extract_vat_fields in H1. cbn in H1.
  destruct H1 as (Hb1 & Ht1 & Hv1).
  assert (Wv1 : forall v, vat_amount_tzs inv1 = Some v -> written_amount v).
  { intros v Hv. destruct Hv1 as [Hv1|(v1 & Hv1 & Hw)]; congruence. }
  destruct (Nat.lt_ge_cases (List.length (extract_amounts raw_text)) 2)
    as [Hs|Hl].
  - rewrite identify_amounts_short in H2 by assumption. injection H2 as <-.
    split; [exact Wv1|]. rewrite Ht1. auto.
  - destruct (two_last _ Hl) as (front & v0 & t0 & Ea).
    assert (Hin : forall d, In d (front ++ [v0; t0]) -> written_amount d).
    { intros d Hd. rewrite <- Ea in Hd.
      eapply extract_amounts_written; eassumption. }
    assert (Wt0 : written_amount t0)
      by (apply Hin, in_or_app; right; cbn; auto).
    assert (Wv0 : written_amount v0)
      by (apply Hin, in_or_app; right; cbn; auto).
    rewrite Ea, identify_amounts_two in H2.
    set (inv2 := match vat_amount_tzs inv1, front with
                 | None, _ :: _ =>
                     set_vat_amount_tzs (set_total_amount_tzs inv1 t0) v0
                 | _, _ => set_total_amount_tzs inv1 t0
                 end) in *.
    assert (Hb2 : base_rent_tzs inv2 = None).
    { unfold inv2. destruct (vat_amount_tzs inv1), front; exact Hb1. }
    assert (Ht2 : total_amount_tzs inv2 = Some t0).
    { unfold inv2. destruct (vat_amount_tzs inv1), front; reflexivity. }
    assert (Wv2 : forall v, vat_amount_tzs inv2 = Some v -> written_amount v).
    { unfold inv2. intros v.
      destruct (vat_amount_tzs inv1) as [v1|] eqn:Ev1.
      - destruct front; cbn; rewrite Ev1; intros [= <-]; now apply Wv1.
      - destruct front; cbn; [rewrite Ev1; discriminate|].
        now intros [= <-]. }
    apply derive_base_rent_cases in H2; [|exact Hb2].
    destruct H2 as (Ht & Hv & Hb).
    split; [intros v; rewrite Hv; apply Wv2|].
    rewrite Ht, Ht2, Hv. rewrite Ht2 in Hb.
    split; [exact Wt0|]. split; [exact Hl|].
    destruct (vat_amount_tzs inv2); exact Hb.
Qed.

(** X7. A text with fewer than two convertible amount tokens yields no
    total and no base rent, whatever the VAT clause says, and the record
    is then rejected by [validate_invoice] with the base-rent and the
    total messages. *)
Theorem parse_invoice_needs_two_amounts (raw_text : string) (inv : InvoiceData) :
  parse_invoice raw_text = Return inv ->
  (List.length (extract_amounts raw_text) < 2)%nat ->
  total_amount_tzs inv = None /\ base_rent_tzs inv = None
  /\ exists errors,
       validate_invoice inv = Return (false, errors)
       /\ In base_rent_error errors /\ In total_amount_error errors.
Proof.
  intros Hp Hlen. apply parse_invoice_cases in Hp. destruct Hp as (_ & Hp).
  destruct (total_amount_tzs inv) as [t|] eqn:Et.
  - destruct Hp as (_ & Hl & _). lia.
  - destruct Hp as (Hb & _). split; [reflexivity|]. split; [exact Hb|].
    destruct (validate_invoice_missing inv) as (errors & E & H1 & _ & H3 & _);
      [auto|].
    exists errors. auto.
Qed.

Lemma parse_invoice_needs_two_amounts_witness :
  total_amount_tzs
    (mkInvoiceData None (Some (mkDecimal false 18 (-2)))
       (Some (mkDecimal false 90000000 (-2))) None
       "VAT @ 18%: TZS 900,000.00") = None
  /\ base_rent_tzs
       (mkInvoiceData None (Some (mkDecimal false 18 (-2)))
          (Some (mkDecimal false 90000000 (-2))) None
          "VAT @ 18%: TZS 900,000.00") = None
  /\ exists errors,
       validate_invoice
         (mkInvoiceData None (Some (mkDecimal false 18 (-2)))
            (Some (mkDecimal false 90000000 (-2))) None
            "VAT @ 18%: TZS 900,000.00")
       = Return (false, errors)
       /\ In base_rent_error errors /\ In total_amount_error errors.
Proof.
  apply (parse_invoice_needs_two_amounts "VAT @ 18%: TZS 900,000.00").
  - vm_compute. reflexivity.
  - vm_compute. lia.
Defined.

(** ** Extraction followed by validation *)

Lemma written_within (d : Decimal) :
  written_amount d -> Z.of_N (dint d) < 10 ^ 25 ->
  within (-2) (prec - 1) d /\ -2 <= dexp d <= 0 /\ 0 <= scaled (-2) d < 10 ^ 27.
Proof.
  intros [Hs He] Hc.
  assert (Hsc : scaled (-2) d = Z.of_N (dint d) * 10 ^ (dexp d - -2)).
  { unfold scaled, sval. now rewrite Hs. }
  assert (H25 : 10 ^ 25 * 100 = 10 ^ 27) by reflexivity.
  assert (Hb : 0 <= scaled (-2) d < 10 ^ 27).
  { rewrite Hsc. destruct He as [-> | ->].
    - change (10 ^ (0 - -2)) with 100. lia.
    - change (10 ^ (-2 - -2)) with 1. lia. }
  unfold within. change (prec - 1) with 27.
  repeat split; try lia.
Qed.

(** X8. Extraction followed by validation: for a text whose total and VAT
    amount have fewer than 26 digits, [validate_invoice] returns on the
    record [parse_invoice] built, never reports an amount mismatch (the
    base rent was derived as total - VAT), and accepts the record exactly
    when a total and a VAT amount were found with 0 < VAT < total. *)
Theorem parsed_record_accepted_iff (raw_text : string) (inv : InvoiceData) :
  parse_invoice raw_text = Return inv ->
  (forall t, total_amount_tzs inv = Some t -> Z.of_N (dint t) < 10 ^ 25) ->
  (forall v, vat_amount_tzs inv = Some v -> Z.of_N (dint v) < 10 ^ 25) ->
  exists is_valid errors,
    validate_invoice inv = Return (is_valid, errors)
    /\ (is_valid = true
        <-> exists t v,
              total_amount_tzs inv = Some t /\ vat_amount_tzs inv = Some v
              /\ (0 < dval v /\ dval v < dval t)%Q)
    /\ (forall b v t, ~ In (AmountMismatch b v t) errors).
Proof.
  intros Hp Bt Bv. apply parse_invoice_cases in Hp. destruct Hp as (Wv & Hp).
  assert (Hmissing :
            base_rent_tzs inv = None ->
            (forall t v, total_amount_tzs inv = Some t ->
                         vat_amount_tzs inv = Some v ->
                         (0 < dval v /\ dval v < dval t)%Q -> False) ->
            exists is_valid errors,
              validate_invoice inv = Return (is_valid, errors)
              /\ (is_valid = true
                  <-> exists t v,
                        total_amount_tzs inv = Some t
                        /\ vat_amount_tzs inv = Some v
                        /\ (0 < dval v /\ dval v < dval t)%Q)
              /\ (forall b v t, ~ In (AmountMismatch b v t) errors)).
  { intros Hb Hno.
    destruct (validate_invoice_missing inv) as (errors & E & _ & _ & _ & Hm);
      [auto|].
    exists false, errors. split; [exact E|]. split; [|exact Hm].
    split; [discriminate|]. intros (t & v & Et & Ev & HQ).
    exfalso. eapply Hno; eassumption. }
  destruct (total_amount_tzs inv) as [t|] eqn:Et.
  2:{ destruct Hp as (Hb & _). apply Hmissing; [exact Hb|]. discriminate. }
  destruct Hp as (Wt & _ & Hp).
  destruct (vat_amount_tzs inv) as [v|] eqn:Ev.
  2:{ apply Hmissing; [exact Hp|]. discriminate. }
  destruct (written_within t Wt (Bt _ eq_refl)) as (Ht & Het & HT).
  destruct (written_within v (Wv _ eq_refl) (Bv _ eq_refl)) as (Hv & Hev & HV).
  destruct (truthy t && truthy v)%bool eqn:Etr.
  2:{ apply Hmissing; [exact Hp|].
      intros t' v' [= <-] [= <-] [H1 H2].
      assert (H3 : (0 < dval t)%Q) by (eapply Qlt_trans; eassumption).
      apply dval_pos in H1, H3. rewrite !truthy_sval in Etr.
      rewrite andb_false_iff, !negb_false_iff, !Z.eqb_eq in Etr. lia. }
  destruct Hp as (b & Hsub & Eb).
  destruct (sub_scaled (-2) t v) as (b' & Hsub' & Heb & HB); try lia.
  { unfold Etiny, Emin, prec. lia. }
  { unfold Etop, Emax, prec. lia. }
  { assert (10 ^ 27 < 10 ^ prec) by (vm_compute; reflexivity). lia. }
  rewrite Hsub in Hsub'. injection Hsub' as <-.
  assert (Hb : within (-2) (prec - 1) b).
  { unfold within. change (prec - 1) with 27. split; lia. }
  destruct (validate_invoice_within inv b v t (-2) Eb Ev Et) as
    (ok & errors & E & Hok & Hmis); try assumption.
  { unfold Etiny, Emin, prec. lia. }
  assert (Hres : (Qabs (dval b + dval v - dval t) <= 1 # 10)%Q).
  { rewrite (residual_scaled (-2) b v t) by lia.
    replace (scaled (-2) b + scaled (-2) v - scaled (-2) t) with 0 by lia.
    unfold Qle. cbn. lia. }
  exists ok, errors. split; [exact E|]. split.
  - split.
    + intros Hv'. apply Hok in Hv'. destruct Hv' as (H1 & H2 & H3 & _).
      exists t, v. split; [reflexivity|]. split; [reflexivity|].
      split; [exact H2|].
      apply (dval_lt_scaled (-2)); try lia.
      apply dval_pos in H1. apply (scaled_pos (-2)) in H1; lia.
    + intros (t' & v' & Et' & Ev' & H1 & H2).
      injection Et' as <-. injection Ev' as <-.
      apply Hok.
      assert (H3 : (0 < dval t)%Q) by (eapply Qlt_trans; eassumption).
      split; [|split; [exact H1|split; [exact H3|exact Hres]]].
      apply dval_pos. apply (scaled_pos (-2)); [lia|].
      apply (dval_lt_scaled (-2)) in H2; lia.
  - intros b' v' t' Hin. exact (Hmis _ _ _ Hin Hres).
Qed.

Lemma parsed_record_accepted_iff_witness :
  exists is_valid errors,
    validate_invoice
      (mkInvoiceData (Some (mkDecimal false 500000000 (-2))) None
         (Some (mkDecimal false 90000000 (-2)))
         (Some (mkDecimal false 590000000 (-2)))
         "TZS 5,000,000.00; TZS 900,000.00; TZS 5,900,000.00")
    = Return (is_valid, errors)
    /\ (is_valid = true
        <-> exists t v,
              Some (mkDecimal false 590000000 (-2)) = Some t
              /\ Some (mkDecimal false 90000000 (-2)) = Some v
              /\ (0 < dval v /\ dval v < dval t)%Q)
    /\ (forall b v t, ~ In (AmountMismatch b v t) errors).
Proof.
  apply (parsed_record_accepted_iff
           "TZS 5,000,000.00; TZS 900,000.00; TZS 5,900,000.00").
  - vm_compute. reflexivity.
  - intros t [= <-]. vm_compute. reflexivity.
  - intros v [= <-]. vm_compute. reflexivity.
Defined.

(** ** The payment split on whole-cent amounts *)

Lemma quantize_same (d : Decimal) :
  dexp d = -2 -> Z.of_N (dint d) < 10 ^ prec ->
  quantize d (-2) ROUND_HALF_UP = Return d.
Proof.
  intros He Hc. rewrite quantize_exact.
  - rewrite He. unfold quantized. change (-2 <=? -2) with true. cbv iota.
    change (10 ^ (-2 - -2)) with 1. rewrite Z.mul_1_r, N2Z.id.
    destruct d as [s c e]. cbn [dexp] in He. now rewrite He.
  - apply cents_in_range.
  - rewrite He. unfold quantized. change (-2 <=? -2) with true. cbv iota.
    change (10 ^ (-2 - -2)) with 1. lia.
  - lia.
Qed.

Lemma round_half_up_tenfold (x : Z) : round_half_up (10 * x) 1 = x.
Proof.
  unfold round_half_up. cbv zeta. change (10 ^ 1) with 10.
  rewrite (Z.mul_comm 10 x), Z.mod_mul, Z.div_mul by lia. reflexivity.
Qed.

(** The withholding tax of a whole-cent rent, in cents. *)
Lemma wht_cents (c e : Z) :
  0 <= c -> -2 <= e ->
  quantized c (e - 1) (-2) = round_half_up (c * 10 ^ (e - -2)) 1.
Proof.
  intros Hc He. unfold quantized.
  destruct (Z.leb_spec (-2) (e - 1)) as [Hpad|Hrnd].
  - replace (e - -2) with (e - 1 - -2 + 1) by lia.
    rewrite pow10_succ by lia.
    replace (c * (10 * 10 ^ (e - 1 - -2))) with (10 * (c * 10 ^ (e - 1 - -2)))
      by ring.
    now rewrite round_half_up_tenfold.
  - replace e with (-2) by lia. change (10 ^ (-2 - -2)) with 1.
    now rewrite Z.mul_1_r.
Qed.

Lemma round_half_up_one_le (x : Z) : 0 <= x -> 0 <= round_half_up x 1 <= x.
Proof.
  intros Hx. split; [apply round_half_up_nonneg; lia|].
  unfold round_half_up. cbv zeta. change (10 ^ 1) with 10.
  pose proof (Z.div_mod x 10 ltac:(lia)).
  pose proof (Z.mod_pos_bound x 10 ltac:(lia)).
  destruct (Z.geb_spec (2 * (x mod 10)) 10); lia.
Qed.

(** The three calculations on non-negative whole-cent amounts, in cents. *)
Lemma taxes_cents (b v : Decimal) :
  0 <= sval b -> 0 <= sval v -> -2 <= dexp b -> -2 <= dexp v ->
  scaled (-2) b + scaled (-2) v < 10 ^ prec ->
  exists pay w tot,
    calculate_and_display_taxes b v = Return (pay, w, tot)
    /\ dexp pay = -2 /\ dexp w = -2 /\ dexp tot = -2
    /\ scaled (-2) w = round_half_up (scaled (-2) b) 1
    /\ scaled (-2) pay = scaled (-2) b - scaled (-2) w + scaled (-2) v
    /\ scaled (-2) tot = scaled (-2) b + scaled (-2) v.
Proof.
  intros Hb Hv Heb Hev HS.
  pose proof (sval_nonneg b Hb) as Ecb.
  set (B := scaled (-2) b) in *. set (V := scaled (-2) v) in *.
  assert (HB : 0 <= B).
  { unfold B, scaled. apply Z.mul_nonneg_nonneg; [assumption|].
    apply Z.lt_le_incl, pow10_pos. lia. }
  assert (HV : 0 <= V).
  { unfold V, scaled. apply Z.mul_nonneg_nonneg; [assumption|].
    apply Z.lt_le_incl, pow10_pos. lia. }
  assert (Hlo : Etiny <= -2) by (unfold Etiny, Emin, prec; lia).
  assert (Htop : -2 <= Etop) by (unfold Etop, Emax, prec; lia).
  set (W := round_half_up B 1).
  pose proof (round_half_up_one_le B HB) as HW. fold W in HW.
  (* the withholding tax *)
  unfold calculate_and_display_taxes.
  rewrite calculate_wht_exact.
  2:{ unfold Etiny, Emin, prec. lia. }
  2:{ rewrite <- Ecb.
      assert (sval b * 10 ^ Z.max (dexp b + 1) 0 <= B); [|lia].
      unfold B, scaled. apply Z.mul_le_mono_nonneg_l; [assumption|].
      apply pow10_le. lia. }
  cbn [bind]. rewrite <- Ecb, wht_cents by assumption.
  fold (scaled (-2) b). fold B W.
  set (w := mkDecimal (dsign b) (Z.to_N W) (-2)).
  assert (Hsw : scaled (-2) w = W).
  { unfold scaled. cbn [w dexp]. change (10 ^ (-2 - -2)) with 1.
    rewrite Z.mul_1_r. apply sval_cents_nonneg; [assumption|lia|].
    intros E. unfold W, B, scaled. rewrite Ecb, E. reflexivity. }
  assert (Hew : dexp w = -2) by reflexivity.
  clearbody w.
  (* the net rent, plus the VAT *)
  unfold TaxCalculator.calculate_payment_to_landlord.
  destruct (sub_scaled (-2) b w) as (net & -> & Hen & Hsn);
    try assumption; try lia.
  rewrite Hew in Hen. rewrite Hsw in Hsn. fold B in Hsn. cbn [bind].
  destruct (add_scaled (-2) net v) as (s & -> & Hes & Hss);
    try assumption; try lia.
  rewrite Hsn in Hss. fold V in Hss. cbn [bind].
  assert (Hes2 : dexp s = -2) by lia.
  assert (Hcs : Z.of_N (dint s) = B - W + V).
  { rewrite <- Hss. unfold scaled. rewrite Hes2.
    change (10 ^ (-2 - -2)) with 1. rewrite Z.mul_1_r.
    symmetry. apply sval_nonneg.
    assert (E : scaled (-2) s = sval s).
    { unfold scaled. rewrite Hes2. change (10 ^ (-2 - -2)) with 1. lia. }
    lia. }
  rewrite quantize_same by lia. cbn [bind].
  (* the total outflow *)
  unfold TaxCalculator.calculate_total_outflow.
  destruct (add_scaled (-2) s w) as (t0 & -> & Het & Hst);
    try assumption; try lia.
  rewrite Hew in Het. rewrite Hss, Hsw in Hst. cbn [bind].
  assert (Het2 : dexp t0 = -2) by lia.
  assert (Hct : Z.of_N (dint t0) = B + V).
  { replace (B + V) with (B - W + V + W) by ring. rewrite <- Hst.
    unfold scaled. rewrite Het2.
    change (10 ^ (-2 - -2)) with 1. rewrite Z.mul_1_r.
    symmetry. apply sval_nonneg.
    assert (E : scaled (-2) t0 = sval t0).
    { unfold scaled. rewrite Het2. change (10 ^ (-2 - -2)) with 1. lia. }
    lia. }
  rewrite quantize_same by lia. cbn [bind].
  exists s, w, t0. split; [reflexivity|].
  split; [exact Hes2|]. split; [exact Hew|]. split; [exact Het2|].
  split; [exact Hsw|]. split; [rewrite Hsw; exact Hss|]. lia.
Qed.

Lemma dval_cents_scaled (d : Decimal) :
  -2 <= dexp d -> dval d == Qmake (scaled (-2) d) 100.
Proof. intros H. now rewrite (dval_scaled (-2) d) by lia. Qed.

(** X9. On non-negative amounts in whole cents whose sum has at most 28
    digits, the three calculations of [calculate_and_display_taxes] lose
    nothing to rounding: the payment to the landlord is exactly
    base rent - WHT + VAT, the total outflow is exactly base rent + VAT,
    the two payments add up to the total outflow, and the withholding tax
    lies between 0 and the base rent. *)
Theorem payment_split_exact_on_cents (b v : Decimal) :
  0 <= sval b -> 0 <= sval v -> -2 <= dexp b -> -2 <= dexp v ->
  scaled (-2) b + scaled (-2) v < 10 ^ prec ->
  exists payment_to_landlord wht total_outflow,
    calculate_and_display_taxes b v
    = Return (payment_to_landlord, wht, total_outflow)
    /\ dexp payment_to_landlord = -2 /\ dexp wht = -2
    /\ dexp total_outflow = -2
    /\ dval payment_to_landlord == dval b - dval wht + dval v
    /\ dval total_outflow == dval b + dval v
    /\ dval payment_to_landlord + dval wht == dval total_outflow
    /\ (0 <= dval wht /\ dval wht <= dval b)%Q.
Proof.
  intros Hb Hv Heb Hev HS.
  destruct (taxes_cents b v Hb Hv Heb Hev HS)
    as (pay & w & tot & E & Hep & Hew & Het & Hw & Hp & Ht).
  exists pay, w, tot. split; [exact E|].
  split; [exact Hep|]. split; [exact Hew|]. split; [exact Het|].
  assert (HB : 0 <= scaled (-2) b).
  { unfold scaled. apply Z.mul_nonneg_nonneg; [assumption|].
    apply Z.lt_le_incl, pow10_pos. lia. }
  pose proof (round_half_up_one_le _ HB) as HW. rewrite <- Hw in HW.
  rewrite (dval_cents_scaled pay), (dval_cents_scaled w),
    (dval_cents_scaled tot), (dval_cents_scaled b), (dval_cents_scaled v)
    by lia.
  rewrite Hp, Ht.
  set (B := scaled (-2) b) in *. set (V := scaled (-2) v) in *.
  set (W := scaled (-2) w) in *. clearbody B V W.
  revert HW.
  clear. unfold Qeq, Qle, Qplus, Qminus, Qopp. cbn.
  intros. repeat split; lia.
Qed.

Lemma payment_split_exact_on_cents_witness :
  exists payment_to_landlord wht total_outflow,
    calculate_and_display_taxes
      (mkDecimal false 500000000 (-2)) (mkDecimal false 90000000 (-2))
    = Return (payment_to_landlord, wht, total_outflow)
    /\ dexp payment_to_landlord = -2 /\ dexp wht = -2
    /\ dexp total_outflow = -2
    /\ dval payment_to_landlord
       == dval (mkDecimal false 500000000 (-2)) - dval wht
          + dval (mkDecimal false 90000000 (-2))
    /\ dval total_outflow
       == dval (mkDecimal false 500000000 (-2))
          + dval (mkDecimal false 90000000 (-2))
    /\ dval payment_to_landlord + dval wht == dval total_outflow
    /\ (0 <= dval wht /\ dval wht <= dval (mkDecimal false 500000000 (-2)))%Q.
Proof.
  apply payment_split_exact_on_cents; vm_compute; try reflexivity;
    intros H; discriminate H.
Defined.

(** The verification of the total outflow, when the difference is
    exact. *)
Lemma verification_flag (x t : Decimal) :
  -2 <= dexp x -> -2 <= dexp t ->
  Z.min (dexp x) (dexp t) <= Etop ->
  Z.abs (scaled (-2) x - scaled (-2) t) < 10 ^ prec ->
  exists failed,
    verification_failed x t = Return failed
    /\ (failed = false <-> (Qabs (dval x - dval t) <= 1 # 10)%Q).
Proof.
  intros Hx Ht Htop Hd.
  assert (Hlo : Etiny <= -2) by (unfold Etiny, Emin, prec; lia).
  unfold verification_failed.
  destruct (sub_scaled (-2) x t) as (d & -> & Hed & Hsd); try assumption.
  cbn [bind].
  destruct (abs_scaled (-2) d) as (-> & Ha); try lia.
  cbn [bind]. eexists. split; [reflexivity|].
  set (a := mkDecimal false (dint d) (dexp d)) in *.
  assert (Hda : dval a == Qabs (dval x - dval t)).
  { rewrite (dval_scaled (-2) a), (dval_scaled (-2) x), (dval_scaled (-2) t)
      by (unfold a; cbn [dexp]; lia).
    rewrite Ha, Hsd.
    unfold Qeq, Qabs, Qminus, Qplus, Qopp. cbn [Qnum Qden].
    change (Z.to_pos (10 ^ (- (-2)))) with 100%positive.
    change (Z.pos (100 * 100)) with 10000. change (Z.pos 100) with 100.
    set (X := scaled (-2) x). set (T := scaled (-2) t). clearbody X T.
    replace (X * 100 + - T * 100) with ((X - T) * 100) by ring.
    rewrite Z.abs_mul. change (Z.abs 100) with 100. ring. }
  rewrite <- Hda.
  assert (E10 : dval (mkDecimal false 10 (-2)) == 1 # 10) by reflexivity.
  rewrite <- E10.
  unfold Dec.gtb. rewrite <- leb_dval.
  unfold Dec.ltb, Dec.leb.
  rewrite (compare_dval (mkDecimal false 10 (-2)) a), (compare_dval a).
  rewrite <- (Qcompare_antisym (dval (mkDecimal false 10 (-2))) (dval a)).
  destruct (dval (mkDecimal false 10 (-2)) ?= dval a)%Q; cbn [CompOpp];
    split; congruence.
Qed.

(** X10. Validation followed by calculation: for a record in whole cents
    (each amount below 10^25) that [validate_invoice] accepts, the three
    calculations return and the verification of the total outflow against
    the invoice total never fails. *)
Theorem verification_passes_on_validated_cents
    (invoice : InvoiceData) (b v t : Decimal) (errors : list error) :
  base_rent_tzs invoice = Some b ->
  vat_amount_tzs invoice = Some v ->
  total_amount_tzs invoice = Some t ->
  within (-2) (prec - 1) b -> within (-2) (prec - 1) v ->
  within (-2) (prec - 1) t ->
  validate_invoice invoice = Return (true, errors) ->
  exists payment_to_landlord wht total_outflow,
    calculate_and_display_taxes b v
    = Return (payment_to_landlord, wht, total_outflow)
    /\ verification_failed total_outflow t = Return false.
Proof.
  intros Eb Ev Et Hb Hv Ht Hval.
  destruct (validate_invoice_within invoice b v t (-2) Eb Ev Et) as
    (ok & errs & E & Hok & _); try assumption.
  { unfold Etiny, Emin, prec. lia. }
  rewrite Hval in E. injection E as <- <-.
  destruct Hok as [Hok _]. destruct (Hok eq_refl) as (Pb & Pv & Pt & Hres).
  apply dval_pos in Pb, Pv.
  destruct Hb as [Heb Hb], Hv as [Hev Hv], Ht as [Het Ht].
  assert (H27 : 3 * 10 ^ (prec - 1) < 10 ^ prec) by (vm_compute; reflexivity).
  destruct (taxes_cents b v) as (pay & w & tot & Ec & _ & _ & Hetot & _ & _ & Htot);
    try lia.
  exists pay, w, tot. split; [exact Ec|].
  destruct (verification_flag tot t) as (failed & Ef & Hf); try lia.
  { unfold Etop, Emax, prec. lia. }
  rewrite Ef. f_equal. apply Hf.
  assert (Eq : dval tot - dval t == dval b + dval v - dval t).
  { rewrite (dval_cents_scaled tot), (dval_cents_scaled b),
      (dval_cents_scaled v), (dval_cents_scaled t) by lia.
    rewrite Htot. unfold Qeq, Qminus, Qplus, Qopp. cbn. ring. }
  now rewrite Eq.
Qed.

Lemma verification_passes_on_validated_cents_witness :
  exists payment_to_landlord wht total_outflow,
    calculate_and_display_taxes
      (mkDecimal false 500000000 (-2)) (mkDecimal false 90000000 (-2))
    = Return (payment_to_landlord, wht, total_outflow)
    /\ verification_failed total_outflow (mkDecimal false 590000000 (-2))
       = Return false.
Proof.
  apply (verification_passes_on_validated_cents
           (mkInvoiceData (Some (mkDecimal false 500000000 (-2))) None
              (Some (mkDecimal false 90000000 (-2)))
              (Some (mkDecimal false 590000000 (-2))) EmptyString)
           _ _ _ []); try reflexivity.
  - split; [cbn; lia|vm_compute; reflexivity].
  - split; [cbn; lia|vm_compute; reflexivity].
  - split; [cbn; lia|vm_compute; reflexivity].
Defined.

(** ** Manual entry *)

Lemma truthy_pos (d : Decimal) : 0 < sval d -> truthy d = true.
Proof.
  intros H. rewrite truthy_sval.
  replace (sval d =? 0) with false by (symmetry; apply Z.eqb_neq; lia).
  reflexivity.
Qed.

Lemma within_pos_scaled (lo N : Z) (d : Decimal) :
  within lo N d -> 0 < sval d -> 0 < scaled lo d < 10 ^ N.
Proof.
  intros [He Hc] Hp. apply (scaled_pos lo) in Hp; lia.
Qed.

(** X11. Manual entry with a positive base rent and VAT amount and no
    total (amounts that are multiples of [10^lo] below [10^(lo + 26)]):
    the total is filled in as base rent + VAT, exactly, and the record is
    accepted when the button is pressed. *)
Theorem manual_entry_fills_total (b v : Decimal) (lo : Z) :
  Etiny <= lo <= 0 ->
  within lo (prec - 2) b -> within lo (prec - 2) v ->
  0 < sval b -> 0 < sval v ->
  exists s,
    add b v = Return s
    /\ dval s == dval b + dval v
    /\ manual_input_form (Some b) (Some v) None true
       = Return (Some (mkInvoiceData (Some b) None (Some v) (Some s)
                         EmptyString)).
Proof.
  intros Hlo Hb Hv Pb Pv.
  pose proof (within_pos_scaled _ _ _ Hb Pb) as HB.
  pose proof (within_pos_scaled _ _ _ Hv Pv) as HV.
  destruct Hb as [Heb _], Hv as [Hev _].
  assert (H26 : 2 * 10 ^ (prec - 2) < 10 ^ (prec - 1))
    by (vm_compute; reflexivity).
  assert (H27 : 10 ^ (prec - 1) < 10 ^ prec) by (vm_compute; reflexivity).
  assert (Htop : lo + (prec - 2) <= Etop)
    by (unfold Etop, Emax, prec in *; lia).
  destruct (add_scaled lo b v) as (s & Es & Hes & Hs); try lia.
  exists s. split; [exact Es|].
  assert (Hds : dval s == dval b + dval v).
  { rewrite (dval_scaled lo s), (dval_scaled lo b), (dval_scaled lo v) by lia.
    rewrite Hs. unfold Qeq, Qplus. cbn [Qnum Qden].
    rewrite Pos2Z.inj_mul. ring. }
  split; [exact Hds|].
  assert (Ps : 0 < sval s) by (apply (scaled_pos lo); lia).
  set (inv := mkInvoiceData (Some b) None (Some v) (Some s) EmptyString).
  assert (Hrun : manual_input_form (Some b) (Some v) None true
                 = r <- validate_invoice inv ;;
                   Return (if fst r then Some inv else None)).
  { unfold manual_input_form.
    cbn [base_rent_tzs vat_amount_tzs total_amount_tzs is_true negb].
    rewrite (truthy_pos b Pb), (truthy_pos v Pv). cbn [andb].
    rewrite Es. cbn [bind]. unfold set_total_amount_tzs.
    cbn [base_rent_tzs vat_amount_tzs total_amount_tzs vat_rate raw_text
         is_true].
    rewrite (truthy_pos v Pv), andb_false_r. reflexivity. }
  rewrite Hrun.
  destruct (validate_invoice_within inv b v s lo) as (ok & errs & E & Hok & _);
    try reflexivity; try assumption.
  { unfold within. lia. }
  { unfold within. lia. }
  { unfold within. lia. }
  rewrite E. cbn [bind fst].
  replace ok with true; [reflexivity|].
  symmetry. apply Hok. rewrite !dval_pos.
  repeat split; try assumption.
  rewrite (residual_scaled lo b v s) by lia.
  replace (scaled lo b + scaled lo v - scaled lo s) with 0 by lia.
  unfold Qle. cbn. lia.
Qed.

Lemma manual_entry_fills_total_witness :
  exists s,
    add (mkDecimal false 50000000 (-1)) (mkDecimal false 9000000 (-1))
    = Return s
    /\ dval s
       == dval (mkDecimal false 50000000 (-1))
          + dval (mkDecimal false 9000000 (-1))
    /\ manual_input_form (Some (mkDecimal false 50000000 (-1)))
         (Some (mkDecimal false 9000000 (-1))) None true
       = Return (Some (mkInvoiceData (Some (mkDecimal false 50000000 (-1)))
                         None (Some (mkDecimal false 9000000 (-1))) (Some s)
                         EmptyString)).
Proof.
  apply (manual_entry_fills_total _ _ (-1)).
  - unfold Etiny, Emin, prec. lia.
  - split; [cbn; lia|vm_compute; reflexivity].
  - split; [cbn; lia|vm_compute; reflexivity].
  - reflexivity.
  - reflexivity.
Defined.

(** X12. Manual entry with a positive base rent and total and no VAT
    amount (multiples of [10^lo] below [10^(lo + 27)]): the VAT amount is
    filled in as total - base rent, exactly; when the button is pressed
    the record is returned if the total exceeds the base rent, and
    rejected if it does not (a derived VAT of zero included). *)
Theorem manual_entry_fills_vat (b t : Decimal) (lo : Z) :
  Etiny <= lo <= 0 ->
  within lo (prec - 1) b -> within lo (prec - 1) t ->
  0 < sval b -> 0 < sval t ->
  exists d,
    sub t b = Return d
    /\ dval d == dval t - dval b
    /\ ((dval b < dval t)%Q ->
        manual_input_form (Some b) None (Some t) true
        = Return (Some (mkInvoiceData (Some b) None (Some d) (Some t)
                          EmptyString)))
    /\ ((dval t <= dval b)%Q ->
        manual_input_form (Some b) None (Some t) true = Return None).
Proof.
  intros Hlo Hb Ht Pb Pt.
  pose proof (within_pos_scaled _ _ _ Hb Pb) as HB.
  pose proof (within_pos_scaled _ _ _ Ht Pt) as HT.
  assert (H27 : 10 ^ (prec - 1) < 10 ^ prec) by (vm_compute; reflexivity).
  assert (Htop : lo + (prec - 1) <= Etop)
    by (unfold Etop, Emax, prec in *; lia).
  assert (Heb : lo <= dexp b <= lo + (prec - 1)) by apply Hb.
  assert (Het : lo <= dexp t <= lo + (prec - 1)) by apply Ht.
  destruct (sub_scaled lo t b) as (d & Ed & Hed & Hd); try lia.
  exists d. split; [exact Ed|].
  assert (Hdd : dval d == dval t - dval b).
  { rewrite (dval_scaled lo d), (dval_scaled lo b), (dval_scaled lo t) by lia.
    rewrite Hd. unfold Qeq, Qminus, Qplus, Qopp. cbn [Qnum Qden].
    rewrite Pos2Z.inj_mul. ring. }
  split; [exact Hdd|].
  assert (Hwd : within lo (prec - 1) d) by (unfold within; lia).
  assert (Hrun : manual_input_form (Some b) None (Some t) true
                 = r <- validate_invoice
                          (mkInvoiceData (Some b) None (Some d) (Some t)
                             EmptyString) ;;
                   Return (if fst r
                           then Some (mkInvoiceData (Some b) None (Some d)
                                        (Some t) EmptyString)
                           else None)).
  { unfold manual_input_form.
    cbn [base_rent_tzs vat_amount_tzs total_amount_tzs is_true negb bind].
    rewrite (truthy_pos b Pb), (truthy_pos t Pt). cbn [andb].
    rewrite Ed. reflexivity. }
  rewrite Hrun.
  set (inv := mkInvoiceData (Some b) None (Some d) (Some t) EmptyString).
  destruct (validate_invoice_within inv b d t lo) as (ok & errs & E & Hok & _);
    try reflexivity; try assumption.
  rewrite E. cbn [bind fst].
  assert (Hres : (Qabs (dval b + dval d - dval t) <= 1 # 10)%Q).
  { rewrite (residual_scaled lo b d t) by lia.
    replace (scaled lo b + scaled lo d - scaled lo t) with 0 by lia.
    unfold Qle. cbn. lia. }
  assert (Hiff : ok = true <-> scaled lo b < scaled lo t).
  { rewrite Hok, !dval_pos, <- !(scaled_pos lo) by lia.
    split; [intros (_ & H & _); lia|].
    intros H. repeat split; try lia. exact Hres. }
  split.
  - intros Hlt. apply (dval_lt_scaled lo) in Hlt; try lia.
    replace ok with true; [reflexivity|]. symmetry. now apply Hiff.
  - intros Hle. destruct ok; [|reflexivity].
    exfalso. apply Qle_not_lt in Hle. apply Hle.
    assert (scaled lo b < scaled lo t) by now apply Hiff.
    apply (dval_lt_scaled lo); lia.
Qed.

Lemma manual_entry_fills_vat_witness :
  exists d,
    sub (mkDecimal false 59000000 (-1)) (mkDecimal false 50000000 (-1))
    = Return d
    /\ dval d
       == dval (mkDecimal false 59000000 (-1))
          - dval (mkDecimal false 50000000 (-1))
    /\ ((dval (mkDecimal false 50000000 (-1))
         < dval (mkDecimal false 59000000 (-1)))%Q ->
        manual_input_form (Some (mkDecimal false 50000000 (-1))) None
          (Some (mkDecimal false 59000000 (-1))) true
        = Return (Some (mkInvoiceData (Some (mkDecimal false 50000000 (-1)))
                          None (Some d)
                          (Some (mkDecimal false 59000000 (-1)))
                          EmptyString)))
    /\ ((dval (mkDecimal false 59000000 (-1))
         <= dval (mkDecimal false 50000000 (-1)))%Q ->
        manual_input_form (Some (mkDecimal false 50000000 (-1))) None
          (Some (mkDecimal false 59000000 (-1))) true
        = Return None).
Proof.
  apply (manual_entry_fills_vat _ _ (-1)).
  - unfold Etiny, Emin, prec. lia.
  - split; [cbn; lia|vm_compute; reflexivity].
  - split; [cbn; lia|vm_compute; reflexivity].
  - reflexivity.
  - reflexivity.
Defined.

(** ** [format_currency] and the amount scan *)

Lemma digit_char_spec (n : Z) :
  0 <= n <= 9 ->
  is_digit (digit_char n) = true /\ digit_value (digit_char n) = Z.to_N n.
Proof.
  intros H. rewrite <- (Z2Nat.id n) by lia.
  assert (Hk : (Z.to_nat n < 10)%nat) by lia.
  generalize dependent (Z.to_nat n). intros k Hk.
  do 10 (destruct k as [|k]; [split; reflexivity|]). lia.
Qed.

Lemma digit_not_space (c : ascii) : is_digit c = true -> Re.is_space c = false.
Proof.
  unfold is_digit, Re.is_space. cbv zeta. intros H.
  apply andb_true_iff in H. destruct H as [H1 H2].
  apply N.leb_le in H1, H2.
  repeat rewrite orb_false_iff. repeat rewrite andb_false_iff.
  rewrite !N.leb_gt, !N.eqb_neq. repeat split; lia.
Qed.

Lemma digit_amount_char (c : ascii) :
  is_digit c = true -> Re.is_amount_char c = true.
Proof. unfold Re.is_amount_char. intros ->. reflexivity. Qed.

Lemma digit_not_comma (c : ascii) :
  is_digit c = true -> Ascii.eqb c "," = false.
Proof.
  intros H. destruct (Ascii.eqb_spec c ",") as [->|]; [discriminate|reflexivity].
Qed.

Lemma all_chars_app (p : ascii -> bool) (a b : string) :
  all_chars p (a ++ b) = (all_chars p a && all_chars p b)%bool.
Proof.
  induction a as [|c a IH]; cbn; [reflexivity|].
  now rewrite IH, andb_assoc.
Qed.

Lemma all_chars_impl (p q : ascii -> bool) (s : string) :
  (forall c, p c = true -> q c = true) ->
  all_chars p s = true -> all_chars q s = true.
Proof.
  intros Hpq. induction s as [|c s IH]; cbn; [reflexivity|].
  intros H. apply andb_true_iff in H. destruct H as [Hc Hs].
  now rewrite (Hpq _ Hc), IH.
Qed.

Lemma string_app_assoc (a b c : string) :
  ((a ++ b) ++ c)%string = (a ++ (b ++ c))%string.
Proof. induction a as [|x a IH]; cbn; [reflexivity|]. now rewrite IH. Qed.

Lemma digits_value_app (acc : N) (a b : string) :
  digits_value acc (a ++ b) = digits_value (digits_value acc a) b.
Proof.
  revert acc. induction a as [|c a IH]; intros acc; cbn; [reflexivity|].
  apply IH.
Qed.

Lemma int_digits_fuel_app (fuel : nat) (n : Z) (acc : string) :
  int_digits_fuel fuel n acc
  = (int_digits_fuel fuel n EmptyString ++ acc)%string.
Proof.
  revert n acc. induction fuel as [|f IH]; intros n acc; cbn [int_digits_fuel].
  - reflexivity.
  - destruct (n <? 10); [reflexivity|].
    rewrite (IH _ (String _ acc)), (IH _ (String _ EmptyString)).
    now rewrite string_app_assoc.
Qed.

Lemma int_digits_fuel_spec (fuel : nat) (n : Z) :
  0 <= n < 10 ^ (Z.of_nat fuel + 1) ->
  all_chars is_digit (int_digits_fuel fuel n EmptyString) = true
  /\ digits_value 0 (int_digits_fuel fuel n EmptyString) = Z.to_N n
  /\ int_digits_fuel fuel n EmptyString <> EmptyString.
Proof.
  revert n. induction fuel as [|f IH]; intros n Hn.
  - change (10 ^ (Z.of_nat 0 + 1)) with 10 in Hn.
    destruct (digit_char_spec n ltac:(lia)) as [H1 H2].
    cbn [int_digits_fuel all_chars digits_value]. rewrite H1, H2.
    split; [reflexivity|]. split; [lia|discriminate].
  - cbn [int_digits_fuel].
    destruct (Z.ltb_spec n 10) as [Hlt|Hge].
    + destruct (digit_char_spec n ltac:(lia)) as [H1 H2].
      cbn [all_chars digits_value]. rewrite H1, H2.
      split; [reflexivity|]. split; [lia|discriminate].
    + rewrite int_digits_fuel_app.
      assert (Hq : 0 <= n / 10 < 10 ^ (Z.of_nat f + 1)).
      { split; [apply Z.div_pos; lia|].
        apply Z.div_lt_upper_bound; [lia|].
        rewrite <- pow10_succ by lia.
        replace (Z.of_nat f + 1 + 1) with (Z.of_nat (S f) + 1) by lia.
        apply Hn. }
      destruct (IH _ Hq) as (Ha & Hv & Hne).
      pose proof (Z.mod_pos_bound n 10 ltac:(lia)) as Hm.
      destruct (digit_char_spec (n mod 10) ltac:(lia)) as [H1 H2].
      rewrite all_chars_app, digits_value_app, Ha, Hv.
      cbn [all_chars digits_value andb]. rewrite H1, H2.
      split; [reflexivity|]. split.
      * pose proof (Z.div_mod n 10 ltac:(lia)). lia.
      * destruct (int_digits_fuel f (n / 10) EmptyString);
          [contradiction|discriminate].
Qed.

Lemma int_digits_spec (n : Z) :
  0 <= n ->
  all_chars is_digit (int_digits n) = true
  /\ digits_value 0 (int_digits n) = Z.to_N n
  /\ int_digits n <> EmptyString.
Proof.
  intros Hn. apply int_digits_fuel_spec.
  split; [assumption|].
  rewrite Z2Nat.id by apply Z.log2_nonneg.
  destruct (Z.eq_dec n 0) as [->|Hne].
  - reflexivity.
  - pose proof (Z.log2_spec n ltac:(lia)) as [_ H2].
    pose proof (Z.log2_nonneg n).
    replace (Z.succ (Z.log2 n)) with (Z.log2 n + 1) in H2 by lia.
    assert (2 ^ (Z.log2 n + 1) <= 10 ^ (Z.log2 n + 1))
      by (apply Z.pow_le_mono_l; lia).
    lia.
Qed.

Lemma insert_thousands_sep_spec (s : string) :
  all_chars is_digit s = true ->
  Re.remove_commas (insert_thousands_sep s) = s
  /\ all_chars Re.is_amount_char (insert_thousands_sep s) = true.
Proof.
  induction s as [|c s IH]; cbn [insert_thousands_sep all_chars];
    [split; reflexivity|].
  intros H. apply andb_true_iff in H. destruct H as [Hc Hs].
  destruct (IH Hs) as [IH1 IH2].
  destruct (Nat.ltb 0 (String.length s)
            && Nat.eqb (Nat.modulo (String.length s) 3) 0)%bool;
    cbn [Re.remove_commas all_chars];
    rewrite (digit_not_comma _ Hc), (digit_amount_char _ Hc), ?IH1, ?IH2;
    split; reflexivity.
Qed.

Lemma take_while_app_stop (p : ascii -> bool) (run rest : string) :
  all_chars p run = true ->
  match rest with
  | String c _ => p c = false
  | EmptyString => True
  end ->
  Re.take_while p (run ++ rest) = (run, rest).
Proof.
  intros Hrun Hrest. induction run as [|c run IH]; cbn.
  - destruct rest as [|c r]; [reflexivity|]. cbn. now rewrite Hrest.
  - cbn in Hrun. apply andb_true_iff in Hrun. destruct Hrun as [Hc Hr].
    now rewrite Hc, IH.
Qed.

(** The number group on a formatted figure takes all of it. *)
Lemma number_formatted (run rest : string) (d1 d2 : ascii) :
  all_chars Re.is_amount_char run = true -> run <> EmptyString ->
  is_digit d1 = true -> is_digit d2 = true ->
  Re.number (run ++ String "." (String d1 (String d2 rest)))
  = Some ((run ++ String "." (String d1 (String d2 EmptyString)))%string, rest).
Proof.
  intros Hrun Hne H1 H2. unfold Re.number.
  rewrite take_while_app_stop by (try assumption; reflexivity).
  destruct run as [|c run]; [contradiction|].
  now rewrite H1, H2.
Qed.

Lemma finditer_from_skip_all {G : Type} (m : string -> option (G * string))
    (s : string) (k : nat) :
  (String.length s <= k)%nat -> Re.finditer_from m k s = [].
Proof.
  revert k. induction s as [|c s IH]; intros k Hk; [reflexivity|].
  cbn [String.length] in Hk. destruct k as [|k]; [lia|].
  cbn [Re.finditer_from]. apply IH. lia.
Qed.

Lemma finditer_from_none {G : Type} (m : string -> option (G * string))
    (P : string -> Prop) :
  (forall c s, P (String c s) -> P s) ->
  (forall s, P s -> m s = None) ->
  forall s k, P s -> Re.finditer_from m k s = [].
Proof.
  intros Htail Hnone s. induction s as [|c s IH]; intros k HP; [reflexivity|].
  cbn [Re.finditer_from]. destruct k as [|k].
  - rewrite (Hnone _ HP). apply IH. eapply Htail; eassumption.
  - apply IH. eapply Htail; eassumption.
Qed.

(** ** Texts in which no currency marker follows an amount *)

Lemma literal_t_none (pat s : string) :
  match s with
  | String c _ => not_t c = true
  | EmptyString => True
  end ->
  Re.literal (String "t" pat) s = None.
Proof.
  destruct s as [|c s]; [reflexivity|]. unfold not_t. cbn [Re.literal].
  intros H. apply negb_true_iff in H. now rewrite H.
Qed.

Lemma marker_none (s : string) :
  match s with
  | String c _ => not_t c = true
  | EmptyString => True
  end ->
  Re.marker s = None.
Proof.
  intros H. unfold Re.marker.
  now rewrite (literal_t_none "zs" s H), (literal_t_none "sh" s H).
Qed.

Lemma take_while_suffix (p q : ascii -> bool) (s : string) :
  all_chars q s = true -> all_chars q (snd (Re.take_while p s)) = true.
Proof.
  induction s as [|c s IH]; cbn; [reflexivity|].
  intros H. destruct (p c).
  - apply andb_true_iff in H. destruct H as [_ Hs].
    specialize (IH Hs). destruct (Re.take_while p s). exact IH.
  - exact H.
Qed.

Lemma all_chars_head (q : ascii -> bool) (s : string) :
  all_chars q s = true ->
  match s with
  | String c _ => q c = true
  | EmptyString => True
  end.
Proof.
  destruct s as [|c s]; [trivial|]. cbn. intros H.
  apply andb_true_iff in H. apply H.
Qed.

Lemma number_rest (q : ascii -> bool) (s g rest : string) :
  all_chars q s = true -> Re.number s = Some (g, rest) ->
  all_chars q rest = true.
Proof.
  intros Hq. unfold Re.number.
  pose proof (take_while_suffix Re.is_amount_char q s Hq) as Hr.
  destruct (Re.take_while Re.is_amount_char s) as [run r]. cbn [snd] in Hr.
  destruct run as [|c0 run0]; [discriminate|].
  assert (Hplain : Some (String c0 run0, r) = Some (g, rest) ->
                   all_chars q rest = true) by (now intros [= _ <-]).
  destruct r as [|c1 [|d1 [|d2 r']]]; try exact Hplain.
  - destruct c1 as [[] [] [] [] [] [] [] []]; exact Hplain.
  - destruct c1 as [[] [] [] [] [] [] [] []]; exact Hplain.
  - destruct (Ascii.eqb_spec c1 ".") as [->|Hne].
    2:{ destruct c1 as [[] [] [] [] [] [] [] []]; try exact Hplain.
        now contradiction Hne. }
    destruct (is_digit d1 && is_digit d2)%bool; [|exact Hplain].
    intros [= _ <-]. cbn in Hr.
    apply andb_true_iff in Hr. destruct Hr as [_ Hr].
    apply andb_true_iff in Hr. destruct Hr as [_ Hr].
    apply andb_true_iff in Hr. apply Hr.
Qed.

Lemma number_needs_amount_char (s : string) :
  match s with
  | String c _ => Re.is_amount_char c = false
  | EmptyString => True
  end ->
  Re.number s = None.
Proof.
  destruct s as [|c s]; [reflexivity|]. intros H.
  unfold Re.number. cbn [Re.take_while]. now rewrite H.
Qed.

Lemma from_first_amount_char_suffix (q : ascii -> bool) (s : string) :
  all_chars q s = true -> all_chars q (from_first_amount_char s) = true.
Proof.
  induction s as [|c s IH]; cbn; [reflexivity|].
  intros H. destruct (Re.is_amount_char c); [exact H|].
  apply andb_true_iff in H. apply IH, H.
Qed.

(** The amount-before-marker pattern matches nowhere in a text with no
    letter t after its first digit or comma. *)
Lemma amount_marker_none (s : string) :
  all_chars not_t (from_first_amount_char s) = true ->
  Re.amount_marker s = None.
Proof.
  intros H. unfold Re.amount_marker.
  destruct s as [|c s']; [reflexivity|].
  cbn [from_first_amount_char] in H.
  destruct (Re.is_amount_char c) eqn:Ec.
  - destruct (Re.number (String c s')) as [[g r]|] eqn:En; [|reflexivity].
    pose proof (number_rest not_t _ _ _ H En) as Hr.
    pose proof (take_while_suffix Re.is_space not_t r Hr) as Hk.
    fold (Re.skip Re.is_space r) in Hk.
    now rewrite (marker_none _ (all_chars_head _ _ Hk)).
  - now rewrite (number_needs_amount_char (String c s') Ec).
Qed.

Lemma finditer_amount_marker_none (s : string) :
  all_chars not_t (from_first_amount_char s) = true ->
  Re.finditer Re.amount_marker s = [].
Proof.
  intros H. unfold Re.finditer.
  apply (finditer_from_none Re.amount_marker
           (fun s => all_chars not_t (from_first_amount_char s) = true)).
  - intros c s0 H0. cbn [from_first_amount_char] in H0.
    destruct (Re.is_amount_char c); [|exact H0].
    apply from_first_amount_char_suffix.
    cbn in H0. apply andb_true_iff in H0. apply H0.
  - apply amount_marker_none.
  - exact H.
Qed.

Lemma amount_char_not_space (c : ascii) :
  Re.is_amount_char c = true -> Re.is_space c = false.
Proof.
  unfold Re.is_amount_char. intros H. apply orb_true_iff in H.
  destruct H as [H|H]; [now apply digit_not_space|].
  apply Ascii.eqb_eq in H. now subst c.
Qed.

Lemma digit_not_t (c : ascii) : is_digit c = true -> not_t c = true.
Proof.
  destruct c as [[] [] [] [] [] [] [] []]; try discriminate; reflexivity.
Qed.

Lemma amount_char_not_t (c : ascii) :
  Re.is_amount_char c = true -> not_t c = true.
Proof.
  unfold Re.is_amount_char. intros H. apply orb_true_iff in H.
  destruct H as [H|H]; [now apply digit_not_t|].
  apply Ascii.eqb_eq in H. now subst c.
Qed.

Lemma marker_tzs (s : string) :
  Re.marker (String "T" (String "Z" (String "S" s))) = Some s.
Proof. reflexivity. Qed.

Lemma skip_space_before_amount (s : string) :
  match s with
  | String c _ => Re.is_amount_char c = true
  | EmptyString => True
  end ->
  Re.skip Re.is_space (String " " s) = s.
Proof.
  intros H. unfold Re.skip. cbn [Re.take_while].
  change (Re.is_space " ") with true. cbv iota.
  destruct s as [|c s]; [reflexivity|].
  cbn [Re.take_while]. now rewrite (amount_char_not_space _ H).
Qed.

(** The figure [format_2f] writes for a non-negative amount, taken apart:
    the grouped integer part, and the two decimals. *)
Lemma format_2f_parts (d : Decimal) :
  dsign d = false ->
  let r := rescale d (-2) ROUND_HALF_EVEN in
  exists run d1 d2,
    format_2f d = (run ++ String "." (String d1 (String d2 EmptyString)))%string
    /\ all_chars Re.is_amount_char run = true /\ run <> EmptyString
    /\ is_digit d1 = true /\ is_digit d2 = true
    /\ of_string
         (Re.remove_commas
            (run ++ String "." (String d1 (String d2 EmptyString))))
       = Return r.
Proof.
  intros Hs r.
  destruct (rescale_fields d (-2) ROUND_HALF_EVEN) as [He Hsg].
  fold r in He, Hsg. rewrite Hs in Hsg.
  set (c := Z.of_N (dint r)).
  assert (Hc : 0 <= c) by (unfold c; lia).
  pose proof (Z.div_pos c 100 Hc ltac:(lia)) as Hq.
  destruct (int_digits_spec (c / 100) Hq) as (Hds & Hval & Hne).
  destruct (insert_thousands_sep_spec _ Hds) as (Hrm & Hrun).
  pose proof (Z.mod_pos_bound c 100 ltac:(lia)) as Hm.
  pose proof (Z.mod_pos_bound c 10 ltac:(lia)) as Hm10.
  assert (Hm1 : 0 <= c mod 100 / 10 <= 9).
  { split; [apply Z.div_pos; lia|].
    assert (c mod 100 / 10 < 10) by (apply Z.div_lt_upper_bound; lia). lia. }
  destruct (digit_char_spec _ Hm1) as [H1 V1].
  destruct (digit_char_spec (c mod 10) ltac:(lia)) as [H2 V2].
  exists (insert_thousands_sep (int_digits (c / 100))),
    (digit_char (c mod 100 / 10)), (digit_char (c mod 10)).
  split.
  { unfold format_2f. fold r. rewrite Hsg. fold c. reflexivity. }
  split; [exact Hrun|]. split.
  { destruct (int_digits (c / 100)); [contradiction|discriminate]. }
  split; [exact H1|]. split; [exact H2|].
  rewrite remove_commas_app, Hrm, remove_commas_fraction by assumption.
  unfold of_string. rewrite take_digits_point by assumption.
  cbn [take_digits]. rewrite H1, H2.
  destruct (int_digits (c / 100)
            ++ String (digit_char (c mod 100 / 10))
                 (String (digit_char (c mod 10)) EmptyString))%string
    as [|x xs] eqn:Ecat.
  { destruct (int_digits (c / 100)); discriminate. }
  rewrite <- Ecat. rewrite digits_value_app, Hval.
  cbn [digits_value String.length]. rewrite V1, V2.
  assert (Ev : (10 * (10 * Z.to_N (c / 100) + Z.to_N (c mod 100 / 10))
                + Z.to_N (c mod 10))%N = dint r).
  { apply N2Z.inj. rewrite !N2Z.inj_add, !N2Z.inj_mul, !Z2N.id by lia.
    fold c. change (Z.of_N 10) with 10.
    pose proof (Z.div_mod c 100 ltac:(lia)).
    pose proof (Z.div_mod (c mod 100) 10 ltac:(lia)).
    assert ((c mod 100) mod 10 = c mod 10).
    { apply Z.mod_mod_divide. exists 10. reflexivity. }
    lia. }
  rewrite Ev. f_equal.
  destruct r as [s0 c0 e0]. cbn [dsign dexp dint] in *.
  now rewrite Hsg, He.
Qed.

(** The amount scan of one formatted figure. *)
Lemma extract_amounts_formatted (d : Decimal) :
  dsign d = false ->
  extract_amounts (format_currency d "TZS")
  = [rescale d (-2) ROUND_HALF_EVEN].
Proof.
  intros Hs.
  destruct (format_2f_parts d Hs) as (run & d1 & d2 & Ef & Hrun & Hne & H1 & H2 & Hof).
  unfold format_currency. rewrite Ef.
  set (body := (run ++ String "." (String d1 (String d2 EmptyString)))%string)
    in *.
  change ("TZS" ++ " " ++ body)%string
    with (String "T" (String "Z" (String "S" (String " " body)))).
  assert (Hhead : match body with
                  | String c _ => Re.is_amount_char c = true
                  | EmptyString => True
                  end).
  { unfold body. destruct run as [|c run]; [contradiction|].
    cbn in Hrun |- *. apply andb_true_iff in Hrun. apply Hrun. }
  assert (Hm : Re.marker_amount
                 (String "T" (String "Z" (String "S" (String " " body))))
               = Some (body, EmptyString)).
  { unfold Re.marker_amount. rewrite marker_tzs.
    rewrite skip_space_before_amount by exact Hhead.
    unfold body. now apply number_formatted. }
  assert (Hnt : all_chars not_t body = true).
  { unfold body. rewrite all_chars_app.
    rewrite (all_chars_impl _ _ _ amount_char_not_t Hrun).
    cbn [all_chars andb].
    now rewrite (digit_not_t _ H1), (digit_not_t _ H2). }
  rewrite extract_amounts_eq.
  assert (E1 : Re.finditer Re.marker_amount
                 (String "T" (String "Z" (String "S" (String " " body))))
               = [body]).
  { unfold Re.finditer. cbn [Re.finditer_from]. rewrite Hm.
    f_equal. apply finditer_from_skip_all. apply Nat.le_refl. }
  assert (E2 : Re.finditer Re.amount_marker
                 (String "T" (String "Z" (String "S" (String " " body))))
               = []).
  { apply finditer_amount_marker_none.
    cbn [from_first_amount_char].
    change (Re.is_amount_char "T") with false.
    change (Re.is_amount_char "Z") with false.
    change (Re.is_amount_char "S") with false.
    change (Re.is_amount_char " ") with false. cbv iota.
    now apply from_first_amount_char_suffix. }
  rewrite E1, E2. unfold converted. cbn [flat_map app].
  now rewrite Hof.
Qed.

Lemma rescale_same (d : Decimal) (m : rounding) :
  dexp d = -2 -> rescale d (-2) m = d.
Proof.
  intros He. unfold rescale. destruct d as [s c e]. cbn [dexp dint dsign] in *.
  subst e. destruct (Z.eqb_spec (Z.of_N c) 0) as [E|E].
  - f_equal. lia.
  - change (-2 <=? -2) with true. cbv iota.
    change (10 ^ (-2 - -2)) with 1. now rewrite Z.mul_1_r, N2Z.id.
Qed.

(** X13. Round trip of display and extraction: the amount scan reads the
    text [format_currency] writes for a non-negative amount back as one
    amount, the amount rounded to two places (half-even, by the format);
    an amount that already has two places, as every amount the calculator
    returns, is read back unchanged. *)
Theorem format_currency_round_trip (d : Decimal) :
  dsign d = false ->
  extract_amounts (format_currency d "TZS")
  = [rescale d (-2) ROUND_HALF_EVEN]
  /\ (dexp d = -2 -> extract_amounts (format_currency d "TZS") = [d]).
Proof.
  intros Hs. split; [now apply extract_amounts_formatted|].
  intros He. rewrite extract_amounts_formatted by assumption.
  now rewrite rescale_same.
Qed.

Lemma format_currency_round_trip_witness :
  extract_amounts (format_currency (mkDecimal false 540000000 (-2)) "TZS")
  = [rescale (mkDecimal false 540000000 (-2)) (-2) ROUND_HALF_EVEN]
  /\ (dexp (mkDecimal false 540000000 (-2)) = -2 ->
      extract_amounts (format_currency (mkDecimal false 540000000 (-2)) "TZS")
      = [mkDecimal false 540000000 (-2)]).
Proof.
  apply (format_currency_round_trip (mkDecimal false 540000000 (-2))).
  reflexivity.
Defined.

(** ** Scanning a text piece by piece *)

Lemma string_length_app (a b : string) :
  String.length (a ++ b) = (String.length a + String.length b)%nat.
Proof. induction a as [|c a IH]; cbn; [reflexivity|]. now rewrite IH. Qed.

Section Pieces.
Context {G : Type} (m : string -> option (G * string)).

Lemma finditer_from_skip_prefix (a r : string) :
  Re.finditer_from m (String.length a) (a ++ r) = Re.finditer_from m 0 r.
Proof.
  induction a as [|c a IH]; [reflexivity|].
  cbn [String.length append Re.finditer_from]. exact IH.
Qed.

(** A match that ends where [rest] begins. *)
Lemma finditer_match (c : ascii) (a rest : string) (g : G) :
  m (String c (a ++ rest)) = Some (g, rest) ->
  Re.finditer_from m 0 (String c (a ++ rest))
  = g :: Re.finditer_from m 0 rest.
Proof.
  intros H. cbn [Re.finditer_from]. rewrite H. f_equal.
  cbn [String.length]. rewrite string_length_app.
  replace (S (String.length a + String.length rest) - String.length rest - 1)%nat
    with (String.length a) by lia.
  apply finditer_from_skip_prefix.
Qed.

Lemma finditer_prefix (pre s : string) :
  nowhere_in_prefix m pre s ->
  Re.finditer_from m 0 (pre ++ s) = Re.finditer_from m 0 s.
Proof.
  induction pre as [|c pre IH]; [reflexivity|].
  cbn [nowhere_in_prefix append]. intros [H1 H2].
  cbn [Re.finditer_from]. rewrite H1. now apply IH.
Qed.

Lemma search_prefix (pre s : string) :
  nowhere_in_prefix m pre s -> Re.search m (pre ++ s) = Re.search m s.
Proof.
  induction pre as [|c pre IH]; [reflexivity|].
  cbn [nowhere_in_prefix append]. intros [H1 H2].
  cbn [Re.search]. rewrite H1. now apply IH.
Qed.

Lemma nowhere_in_prefix_chars (p : ascii -> bool) (pre s : string) :
  (forall c s', p c = true -> m (String c s') = None) ->
  all_chars p pre = true -> nowhere_in_prefix m pre s.
Proof.
  intros Hp. induction pre as [|c pre IH]; cbn; [trivial|].
  intros H. apply andb_true_iff in H. destruct H as [Hc Hs].
  split; [now apply Hp|now apply IH].
Qed.

Lemma search_none_chars (p : ascii -> bool) (s : string) :
  (forall c s', p c = true -> m (String c s') = None) ->
  m EmptyString = None ->
  all_chars p s = true -> Re.search m s = None.
Proof.
  intros Hp H0. induction s as [|c s IH]; cbn [all_chars Re.search].
  - now rewrite H0.
  - intros H. apply andb_true_iff in H. destruct H as [Hc Hs].
    rewrite (Hp _ _ Hc). now apply IH.
Qed.
End Pieces.

(** ** Figures *)

Lemma figure_number (x rest : string) :
  figure x -> Re.number (x ++ rest) = Some (x, rest).
Proof.
  intros (run & d1 & d2 & -> & Hrun & Hne & H1 & H2).
  rewrite string_app_assoc. cbn [append].
  now apply number_formatted.
Qed.

Lemma figure_head (x : string) :
  figure x ->
  exists c x', x = String c x' /\ Re.is_amount_char c = true.
Proof.
  intros (run & d1 & d2 & -> & Hrun & Hne & H1 & H2).
  destruct run as [|c run]; [contradiction|].
  cbn in Hrun. apply andb_true_iff in Hrun.
  exists c. eexists. split; [reflexivity|apply Hrun].
Qed.

Lemma figure_chars (x : string) : figure x -> all_chars fig_char x = true.
Proof.
  intros (run & d1 & d2 & -> & Hrun & Hne & H1 & H2).
  rewrite all_chars_app.
  assert (Hd : forall d, is_digit d = true -> fig_char d = true).
  { intros d Hd. unfold fig_char. now rewrite (digit_amount_char _ Hd). }
  rewrite (all_chars_impl Re.is_amount_char fig_char run);
    [|unfold fig_char; now intros c ->|assumption].
  cbn [all_chars andb]. now rewrite (Hd _ H1), (Hd _ H2).
Qed.

Lemma format_2f_figure (d : Decimal) :
  dsign d = false ->
  figure (format_2f d)
  /\ of_string (Re.remove_commas (format_2f d))
     = Return (rescale d (-2) ROUND_HALF_EVEN).
Proof.
  intros Hs.
  destruct (format_2f_parts d Hs)
    as (run & d1 & d2 & Ef & Hrun & Hne & H1 & H2 & Hof).
  rewrite Ef. split; [|exact Hof].
  exists run, d1, d2. auto.
Qed.

Lemma fig_char_facts (c : ascii) :
  fig_char c = true ->
  Re.is_space c = false /\ not_t c = true /\ not_v c = true.
Proof.
  unfold fig_char. intros H. apply orb_true_iff in H.
  destruct H as [H|H].
  - split; [now apply amount_char_not_space|].
    split; [now apply amount_char_not_t|].
    unfold Re.is_amount_char in H. apply orb_true_iff in H.
    destruct H as [H|H].
    + destruct c as [[] [] [] [] [] [] [] []]; try discriminate; reflexivity.
    + apply Ascii.eqb_eq in H. now subst c.
  - apply Ascii.eqb_eq in H. subst c. repeat split.
Qed.

(** ** The amount-before-marker pattern on a marker-free text *)

Lemma number_suffix_safe (s g rest : string) :
  marker_free s = true -> Re.number s = Some (g, rest) ->
  safe_after rest = true.
Proof.
  assert (Hlast : forall a c r,
             marker_free (a ++ String c r) = true ->
             Re.is_amount_char c = true -> safe_after r = true).
  { induction a as [|x a IH]; intros c r H Hc.
    - cbn [append marker_free] in H. rewrite Hc in H.
      apply andb_true_iff in H. apply H.
    - cbn [append marker_free] in H. apply andb_true_iff in H.
      eapply IH; [apply H|exact Hc]. }
  intros Hfree. unfold Re.number.
  pose proof (take_while_spec Re.is_amount_char s) as [Hrun Es].
  destruct (Re.take_while Re.is_amount_char s) as [run r]. cbn [fst snd] in *.
  destruct run as [|c0 run0] eqn:Erun; [discriminate|].
  rewrite <- Erun in *.
  assert (Hplain : Some (run, r) = Some (g, rest) -> safe_after rest = true).
  { intros [= _ <-].
    assert (exists a c, run = (a ++ String c EmptyString)%string
                        /\ Re.is_amount_char c = true) as (a & c & Ea & Hc).
    { clear - Hrun Erun. rewrite Erun in Hrun. rewrite Erun. clear Erun.
      revert c0 Hrun. induction run0 as [|c1 run1 IH]; intros c0 Hrun.
      - exists EmptyString, c0. cbn in Hrun. rewrite andb_true_r in Hrun. auto.
      - cbn [all_chars] in Hrun. apply andb_true_iff in Hrun.
        destruct Hrun as [_ Hrun]. destruct (IH _ Hrun) as (a & c & Ea & Hc).
        exists (String c0 a), c. cbn [append]. rewrite <- Ea. auto. }
    apply (Hlast a c r); [|exact Hc].
    rewrite Es, Ea in Hfree. rewrite string_app_assoc in Hfree. exact Hfree. }
  destruct r as [|c1 [|d1 [|d2 r']]]; try exact Hplain.
  - destruct c1 as [[] [] [] [] [] [] [] []]; exact Hplain.
  - destruct c1 as [[] [] [] [] [] [] [] []]; exact Hplain.
  - destruct (Ascii.eqb_spec c1 ".") as [->|Hne].
    2:{ destruct c1 as [[] [] [] [] [] [] [] []]; try exact Hplain.
        now contradiction Hne. }
    destruct (is_digit d1 && is_digit d2)%bool eqn:Ed; [|exact Hplain].
    apply andb_true_iff in Ed. destruct Ed as [_ Ed2].
    intros [= _ <-].
    apply (Hlast (run ++ String "." (String d1 EmptyString))%string d2 r').
    + rewrite Es in Hfree. rewrite string_app_assoc. exact Hfree.
    + now apply digit_amount_char.
Qed.

Lemma amount_marker_free (s : string) :
  marker_free s = true -> Re.amount_marker s = None.
Proof.
  intros H. unfold Re.amount_marker.
  destruct (Re.number s) as [[g r]|] eqn:En; [|reflexivity].
  pose proof (number_suffix_safe _ _ _ H En) as Hs.
  unfold safe_after in Hs.
  destruct (Re.marker (Re.skip Re.is_space r)); [discriminate|reflexivity].
Qed.

Lemma finditer_amount_marker_free (s : string) :
  marker_free s = true -> Re.finditer Re.amount_marker s = [].
Proof.
  intros H. unfold Re.finditer.
  apply (finditer_from_none Re.amount_marker
           (fun s => marker_free s = true)).
  - intros c s0 H0. cbn [marker_free] in H0.
    apply andb_true_iff in H0. apply H0.
  - apply amount_marker_free.
  - exact H.
Qed.

Lemma safe_after_head (c : ascii) (s : string) :
  Re.is_space c = false -> not_t c = true -> safe_after (String c s) = true.
Proof.
  intros Hsp Ht. unfold safe_after, Re.skip. cbn [Re.take_while].
  rewrite Hsp. cbn [snd].
  now rewrite (marker_none (String c s) Ht).
Qed.

Lemma marker_free_figure (x rest : string) :
  all_chars fig_char x = true ->
  safe_after rest = true -> marker_free rest = true ->
  marker_free (x ++ rest) = true.
Proof.
  intros Hx Hs Hr. induction x as [|c x IH]; [exact Hr|].
  cbn [all_chars] in Hx. apply andb_true_iff in Hx. destruct Hx as [Hc Hx].
  cbn [append marker_free]. rewrite (IH Hx), andb_true_r.
  destruct (Re.is_amount_char c); [|reflexivity].
  destruct x as [|c' x']; [exact Hs|].
  cbn [all_chars] in Hx. apply andb_true_iff in Hx. destruct Hx as [Hc' _].
  destruct (fig_char_facts _ Hc') as (H1 & H2 & _).
  cbn [append]. now apply safe_after_head.
Qed.

(** ** The label-first invoice *)

Lemma string_app_nil_r (s : string) : (s ++ EmptyString)%string = s.
Proof. induction s as [|c s IH]; cbn; [reflexivity|]. now rewrite IH. Qed.

Lemma figure_app_head (x rest : string) :
  figure x ->
  match (x ++ rest)%string with
  | String c _ => Re.is_amount_char c = true
  | EmptyString => True
  end.
Proof.
  intros Hx. destruct (figure_head x Hx) as (c & x' & -> & Hc). exact Hc.
Qed.

Lemma marker_amount_figure (x rest : string) :
  figure x ->
  Re.marker_amount (String "T" (String "Z" (String "S" (String " " (x ++ rest)))))
  = Some (x, rest).
Proof.
  intros Hx. unfold Re.marker_amount. rewrite marker_tzs.
  rewrite skip_space_before_amount by now apply figure_app_head.
  now apply figure_number.
Qed.

(** The text of a label-first invoice, from its three figures. *)
Lemma label_first_text (rent vat total : Decimal) :
  label_first_invoice rent vat total
  = ("Rent TZS "
     ++ (format_2f rent
         ++ String newline
              ("VAT TZS "
               ++ (format_2f vat
                   ++ String newline
                        ("Total TZS " ++ (format_2f total ++ EmptyString))))))%string.
Proof.
  unfold label_first_invoice, format_currency.
  rewrite string_app_nil_r. cbn [append].
  rewrite ?string_app_assoc. cbn [append].
  rewrite ?string_app_assoc. reflexivity.
Qed.

Section LabelFirst.
Variables B V T : string.
Hypothesis HB : figure B.
Hypothesis HV : figure V.
Hypothesis HT : figure T.

Let text : string :=
  ("Rent TZS "
   ++ (B ++ String newline
         ("VAT TZS "
          ++ (V ++ String newline ("Total TZS " ++ (T ++ EmptyString))))))%string.

Lemma label_first_marker_amounts :
  Re.finditer Re.marker_amount text = [B; V; T].
Proof.
  unfold Re.finditer, text.
  set (r2 := String newline ("Total TZS " ++ (T ++ EmptyString))).
  set (r1 := String newline ("VAT TZS " ++ (V ++ r2))).
  transitivity (Re.finditer_from Re.marker_amount 0 ("TZS " ++ (B ++ r1))).
  { apply (finditer_prefix Re.marker_amount "Rent " ("TZS " ++ (B ++ r1))).
    repeat split. }
  transitivity (B :: Re.finditer_from Re.marker_amount 0 r1).
  { apply (finditer_match Re.marker_amount "T" ("ZS " ++ B) r1 B).
    apply (marker_amount_figure B r1 HB). }
  f_equal. unfold r1.
  transitivity (Re.finditer_from Re.marker_amount 0 ("TZS " ++ (V ++ r2))).
  { apply (finditer_prefix Re.marker_amount (String newline "VAT ")
             ("TZS " ++ (V ++ r2))).
    repeat split. }
  transitivity (V :: Re.finditer_from Re.marker_amount 0 r2).
  { apply (finditer_match Re.marker_amount "T" ("ZS " ++ V) r2 V).
    apply (marker_amount_figure V r2 HV). }
  f_equal. unfold r2.
  transitivity (Re.finditer_from Re.marker_amount 0 ("TZS " ++ (T ++ EmptyString))).
  { apply (finditer_prefix Re.marker_amount (String newline "Total ")
             ("TZS " ++ (T ++ EmptyString))).
    repeat split. }
  transitivity (T :: Re.finditer_from Re.marker_amount 0 EmptyString).
  { apply (finditer_match Re.marker_amount "T" ("ZS " ++ T) EmptyString T).
    apply (marker_amount_figure T EmptyString HT). }
  reflexivity.
Qed.

Lemma marker_free_prefix (pre s : string) :
  all_chars (fun c => negb (Re.is_amount_char c)) pre = true ->
  marker_free (pre ++ s) = marker_free s.
Proof.
  induction pre as [|c pre IH]; cbn [all_chars append marker_free];
    [reflexivity|].
  intros H. apply andb_true_iff in H. destruct H as [Hc Hs].
  apply negb_true_iff in Hc. rewrite Hc. cbn [andb]. now apply IH.
Qed.

Lemma label_first_amount_markers :
  Re.finditer Re.amount_marker text = [].
Proof.
  apply finditer_amount_marker_free. unfold text.
  set (r2 := String newline ("Total TZS " ++ (T ++ EmptyString))).
  set (r1 := String newline ("VAT TZS " ++ (V ++ r2))).
  rewrite marker_free_prefix by reflexivity.
  apply marker_free_figure; [now apply figure_chars|reflexivity|].
  unfold r1.
  change (String newline ("VAT TZS " ++ (V ++ r2)))
    with (String newline "VAT TZS " ++ (V ++ r2))%string.
  rewrite (marker_free_prefix (String newline "VAT TZS ")) by reflexivity.
  apply marker_free_figure; [now apply figure_chars|reflexivity|].
  unfold r2.
  change (String newline ("Total TZS " ++ (T ++ EmptyString)))
    with (String newline "Total TZS " ++ (T ++ EmptyString))%string.
  rewrite (marker_free_prefix (String newline "Total TZS ")) by reflexivity.
  apply marker_free_figure; [now apply figure_chars|reflexivity|reflexivity].
Qed.

Lemma vat_rate_amount_not_v (c : ascii) (s : string) :
  not_v c = true -> Re.vat_rate_amount (String c s) = None.
Proof.
  unfold not_v, Re.vat_rate_amount. cbn [Re.literal]. intros H.
  apply negb_true_iff in H. now rewrite H.
Qed.

Lemma figure_not_v (x : string) : figure x -> all_chars not_v x = true.
Proof.
  intros Hx. apply (all_chars_impl fig_char); [|now apply figure_chars].
  intros c Hc. now destruct (fig_char_facts c Hc) as (_ & _ & H).
Qed.

Lemma label_first_no_rate_clause :
  Re.search Re.vat_rate_amount text = None.
Proof.
  unfold text.
  set (r2 := String newline ("Total TZS " ++ (T ++ EmptyString))).
  set (r1' := ("AT TZS " ++ (V ++ r2))%string).
  transitivity (Re.search Re.vat_rate_amount
                  (("Rent TZS " ++ (B ++ String newline EmptyString))
                   ++ String "V" r1')).
  { f_equal. cbn [append]. rewrite string_app_assoc. reflexivity. }
  rewrite search_prefix.
  2:{ apply nowhere_in_prefix_chars with (p := not_v).
      - apply vat_rate_amount_not_v.
      - rewrite !all_chars_app, (figure_not_v B HB). reflexivity. }
  cbn [Re.search].
  assert (E : Re.vat_rate_amount (String "V" r1') = None) by reflexivity.
  rewrite E.
  apply search_none_chars with (p := not_v).
  - apply vat_rate_amount_not_v.
  - reflexivity.
  - unfold r1', r2.
    rewrite !all_chars_app. cbn [all_chars]. rewrite !all_chars_app.
    rewrite (figure_not_v V HV), (figure_not_v T HT). reflexivity.
Qed.

Lemma label_first_amount_before_vat :
  Re.search Re.amount_vat text = Some B.
Proof.
  unfold text.
  set (r1 := ("AT TZS "
              ++ (V ++ String newline ("Total TZS " ++ (T ++ EmptyString))))%string).
  transitivity (Re.search Re.amount_vat
                  ("TZS " ++ (B ++ String newline (String "V" r1)))).
  { apply (search_prefix Re.amount_vat "Rent "
             ("TZS " ++ (B ++ String newline (String "V" r1)))).
    repeat split. }
  cbn [append Re.search].
  assert (E : Re.amount_vat
                (String "T" (String "Z" (String "S"
                   (String " " (B ++ String newline (String "V" r1))))))
              = Some (B, String " " (String "T" (String "Z" (String "S"
                              (String " "
                                 (V ++ String newline
                                    ("Total TZS " ++ (T ++ EmptyString))))))))).
  { unfold Re.amount_vat.
    change (Re.opt_marker
              (String "T" (String "Z" (String "S"
                 (String " " (B ++ String newline (String "V" r1)))))))
      with (String " " (B ++ String newline (String "V" r1))).
    rewrite skip_space_before_amount by now apply figure_app_head.
    rewrite (figure_number B _ HB). reflexivity. }
  now rewrite E.
Qed.
End LabelFirst.

(** X14. A three-line invoice that writes each label before its amount
    ("Rent TZS ...", "VAT TZS ...", "Total TZS ...", the amounts as
    [format_currency] writes them) is misread: the amount scan finds the
    three amounts in order, but the VAT clause has no "VAT n%" form and
    its second pattern takes the figure that precedes the word VAT, so
    the rent is stored as the VAT amount, the total as the total, and the
    base rent is derived as total - rent. *)
Theorem label_first_invoice_takes_rent_for_vat (rent vat total : Decimal) :
  dsign rent = false -> dsign vat = false -> dsign total = false ->
  let text := label_first_invoice rent vat total in
  let r := rescale rent (-2) ROUND_HALF_EVEN in
  let v := rescale vat (-2) ROUND_HALF_EVEN in
  let t := rescale total (-2) ROUND_HALF_EVEN in
  extract_amounts text = [r; v; t]
  /\ vat_token text = Some (format_2f rent)
  /\ parse_invoice text
     = derive_base_rent (mkInvoiceData None None (Some r) (Some t) text)
  /\ (forall inv, parse_invoice text = Return inv ->
        vat_amount_tzs inv = Some r /\ total_amount_tzs inv = Some t).
Proof.
  intros Hr Hv Ht text r v t.
  destruct (format_2f_figure rent Hr) as [HB OB].
  destruct (format_2f_figure vat Hv) as [HV OV].
  destruct (format_2f_figure total Ht) as [HT OT].
  fold r in OB. fold v in OV. fold t in OT.
  pose proof (label_first_text rent vat total) as Etext. fold text in Etext.
  assert (S1 : Re.search Re.vat_rate_amount text = None).
  { rewrite Etext. exact (label_first_no_rate_clause _ _ _ HB HV HT). }
  assert (S2 : Re.search Re.amount_vat text = Some (format_2f rent)).
  { rewrite Etext. exact (label_first_amount_before_vat _ _ _ HB). }
  assert (A : extract_amounts text = [r; v; t]).
  { rewrite extract_amounts_eq, Etext.
    rewrite (label_first_marker_amounts _ _ _ HB HV HT).
    rewrite (label_first_amount_markers _ _ _ HB HV HT).
    unfold converted. cbn [flat_map app]. now rewrite OB, OV, OT. }
  split; [exact A|]. split.
  { unfold vat_token. now rewrite S1, S2. }
  assert (P : parse_invoice text
              = derive_base_rent
                  (mkInvoiceData None None (Some r) (Some t) text)).
  { unfold parse_invoice, extract_vat. rewrite A, S1, S2, OB. cbn [bind].
    change [r; v; t] with ([r] ++ [v; t]).
    rewrite identify_amounts_two. reflexivity. }
  split; [exact P|].
  intros inv Hinv. rewrite P in Hinv.
  apply derive_base_rent_fields in Hinv. destruct Hinv as (H1 & H2 & _).
  split; assumption.
Qed.

Lemma label_first_invoice_takes_rent_for_vat_witness :
  let text :=
    label_first_invoice (mkDecimal false 500000000 (-2))
      (mkDecimal false 90000000 (-2)) (mkDecimal false 590000000 (-2)) in
  let r := rescale (mkDecimal false 500000000 (-2)) (-2) ROUND_HALF_EVEN in
  let v := rescale (mkDecimal false 90000000 (-2)) (-2) ROUND_HALF_EVEN in
  let t := rescale (mkDecimal false 590000000 (-2)) (-2) ROUND_HALF_EVEN in
  extract_amounts text = [r; v; t]
  /\ vat_token text = Some (format_2f (mkDecimal false 500000000 (-2)))
  /\ parse_invoice text
     = derive_base_rent (mkInvoiceData None None (Some r) (Some t) text)
  /\ (forall inv, parse_invoice text = Return inv ->
        vat_amount_tzs inv = Some r /\ total_amount_tzs inv = Some t).
Proof.
  apply (label_first_invoice_takes_rent_for_vat
           (mkDecimal false 500000000 (-2)) (mkDecimal false 90000000 (-2))
           (mkDecimal false 590000000 (-2))); reflexivity.
Defined.

(** A floor of a quotient against an integer bound. *)
Lemma div_ge_iff (a b z : Z) : 0 < b -> (z <= a / b <-> z * b <= a).
Proof.
  intros Hb. split; intros H.
  - pose proof (Z.mul_div_le a b Hb). nia.
  - apply Z.div_le_lower_bound; lia.
Qed.

Lemma div_lt_iff (a b z : Z) : 0 < b -> (a / b < z <-> a < z * b).
Proof.
  intros Hb. split; intros H.
  - destruct (Z_lt_le_dec a (z * b)) as [L|L]; [exact L|].
    apply (div_ge_iff a b z Hb) in L. lia.
  - apply Z.div_lt_upper_bound; lia.
Qed.

(** A rational rounded half up to four places lies within 0.01 of 0.18
    exactly when the rational lies between 0.17005 and 0.18995. *)
Lemma round_half_up_band (x : Q) :
  (Qabs (round_half_up_Q x 4 - (18 # 100)) < 1 # 100)%Q
  <-> (17005 # 100000 <= x /\ x < 18995 # 100000)%Q.
Proof.
  destruct x as [n d]. unfold round_half_up_Q.
  change (10 ^ 4) with 10000. change (Z.to_pos 10000) with 10000%positive.
  destruct (Qle_bool 0 (n # d)) eqn:E.
  - apply Qle_bool_iff in E.
    assert (Hn : 0 <= n) by (revert E; unfold Qle; cbn; lia).
    set (m := Qfloor (Qabs (n # d) * inject_Z 10000 + (1 # 2))).
    assert (Hm : m = (n * 10000 * 2 + Z.pos d) / (Z.pos d * 2)).
    { subst m. unfold Qfloor, Qabs, Qplus, Qmult, inject_Z. cbn [Qnum Qden].
      rewrite Z.abs_eq by lia.
      rewrite !Pos2Z.inj_mul. rewrite !Z.mul_1_r, !Z.mul_1_l. reflexivity. }
    assert (Hlo : 1701 <= m <-> 1701 * (Z.pos d * 2) <= n * 10000 * 2 + Z.pos d)
      by (rewrite Hm; apply div_ge_iff; lia).
    assert (Hhi : m < 1900 <-> n * 10000 * 2 + Z.pos d < 1900 * (Z.pos d * 2))
      by (rewrite Hm; apply div_lt_iff; lia).
    clearbody m. clear Hm E.
    unfold Qlt, Qle, Qabs, Qminus, Qplus, Qopp. cbn [Qnum Qden].
    change (Z.pos (10000 * 100)) with 1000000.
    change (Z.pos 100000) with 100000. change (Z.pos 100) with 100.
    split.
    + intros H. assert (1701 <= m /\ m < 1900) as [A B] by lia.
      apply Hlo in A. apply Hhi in B. lia.
    + intros [A B].
      assert (A' : 1701 <= m) by (apply Hlo; lia).
      assert (B' : m < 1900) by (apply Hhi; lia). lia.
  - assert (Hn : n < 0).
    { destruct (Z_lt_le_dec n 0) as [L|L]; [exact L|].
      assert (Qle_bool 0 (n # d) = true) as E'
        by (apply Qle_bool_iff; unfold Qle; cbn; lia).
      congruence. }
    set (m := Qfloor (Qabs (n # d) * inject_Z 10000 + (1 # 2))).
    assert (Hm : 0 <= m).
    { subst m. unfold Qfloor, Qabs, Qplus, Qmult, inject_Z. cbn [Qnum Qden].
      apply Z.div_pos; lia. }
    clearbody m. clear E.
    unfold Qlt, Qle, Qabs, Qminus, Qplus, Qopp. cbn [Qnum Qden].
    change (Z.pos (10000 * 100)) with 1000000.
    change (Z.pos 100000) with 100000. change (Z.pos 100) with 100.
    split; [intros H|intros [A B]]; lia.
Qed.

(** X15. Within the exact range of the division, [verify_vat_rate] returns,
    and it flags the rate as standard exactly when the exact quotient of the
    VAT amount by the base rent is at least 0.17005 and below 0.18995. *)
Theorem verify_vat_rate_standard_band (vat base : Decimal) :
  0 < Z.of_N (dint base) < 10 ^ prec ->
  Z.of_N (dint vat) * 10 ^ Z.max (dexp vat - dexp base + 4) 0 < 10 ^ (prec - 1) ->
  Etiny + 56 <= dexp vat - dexp base ->
  exists r s,
    TaxCalculator.verify_vat_rate vat base = Return (r, s)
    /\ (s = true
        <-> (17005 # 100000 <= dval vat / dval base
             /\ dval vat / dval base < 18995 # 100000)%Q).
Proof.
  intros Hcb Hdom Hexp.
  destruct (verify_vat_rate_value vat base Hcb Hdom Hexp)
    as (r & s & Hret & _ & Hval).
  exists r, s. split; [exact Hret|].
  destruct (verify_vat_rate_flag vat base r s Hret) as [Hflag _].
  rewrite Hflag, <- round_half_up_band.
  assert (Hq : (dval r - (18 # 100) ==
                round_half_up_Q (dval vat / dval base) 4 - (18 # 100))%Q)
    by (rewrite Hval; reflexivity).
  rewrite Hq. reflexivity.
Qed.

Lemma verify_vat_rate_standard_band_witness :
  exists r s,
    TaxCalculator.verify_vat_rate
      (mkDecimal false 17005 (-2)) (mkDecimal false 100000 (-2))
    = Return (r, s)
    /\ (s = true
        <-> (17005 # 100000
               <= dval (mkDecimal false 17005 (-2))
                  / dval (mkDecimal false 100000 (-2))
             /\ dval (mkDecimal false 17005 (-2))
                / dval (mkDecimal false 100000 (-2)) < 18995 # 100000)%Q).
Proof.
  apply (verify_vat_rate_standard_band
           (mkDecimal false 17005 (-2)) (mkDecimal false 100000 (-2)));
    vm_compute; intuition discriminate.
Defined.

(** ** Division by one hundred *)

(** The zero-stripping loop removes at least the [k] zeros it is given room
    and fuel for. *)
Lemma strip_zeros_at_least (k fuel : nat) (c0 e ideal : Z) :
  (k <= fuel)%nat -> e + Z.of_nat k <= ideal ->
  exists z c',
    Z.of_nat k <= z <= Z.of_nat fuel
    /\ strip_zeros fuel (c0 * 10 ^ Z.of_nat k) e ideal = (c', e + z)
    /\ c0 * 10 ^ Z.of_nat k = c' * 10 ^ z.
Proof.
  revert fuel e. induction k as [|k IH]; intros fuel e Hk He.
  - destruct (strip_zeros_spec fuel (c0 * 10 ^ Z.of_nat 0) e ideal)
      as (z & c' & Hz & Hs & Hc).
    exists z, c'. split; [cbn; lia|]. split; assumption.
  - destruct fuel as [|f]; [lia|].
    assert (E10 : c0 * 10 ^ Z.of_nat (S k) = 10 * (c0 * 10 ^ Z.of_nat k)).
    { rewrite Nat2Z.inj_succ. unfold Z.succ. rewrite pow10_succ by lia. ring. }
    rewrite E10. cbn [strip_zeros].
    destruct (Z.ltb_spec e ideal) as [_|Hge]; [|lia].
    rewrite Z.mul_comm, Z.mod_mul by lia. cbn [Z.eqb andb].
    rewrite Z.div_mul by lia.
    destruct (IH f (e + 1)) as (z & c' & Hz & Hs & Hc); [lia|lia|].
    exists (z + 1), c'. split; [lia|]. split.
    + rewrite Hs. f_equal. lia.
    + rewrite pow10_succ by lia. rewrite Hc. ring.
Qed.

(** [Decimal(n) / 100] for an integer of at most 28 digits: exact, at an
    exponent between -2 and 0. *)
Lemma div_hundred (n : Z) :
  0 <= n < 10 ^ prec ->
  exists q,
    div (mkDecimal false (Z.to_N n) 0) (of_Z 100) = Return q
    /\ dsign q = false /\ -2 <= dexp q <= 0
    /\ Z.of_N (dint q) * 10 ^ (dexp q + 2) = n.
Proof.
  intros Hn. destruct (Z.eq_dec n 0) as [->|Hne].
  - exists (mkDecimal false 0 0). repeat split; cbn; lia.
  - assert (Hpos : 0 < n) by lia.
    destruct (ndigits_spec n Hpos) as (Hd1 & Hd2 & Hd3).
    assert (Hnd : ndigits n <= prec)
      by (apply ndigits_le; [lia|unfold prec; lia|lia]).
    set (shift := 3 - ndigits n + prec + 1).
    assert (Hsh : 4 <= shift <= 32) by (unfold shift, prec in *; lia).
    assert (Hdiv :
      div (mkDecimal false (Z.to_N n) 0) (of_Z 100)
      = let '(coeff, e) :=
          strip_zeros (Z.to_nat shift) (n * 10 ^ (shift - 2)) (- shift) 0 in
        fix_ (mkDecimal false (Z.to_N coeff) e)).
    { unfold div. change (of_Z 100) with (mkDecimal false 100 0).
      cbn [dint dexp dsign xorb]. rewrite Z2N.id by lia.
      change (Z.of_N 100) with 100. change (100 =? 0) with false. cbv iota.
      destruct (Z.eqb_spec n 0); [lia|].
      change (ndigits 100) with 3. fold shift.
      destruct (Z.leb_spec 0 shift); [|lia].
      rewrite div_eucl_div_mod.
      assert (E : n * 10 ^ shift = n * 10 ^ (shift - 2) * 100).
      { replace shift with (shift - 2 + 2) at 1 by lia.
        rewrite Z.pow_add_r by lia. change (10 ^ 2) with 100. ring. }
      rewrite E, Z.mod_mul, Z.div_mul by lia.
      change (0 =? 0) with true. cbv iota.
      replace (0 - 0 - shift) with (- shift) by lia.
      replace (0 - 0 - - shift) with shift by lia.
      reflexivity. }
    rewrite Hdiv. clear Hdiv.
    destruct (strip_zeros_at_least (Z.to_nat (shift - 2)) (Z.to_nat shift)
                n (- shift) 0) as (z & c' & Hz & Hs & Hc); [lia|lia|].
    rewrite !Z2Nat.id in * by lia. rewrite Hs.
    pose proof (pow10_pos (shift - 2) ltac:(lia)) as HP.
    assert (Ez : 10 ^ z = 10 ^ (z - (shift - 2)) * 10 ^ (shift - 2)).
    { rewrite <- Z.pow_add_r by lia. f_equal. lia. }
    assert (Hn' : n = c' * 10 ^ (z - (shift - 2))).
    { rewrite Ez in Hc.
      apply (Z.mul_cancel_r _ _ (10 ^ (shift - 2))); [lia|].
      rewrite Hc. ring. }
    pose proof (pow10_pos (z - (shift - 2)) ltac:(lia)) as HP'.
    assert (Hc' : 0 < c' <= n) by nia.
    exists (mkDecimal false (Z.to_N c') (- shift + z)).
    cbn [dsign dexp dint]. rewrite Z2N.id by lia.
    split; [|split; [reflexivity|split; [lia|]]].
    + apply fix_fits. split; cbn [dint dexp]; rewrite ?Z2N.id by lia.
      * lia.
      * unfold Etiny, Etop, Emin, Emax, prec. lia.
    + rewrite Hn'. f_equal. f_equal. lia.
Qed.

Lemma div_hundred_value (n : Z) (q : Decimal) :
  dsign q = false -> -2 <= dexp q <= 0 ->
  Z.of_N (dint q) * 10 ^ (dexp q + 2) = n ->
  dval q == n # 100.
Proof.
  intros Hs He Hn. rewrite (dval_scaled (-2)) by lia.
  unfold scaled, sval. rewrite Hs.
  replace (dexp q - -2) with (dexp q + 2) by lia. rewrite Hn.
  reflexivity.
Qed.

(** ** The rated invoice *)

Lemma digit_fig_char (c : ascii) : is_digit c = true -> fig_char c = true.
Proof. intros H. unfold fig_char. now rewrite (digit_amount_char _ H). Qed.

Lemma not_at_sign (c : ascii) (r : string) :
  is_digit c = true ->
  match String c r with
  | String "@" r' => Re.skip Re.is_space r'
  | _ => String c r
  end = String c r.
Proof.
  destruct c as [[] [] [] [] [] [] [] []]; try discriminate; reflexivity.
Qed.

(** The text of a rated invoice, from its figures. *)
Lemma rated_text (rent : Decimal) (pct : Z) (vat total : Decimal) :
  rated_invoice rent pct vat total
  = ("Rent TZS "
     ++ (format_2f rent
         ++ String newline
              ("VAT "
               ++ (int_digits pct
                   ++ ("% TZS "
                       ++ (format_2f vat
                           ++ String newline
                                ("Total TZS "
                                 ++ (format_2f total ++ EmptyString))))))))%string.
Proof.
  unfold rated_invoice, format_currency.
  rewrite string_app_nil_r. cbn [append].
  rewrite ?string_app_assoc. cbn [append].
  rewrite ?string_app_assoc. cbn [append].
  rewrite ?string_app_assoc. reflexivity.
Qed.

Section Rated.
Variables B D V T : string.
Hypothesis HB : figure B.
Hypothesis HV : figure V.
Hypothesis HT : figure T.
Hypothesis HD : all_chars is_digit D = true.
Hypothesis HDne : D <> EmptyString.

Let r2 : string := String newline ("Total TZS " ++ (T ++ EmptyString)).
Let r1 : string := ("% TZS " ++ (V ++ r2))%string.
Let text : string :=
  ("Rent TZS " ++ (B ++ String newline ("VAT " ++ (D ++ r1))))%string.

Lemma rated_marker_amounts :
  Re.finditer Re.marker_amount text = [B; V; T].
Proof.
  unfold Re.finditer, text.
  set (r0 := String newline ("VAT " ++ (D ++ r1))).
  transitivity (Re.finditer_from Re.marker_amount 0 ("TZS " ++ (B ++ r0))).
  { apply (finditer_prefix Re.marker_amount "Rent " ("TZS " ++ (B ++ r0))).
    repeat split. }
  transitivity (B :: Re.finditer_from Re.marker_amount 0 r0).
  { apply (finditer_match Re.marker_amount "T" ("ZS " ++ B) r0 B).
    apply (marker_amount_figure B r0 HB). }
  f_equal. unfold r0.
  transitivity (Re.finditer_from Re.marker_amount 0 (D ++ r1)).
  { apply (finditer_prefix Re.marker_amount (String newline "VAT ") (D ++ r1)).
    repeat split. }
  transitivity (Re.finditer_from Re.marker_amount 0 r1).
  { apply finditer_prefix.
    apply nowhere_in_prefix_chars with (p := is_digit); [|exact HD].
    intros c s' Hc. unfold Re.marker_amount.
    rewrite (marker_none (String c s')); [reflexivity|].
    now apply digit_not_t. }
  unfold r1.
  transitivity (Re.finditer_from Re.marker_amount 0 ("TZS " ++ (V ++ r2))).
  { apply (finditer_prefix Re.marker_amount "% " ("TZS " ++ (V ++ r2))).
    repeat split. }
  transitivity (V :: Re.finditer_from Re.marker_amount 0 r2).
  { apply (finditer_match Re.marker_amount "T" ("ZS " ++ V) r2 V).
    apply (marker_amount_figure V r2 HV). }
  f_equal. unfold r2.
  transitivity (Re.finditer_from Re.marker_amount 0 ("TZS " ++ (T ++ EmptyString))).
  { apply (finditer_prefix Re.marker_amount (String newline "Total ")
             ("TZS " ++ (T ++ EmptyString))).
    repeat split. }
  transitivity (T :: Re.finditer_from Re.marker_amount 0 EmptyString).
  { apply (finditer_match Re.marker_amount "T" ("ZS " ++ T) EmptyString T).
    apply (marker_amount_figure T EmptyString HT). }
  reflexivity.
Qed.

Lemma rated_amount_markers :
  Re.finditer Re.amount_marker text = [].
Proof.
  apply finditer_amount_marker_free. unfold text.
  rewrite (marker_free_prefix "Rent TZS ") by reflexivity.
  apply marker_free_figure; [now apply figure_chars|reflexivity|].
  change (String newline ("VAT " ++ (D ++ r1)))
    with (String newline "VAT " ++ (D ++ r1))%string.
  rewrite (marker_free_prefix (String newline "VAT ")) by reflexivity.
  apply marker_free_figure.
  { apply (all_chars_impl is_digit); [apply digit_fig_char|exact HD]. }
  { reflexivity. }
  unfold r1.
  rewrite (marker_free_prefix "% TZS ") by reflexivity.
  apply marker_free_figure; [now apply figure_chars|reflexivity|].
  unfold r2.
  change (String newline ("Total TZS " ++ (T ++ EmptyString)))
    with (String newline "Total TZS " ++ (T ++ EmptyString))%string.
  rewrite (marker_free_prefix (String newline "Total TZS ")) by reflexivity.
  apply marker_free_figure; [now apply figure_chars|reflexivity|reflexivity].
Qed.

Lemma rated_clause_match :
  Re.vat_rate_amount (String "V" (String "A" (String "T" (String " " (D ++ r1)))))
  = Some ((D, V), r2).
Proof.
  destruct D as [|c D'] eqn:ED; [contradiction|].
  assert (Hc : is_digit c = true).
  { cbn [all_chars] in HD. apply andb_true_iff in HD. apply HD. }
  rewrite <- ED in *.
  unfold Re.vat_rate_amount.
  change (Re.literal "vat"
            (String "V" (String "A" (String "T" (String " " (D ++ r1))))))
    with (Some (String " " (D ++ r1))).
  cbv iota beta.
  rewrite skip_space_before_amount.
  2:{ rewrite ED. cbn [append]. now apply digit_amount_char. }
  assert (Eat : match (D ++ r1)%string with
                | String "@" r' => Re.skip Re.is_space r'
                | _ => (D ++ r1)%string
                end = (D ++ r1)%string).
  { rewrite ED. cbn [append]. now apply not_at_sign. }
  rewrite Eat.
  rewrite (take_while_app_stop is_digit D r1 HD) by reflexivity.
  rewrite ED at 1. unfold r1 at 1. cbn [append]. cbv iota beta.
  change (Re.skip Re.is_colon_or_space
            (String " " (String "T" (String "Z" (String "S"
               (String " " (V ++ r2)))))))
    with (String "T" (String "Z" (String "S" (String " " (V ++ r2))))).
  change (Re.opt_marker
            (String "T" (String "Z" (String "S" (String " " (V ++ r2))))))
    with (String " " (V ++ r2)).
  rewrite skip_space_before_amount by now apply figure_app_head.
  rewrite (figure_number V r2 HV). rewrite ED. reflexivity.
Qed.

Lemma rated_rate_clause :
  Re.search Re.vat_rate_amount text = Some (D, V).
Proof.
  unfold text.
  transitivity (Re.search Re.vat_rate_amount
                  (("Rent TZS " ++ (B ++ String newline EmptyString))
                   ++ String "V" (String "A" (String "T" (String " " (D ++ r1)))))).
  { f_equal. cbn [append]. rewrite string_app_assoc. reflexivity. }
  rewrite search_prefix.
  2:{ apply nowhere_in_prefix_chars with (p := not_v).
      - apply vat_rate_amount_not_v.
      - rewrite !all_chars_app, (figure_not_v B HB). reflexivity. }
  cbn [Re.search]. now rewrite rated_clause_match.
Qed.
End Rated.

(** The integer a rate clause states converts to itself. *)
Lemma of_string_int_digits (n : Z) :
  0 <= n -> of_string (int_digits n) = Return (mkDecimal false (Z.to_N n) 0).
Proof.
  intros Hn. destruct (int_digits_spec n Hn) as (Hd & Hv & Hne).
  unfold of_string. rewrite take_digits_all by assumption.
  destruct (int_digits n) as [|c ds] eqn:E; [contradiction|].
  now rewrite Hv.
Qed.

(** X16. A three-line invoice whose VAT line states the rate ("Rent TZS
    ...", "VAT n% TZS ...", "Total TZS ...", the amounts as
    [format_currency] writes them, VAT and total positive) is read as
    written: the VAT rate is n/100 exactly, the VAT amount and the total
    are the printed figures, and the base rent is derived as total - VAT,
    with two decimal places; the printed rent itself is not used. *)
Theorem rated_invoice_read_as_written
    (rent vat total : Decimal) (pct : Z) :
  dsign rent = false -> dsign vat = false -> dsign total = false ->
  0 <= pct < 10 ^ prec ->
  let text := rated_invoice rent pct vat total in
  let v := rescale vat (-2) ROUND_HALF_EVEN in
  let t := rescale total (-2) ROUND_HALF_EVEN in
  0 < Z.of_N (dint v) < 10 ^ prec -> 0 < Z.of_N (dint t) < 10 ^ prec ->
  exists inv rate b,
    parse_invoice text = Return inv
    /\ vat_rate inv = Some rate /\ dval rate == pct # 100
    /\ vat_amount_tzs inv = Some v /\ total_amount_tzs inv = Some t
    /\ base_rent_tzs inv = Some b /\ dexp b = -2
    /\ dval b == dval t - dval v.
Proof.
  intros Hr Hv Ht Hp text v t Bv Bt.
  destruct (format_2f_figure rent Hr) as [HB OB].
  destruct (format_2f_figure vat Hv) as [HV OV].
  destruct (format_2f_figure total Ht) as [HT OT].
  set (r := rescale rent (-2) ROUND_HALF_EVEN) in OB.
  fold v in OV. fold t in OT.
  destruct (int_digits_spec pct ltac:(lia)) as (HD & _ & HDne).
  pose proof (rated_text rent pct vat total) as Etext. fold text in Etext.
  assert (S1 : Re.search Re.vat_rate_amount text
               = Some (int_digits pct, format_2f vat)).
  { rewrite Etext. exact (rated_rate_clause _ _ _ _ HB HV HD HDne). }
  assert (A : extract_amounts text = [r; v; t]).
  { rewrite extract_amounts_eq, Etext.
    rewrite (rated_marker_amounts _ _ _ _ HB HV HT HD).
    rewrite (rated_amount_markers _ _ _ _ HB HV HT HD).
    unfold converted. cbn [flat_map app]. now rewrite OB, OV, OT. }
  destruct (div_hundred pct Hp) as (rate & Hdiv & Hsr & Her & Hvr).
  assert (P : parse_invoice text
              = derive_base_rent
                  (mkInvoiceData None (Some rate) (Some v) (Some t) text)).
  { unfold parse_invoice, extract_vat. rewrite A, S1.
    rewrite of_string_int_digits by lia. cbn [bind].
    rewrite Hdiv. cbn [bind]. rewrite OV. cbn [bind].
    change [r; v; t] with ([r] ++ [v; t]).
    rewrite identify_amounts_two. reflexivity. }
  assert (Hev : dexp v = -2) by apply rescale_fields.
  assert (Het : dexp t = -2) by apply rescale_fields.
  assert (Hsv : scaled (-2) v = sval v)
    by (unfold scaled; rewrite Hev; change (10 ^ (-2 - -2)) with 1; lia).
  assert (Hst : scaled (-2) t = sval t)
    by (unfold scaled; rewrite Het; change (10 ^ (-2 - -2)) with 1; lia).
  assert (Hzv : sval v = Z.of_N (dint v)).
  { unfold sval. replace (dsign v) with false; [reflexivity|].
    symmetry. rewrite <- Hv. apply rescale_fields. }
  assert (Hzt : sval t = Z.of_N (dint t)).
  { unfold sval. replace (dsign t) with false; [reflexivity|].
    symmetry. rewrite <- Ht. apply rescale_fields. }
  destruct (sub_scaled (-2) t v) as (b & Hsub & Heb & HSb); try lia.
  { unfold Etiny, Emin, prec. lia. }
  { unfold Etop, Emax, prec. lia. }
  assert (Etr : (truthy t && truthy v)%bool = true).
  { rewrite !truthy_sval, Hzv, Hzt.
    destruct (Z.eqb_spec (Z.of_N (dint t)) 0); [lia|].
    destruct (Z.eqb_spec (Z.of_N (dint v)) 0); [lia|]. reflexivity. }
  exists (set_base_rent_tzs
            (mkInvoiceData None (Some rate) (Some v) (Some t) text) b), rate, b.
  split.
  { rewrite P. unfold derive_base_rent. cbn [total_amount_tzs vat_amount_tzs].
    rewrite Etr, Hsub. reflexivity. }
  cbn [set_base_rent_tzs vat_rate vat_amount_tzs total_amount_tzs base_rent_tzs].
  repeat split.
  - now apply div_hundred_value.
  - lia.
  - rewrite (dval_scaled (-2) b), (dval_scaled (-2) t), (dval_scaled (-2) v)
      by lia.
    rewrite HSb. unfold Qeq, Qminus, Qplus, Qopp. cbn [Qnum Qden].
    change (Z.to_pos (10 ^ (- (-2)))) with 100%positive.
    change (Z.pos (100 * 100)) with 10000. change (Z.pos 100) with 100. lia.
Qed.

Lemma rated_invoice_read_as_written_witness :
  let text :=
    rated_invoice (mkDecimal false 500000000 (-2)) 18
      (mkDecimal false 90000000 (-2)) (mkDecimal false 590000000 (-2)) in
  let v := rescale (mkDecimal false 90000000 (-2)) (-2) ROUND_HALF_EVEN in
  let t := rescale (mkDecimal false 590000000 (-2)) (-2) ROUND_HALF_EVEN in
  exists inv rate b,
    parse_invoice text = Return inv
    /\ vat_rate inv = Some rate /\ dval rate == 18 # 100
    /\ vat_amount_tzs inv = Some v /\ total_amount_tzs inv = Some t
    /\ base_rent_tzs inv = Some b /\ dexp b = -2
    /\ dval b == dval t - dval v.
Proof.
  apply (rated_invoice_read_as_written
           (mkDecimal false 500000000 (-2)) (mkDecimal false 90000000 (-2))
           (mkDecimal false 590000000 (-2)) 18);
    try reflexivity; vm_compute; split; first [reflexivity|discriminate].
Defined.

(** ** The invoice number and the landlord TIN *)

Lemma ref_char_not_space (c : ascii) :
  is_ref_char c = true ->
  Re.is_space c = false /\ Re.is_colon_or_space c = false.
Proof.
  destruct c as [[] [] [] [] [] [] [] []]; try discriminate; split; reflexivity.
Qed.

Lemma digit_not_colon_or_space (c : ascii) :
  is_digit c = true -> Re.is_colon_or_space c = false.
Proof.
  destruct c as [[] [] [] [] [] [] [] []]; try discriminate; reflexivity.
Qed.

Lemma lstrip_no_space (s : string) :
  all_chars (fun c => negb (Re.is_space c)) s = true -> lstrip s = s.
Proof.
  destruct s as [|c s]; [reflexivity|]. cbn [all_chars lstrip].
  intros H. apply andb_true_iff in H. destruct H as [Hc _].
  apply negb_true_iff in Hc. now rewrite Hc.
Qed.

Lemma rstrip_no_space (s : string) :
  all_chars (fun c => negb (Re.is_space c)) s = true -> rstrip s = s.
Proof.
  induction s as [|c s IH]; [reflexivity|]. cbn [all_chars rstrip].
  intros H. apply andb_true_iff in H. destruct H as [Hc Hs].
  apply negb_true_iff in Hc. rewrite (IH Hs), Hc. now destruct s.
Qed.

Lemma strip_no_space (s : string) :
  all_chars (fun c => negb (Re.is_space c)) s = true -> strip s = s.
Proof.
  intros H. unfold strip. rewrite (rstrip_no_space s H).
  now apply lstrip_no_space.
Qed.

Lemma strip_ref (g : string) : all_chars is_ref_char g = true -> strip g = g.
Proof.
  intros H. apply strip_no_space.
  apply (all_chars_impl is_ref_char); [|exact H].
  intros c Hc. apply negb_true_iff. now apply ref_char_not_space.
Qed.

Lemma strip_digits (g : string) : all_chars is_digit g = true -> strip g = g.
Proof.
  intros H. apply strip_no_space.
  apply (all_chars_impl is_digit); [|exact H].
  intros c Hc. apply negb_true_iff. now apply digit_not_space.
Qed.

(** A class run is skipped up to the first character outside the class. *)
Lemma skip_app_stop (p : ascii -> bool) (run rest : string) :
  all_chars p run = true ->
  match rest with
  | String c _ => p c = false
  | EmptyString => True
  end ->
  Re.skip p (run ++ rest) = rest.
Proof.
  intros H1 H2. unfold Re.skip. now rewrite take_while_app_stop.
Qed.

Lemma ref_group_app (ref rest : string) :
  all_chars is_ref_char ref = true -> ref <> EmptyString ->
  match rest with
  | String c _ => is_ref_char c = false
  | EmptyString => True
  end ->
  ref_group (ref ++ rest) = Some (ref, rest).
Proof.
  intros H1 Hne H2. unfold ref_group. rewrite take_while_app_stop by assumption.
  destruct ref; [contradiction|reflexivity].
Qed.

(** What follows a label: separators, then the reference. *)
Lemma label_tail (sep ref rest : string) :
  all_chars Re.is_colon_or_space sep = true ->
  all_chars is_ref_char ref = true -> ref <> EmptyString ->
  match rest with
  | String c _ => is_ref_char c = false
  | EmptyString => True
  end ->
  ref_group (Re.skip Re.is_colon_or_space (sep ++ (ref ++ rest)))
  = Some (ref, rest).
Proof.
  intros Hsep Href Hne Hrest. rewrite skip_app_stop.
  - now apply ref_group_app.
  - exact Hsep.
  - destruct ref as [|c ref']; [contradiction|]. cbn [append].
    cbn [all_chars] in Href. apply andb_true_iff in Href.
    now apply ref_char_not_space.
Qed.

Lemma invoice_label_not_i (c : ascii) (s : string) :
  not_i c = true -> invoice_label (String c s) = None.
Proof.
  unfold not_i, invoice_label. cbn [Re.literal]. intros H.
  apply negb_true_iff in H. now rewrite H.
Qed.

Lemma inv_label_not_i (c : ascii) (s : string) :
  not_i c = true -> inv_label (String c s) = None.
Proof.
  unfold not_i, inv_label. cbn [Re.literal]. intros H.
  apply negb_true_iff in H. now rewrite H.
Qed.

(** X17. A labelled invoice number is extracted as written: in a text
    with no letter i before the word "Invoice" followed, after any white
    space, by "No", "Number" or "#", the invoice number is the run of
    letters, digits, hyphens and slashes that follows the label and its
    colons and blanks. *)
Theorem invoice_number_after_label (pre sp label sep ref rest : string) :
  all_chars not_i pre = true ->
  all_chars Re.is_space sp = true ->
  label = "No"%string \/ label = "Number"%string \/ label = "#"%string ->
  all_chars Re.is_colon_or_space sep = true ->
  all_chars is_ref_char ref = true -> ref <> EmptyString ->
  match rest with
  | String c _ => is_ref_char c = false
  | EmptyString => True
  end ->
  extract_invoice_number
    (pre ++ ("Invoice" ++ (sp ++ (label ++ (sep ++ (ref ++ rest))))))
  = Some ref.
Proof.
  intros Hpre Hsp Hlabel Hsep Href Hne Hrest.
  unfold extract_invoice_number.
  rewrite search_prefix
    by (apply nowhere_in_prefix_chars with (p := not_i);
        [apply invoice_label_not_i|exact Hpre]).
  pose proof (label_tail sep ref rest Hsep Href Hne Hrest) as Htail.
  set (body := (sep ++ (ref ++ rest))%string) in *.
  assert (E : invoice_label ("Invoice" ++ (sp ++ (label ++ body)))
              = Some (ref, rest)).
  { unfold invoice_label.
    change (Re.literal "invoice" ("Invoice" ++ (sp ++ (label ++ body))))
      with (Some (sp ++ (label ++ body))%string).
    cbv iota beta zeta.
    rewrite (skip_app_stop Re.is_space sp (label ++ body) Hsp)
      by (destruct Hlabel as [ -> | [ -> | -> ] ]; reflexivity).
    destruct Hlabel as [ -> | [ -> | -> ] ].
    - change (Re.literal "no" ("No" ++ body)) with (Some body).
      cbv iota beta. now rewrite Htail.
    - change (Re.literal "no" ("Number" ++ body)) with (@None string).
      change (Re.literal "number" ("Number" ++ body)) with (Some body).
      cbv iota beta. now rewrite Htail.
    - change (Re.literal "no" ("#" ++ body)) with (@None string).
      change (Re.literal "number" ("#" ++ body)) with (@None string).
      change (Re.literal "#" ("#" ++ body)) with (Some body).
      cbv iota beta. now rewrite Htail. }
  assert (S : Re.search invoice_label ("Invoice" ++ (sp ++ (label ++ body)))
              = Some ref).
  { change ("Invoice" ++ (sp ++ (label ++ body)))%string
      with (String "I" ("nvoice" ++ (sp ++ (label ++ body)))) in *.
    cbn [Re.search]. now rewrite E. }
  rewrite S. now rewrite strip_ref.
Qed.

Lemma invoice_number_after_label_witness :
  extract_invoice_number
    (String "T" (String "a" (String "x" (String newline
       "Invoice No: INV-2024/001 Date: 01/02/2024"))))
  = Some "INV-2024/001"%string.
Proof.
  apply (invoice_number_after_label
           (String "T" (String "a" (String "x" (String newline EmptyString))))
           " " "No" ": " "INV-2024/001" " Date: 01/02/2024");
    try reflexivity; [left; reflexivity|discriminate].
Defined.

Lemma literal_cons (p : ascii) (pat s r : string) :
  Re.literal (String p pat) s = Some r ->
  exists c s',
    s = String c s' /\ Ascii.eqb (Re.lower c) p = true
    /\ Re.literal pat s' = Some r.
Proof.
  cbn [Re.literal]. destruct s as [|c s']; [discriminate|].
  destruct (Ascii.eqb (Re.lower c) p) eqn:E; [|discriminate].
  intros H. exists c, s'. auto.
Qed.

Lemma oice_ref (c p : ascii) :
  Ascii.eqb (Re.lower c) p = true ->
  (p = "o" \/ p = "i" \/ p = "c" \/ p = "e")%char ->
  is_ref_char c = true.
Proof.
  intros H [ -> | [ -> | [ -> | -> ] ] ];
    destruct c as [[] [] [] [] [] [] [] []]; try discriminate; reflexivity.
Qed.

(** X18. The word "Invoice" alone yields a fragment of itself: when the
    labelled pattern matches nowhere in a text whose first letter i begins
    the word "Invoice" (in any case), the second pattern takes "Inv" for
    the label, and the invoice number is "oice" with whatever letters,
    digits, hyphens and slashes follow the word. *)
Theorem invoice_number_from_word_invoice (pre s rest : string) :
  all_chars not_i pre = true ->
  Re.literal "invoice" s = Some rest ->
  Re.search invoice_label (pre ++ s) = None ->
  extract_invoice_number (pre ++ s)
  = Some (substring 3 4 s ++ fst (Re.take_while is_ref_char rest))%string.
Proof.
  intros Hpre Hlit Hnone. unfold extract_invoice_number. rewrite Hnone.
  rewrite search_prefix
    by (apply nowhere_in_prefix_chars with (p := not_i);
        [apply inv_label_not_i|exact Hpre]).
  apply literal_cons in Hlit. destruct Hlit as (c1 & s1 & -> & H1 & Hlit).
  apply literal_cons in Hlit. destruct Hlit as (c2 & s2 & -> & H2 & Hlit).
  apply literal_cons in Hlit. destruct Hlit as (c3 & s3 & -> & H3 & Hlit).
  apply literal_cons in Hlit. destruct Hlit as (c4 & s4 & -> & H4 & Hlit).
  apply literal_cons in Hlit. destruct Hlit as (c5 & s5 & -> & H5 & Hlit).
  apply literal_cons in Hlit. destruct Hlit as (c6 & s6 & -> & H6 & Hlit).
  apply literal_cons in Hlit. destruct Hlit as (c7 & s7 & -> & H7 & Hlit).
  cbn [Re.literal] in Hlit. injection Hlit as ->.
  pose proof (oice_ref c4 _ H4 ltac:(auto)) as R4.
  pose proof (oice_ref c5 _ H5 ltac:(auto)) as R5.
  pose proof (oice_ref c6 _ H6 ltac:(auto)) as R6.
  pose proof (oice_ref c7 _ H7 ltac:(auto)) as R7.
  pose proof (take_while_spec is_ref_char rest) as [Hrun _].
  set (g := String c4 (String c5 (String c6 (String c7
              (fst (Re.take_while is_ref_char rest)))))).
  assert (E : inv_label
                (String c1 (String c2 (String c3
                   (String c4 (String c5 (String c6 (String c7 rest)))))))
              = Some (g, snd (Re.take_while is_ref_char rest))).
  { unfold inv_label. cbn [Re.literal]. rewrite H1, H2, H3.
    unfold Re.skip. cbn [Re.take_while].
    destruct (ref_char_not_space c4 R4) as [_ ->]. cbn [snd].
    unfold ref_group. cbn [Re.take_while]. rewrite R4, R5, R6, R7.
    destruct (Re.take_while is_ref_char rest) as [run r]. reflexivity. }
  cbn [Re.search]. rewrite E.
  rewrite strip_ref.
  - unfold g. cbn [substring]. now destruct rest.
  - unfold g. cbn [all_chars]. now rewrite R4, R5, R6, R7, Hrun.
Qed.

Lemma invoice_number_from_word_invoice_witness :
  extract_invoice_number "Tax Invoice: 2024-17" = Some "oice"%string.
Proof.
  apply (invoice_number_from_word_invoice "Tax " "Invoice: 2024-17" ": 2024-17");
    reflexivity.
Defined.

Lemma tin_label_not_t (c : ascii) (s : string) :
  not_t c = true -> tin_label (String c s) = None.
Proof.
  unfold not_t, tin_label. cbn [Re.literal]. intros H.
  apply negb_true_iff in H. now rewrite H.
Qed.

(** At most [n] characters of a run that ends the class. *)
Lemma take_upto_app (n : nat) (p : ascii -> bool) (run rest : string) :
  all_chars p run = true ->
  match rest with
  | String c _ => p c = false
  | EmptyString => True
  end ->
  fst (take_upto n p (run ++ rest)) = substring 0 n run.
Proof.
  intros Hrun Hrest. revert run Hrun.
  induction n as [|n IH]; intros run Hrun.
  - cbn. now destruct run.
  - destruct run as [|c run].
    + cbn [append]. destruct rest as [|c r]; [reflexivity|].
      cbn [take_upto]. now rewrite Hrest.
    + cbn [all_chars] in Hrun. apply andb_true_iff in Hrun.
      destruct Hrun as [Hc Hrun].
      cbn [append take_upto substring]. rewrite Hc.
      specialize (IH run Hrun).
      destruct (take_upto n p (run ++ rest)) as [g r]. cbn [fst] in *.
      now rewrite IH.
Qed.

Lemma substring_length (n : nat) (s : string) :
  String.length (substring 0 n s) = Nat.min n (String.length s).
Proof.
  revert s. induction n as [|n IH]; intros s.
  - now destruct s.
  - destruct s as [|c s]; [reflexivity|]. cbn [substring String.length].
    now rewrite IH.
Qed.

Lemma substring_all_chars (p : ascii -> bool) (n : nat) (s : string) :
  all_chars p s = true -> all_chars p (substring 0 n s) = true.
Proof.
  revert s. induction n as [|n IH]; intros s H.
  - now destruct s.
  - destruct s as [|c s]; [reflexivity|]. cbn [substring all_chars] in *.
    apply andb_true_iff in H. destruct H as [Hc Hs].
    now rewrite Hc, (IH s Hs).
Qed.

(** X19. A labelled TIN is cut to ten digits: in a text with no letter t
    before the label "TIN", a run of at least nine digits after the label
    and its colons and blanks is stored as landlord TIN up to its tenth
    digit; the digits beyond the tenth are dropped. *)
Theorem landlord_tin_after_label (pre sep ds rest : string) :
  all_chars not_t pre = true ->
  all_chars Re.is_colon_or_space sep = true ->
  all_chars is_digit ds = true -> (9 <= String.length ds)%nat ->
  match rest with
  | String c _ => is_digit c = false
  | EmptyString => True
  end ->
  extract_landlord_tin (pre ++ ("TIN" ++ (sep ++ (ds ++ rest))))
  = Some (substring 0 10 ds).
Proof.
  intros Hpre Hsep Hds Hlen Hrest.
  unfold extract_landlord_tin.
  rewrite search_prefix
    by (apply nowhere_in_prefix_chars with (p := not_t);
        [apply tin_label_not_t|exact Hpre]).
  assert (E : exists r,
             tin_label ("TIN" ++ (sep ++ (ds ++ rest)))
             = Some (substring 0 10 ds, r)).
  { unfold tin_label.
    change (Re.literal "tin" ("TIN" ++ (sep ++ (ds ++ rest))))
      with (Some (sep ++ (ds ++ rest))%string).
    cbv iota beta.
    rewrite (skip_app_stop Re.is_colon_or_space sep (ds ++ rest) Hsep).
    2:{ destruct ds as [|c ds']; [cbn in Hlen; lia|]. cbn [append].
        cbn [all_chars] in Hds. apply andb_true_iff in Hds.
        now apply digit_not_colon_or_space. }
    unfold tin_digits.
    pose proof (take_upto_app 10 is_digit ds rest Hds Hrest) as Hg.
    destruct (take_upto 10 is_digit (ds ++ rest)) as [g r]. cbn [fst] in Hg.
    subst g. rewrite substring_length.
    destruct (Nat.leb_spec 9 (Nat.min 10 (String.length ds))); [|lia].
    now exists r. }
  destruct E as (r & E).
  change ("TIN" ++ (sep ++ (ds ++ rest)))%string
    with (String "T" ("IN" ++ (sep ++ (ds ++ rest)))) in *.
  cbn [Re.search]. rewrite E.
  now rewrite strip_digits by now apply substring_all_chars.
Qed.

Lemma landlord_tin_after_label_witness :
  extract_landlord_tin "Landlord ABC, TIN: 123456789012 Bank"
  = Some "1234567890"%string.
Proof.
  apply (landlord_tin_after_label "Landlord ABC, " ": " "123456789012" " Bank");
    try reflexivity. cbn. lia.
Defined.
